(** * pygmgn: a shallow embedding of [client.py] (GMGNSolClient)

    The development follows the Python source function by function.

    - Python [float]s are rationals extended with the two infinities and
      NaN ([pyfloat]); every comparison the client performs on them
      ([fee > 5], [elapsed < timeout_seconds]) is exact on such values.
    - Python [bytes] are lists of [ascii] (eight bits each); a Python [str]
      is a Rocq [string] holding the UTF-8 encoding of the text, so that
      [.encode('utf-8')] is the identity on the representation and
      [.decode('utf-8')] is a validity check.
    - JSON documents returned by the routing service are values of [json].
    - Effects (HTTP requests, the wall clock, sleeping, logging) are threaded
      through an explicit [world]; the remote service and the timing of the
      host are an oracle [remote].
    - Library code the client calls but does not contain (the AES block
      permutation, solders' key and transaction types) is a record of
      operations the definitions are parameterised by. *)

From Stdlib Require Import ZArith NArith QArith Lqa Lia List String Ascii Bool Arith.
From Stdlib Require Import DecimalString.
Import ListNotations.

Set Implicit Arguments.
Close Scope Q_scope.

(* ================================================================== *)
(** ** Python values *)

Inductive pyfloat : Type :=
| Fin (q : Q)
| PosInf
| NegInf
| NaN.

Definition Qltb (x y : Q) : bool := negb (Qle_bool y x).

(** [a < b] on floats; every comparison with NaN is false. *)
Definition float_lt (a b : pyfloat) : bool :=
  match a, b with
  | NaN, _ | _, NaN => false
  | Fin x, Fin y => Qltb x y
  | NegInf, NegInf => false
  | NegInf, _ => true
  | _, NegInf => false
  | PosInf, _ => false
  | Fin _, PosInf => true
  end.

(** A parsed JSON document, as [resp.json()] returns it. *)
Unset Elimination Schemes.
Inductive json : Type :=
| JNull
| JBool (b : bool)
| JInt (z : Z)
| JFloat (f : pyfloat)
| JStr (s : string)
| JArr (items : list json)
| JObj (fields : list (string * json)).
Set Elimination Schemes.

(** Python's truth value of an object. *)
Definition truthy (v : json) : bool :=
  match v with
  | JNull => false
  | JBool b => b
  | JInt z => negb (z =? 0)%Z
  | JFloat (Fin q) => negb (Qeq_bool q 0)
  | JFloat _ => true
  | JStr EmptyString => false
  | JStr _ => true
  | JArr [] => false
  | JArr _ => true
  | JObj [] => false
  | JObj _ => true
  end.

(** [v != 0] *)
Definition ne_zero (v : json) : bool :=
  match v with
  | JBool b => b
  | JInt z => negb (z =? 0)%Z
  | JFloat (Fin q) => negb (Qeq_bool q 0)
  | _ => true
  end.

(* ================================================================== *)
(** ** Exceptions and results *)

(** Every [raise] site of the client, and the exceptions of the libraries it
    calls.  The client raises plain [Exception] objects with a formatted
    message; a constructor stands for one message format and carries the
    values formatted into it. *)
Inductive exn : Type :=
| FeeTooLarge
    (* Exception('GMGN_SOL_CLIENT: Fee must be less than 5') *)
| HexPasswordLength
    (* Exception('GMGN_SOL_CLIENT: Hex Password must be 64 characters long') *)
| GetHttpError (status : Z) (url : string)
    (* Exception(f'GMGN_SOL_CLIENT: GET Error {status_code}, {url}') *)
| PostHttpError (status : Z) (url : string)
    (* Exception(f'GMGN_SOL_CLIENT: POST Error {status_code}, {url}') *)
| GetCodeError (code msg : json) (url : string)
    (* Exception(f'GMGN_SOL_CLIENT: GET Error {data["code"]} - {data["msg"]}, {url}') *)
| PostCodeError (code msg : json) (url : string)
    (* Exception(f'GMGN_SOL_CLIENT: POST Error {data["code"]} - {data["msg"]}, {url}') *)
| StatusNotFound (hash : json) (timeout_seconds : pyfloat)
    (* Exception(f'GMGN_SOL_CLIENT: Transaction {hash} status not found after
       {timeout_seconds} seconds') *)
| KeyError (key : string)
| TypeError
| AttributeError
| ValueError (what : string)
| BinasciiError (what : string)
| UnicodeDecodeError
| LibraryError (what : string)
    (* any other Exception raised inside requests, json, solders or the file
       system *)
| Interrupt (what : string).
    (* a BaseException that is not an Exception: asyncio.CancelledError,
       KeyboardInterrupt, SystemExit *)

(** [isinstance(e, Exception)]: what an [except Exception] clause catches. *)
Definition is_exception (e : exn) : bool :=
  match e with
  | Interrupt _ => false
  | _ => true
  end.

Inductive result (A : Type) : Type :=
| Ok (a : A)
| Raise (e : exn).

Arguments Ok {A} a.
Arguments Raise {A} e.

Definition rbind {A B} (r : result A) (k : A -> result B) : result B :=
  match r with
  | Ok a => k a
  | Raise e => Raise e
  end.

Declare Scope result_scope.
Delimit Scope result_scope with result.
Notation "x <- r ;; k" := (rbind r (fun x => k))
  (at level 61, r at next level, right associativity) : result_scope.

(* ================================================================== *)
(** ** Dictionaries *)

(** A [dict] with [str] keys, in insertion order. *)
Definition dict (V : Type) := list (string * V).

Fixpoint dict_get {V} (k : string) (d : dict V) : option V :=
  match d with
  | [] => None
  | (k', v) :: d' => if String.eqb k k' then Some v else dict_get k d'
  end.

(** [d[k]] *)
Definition dict_getitem {V} (d : dict V) (k : string) : result V :=
  match dict_get k d with
  | Some v => Ok v
  | None => Raise (KeyError k)
  end.

(** [del d[k]] and [d.pop(k)] at the places where [k] is a key of [d]. *)
Fixpoint dict_del {V} (k : string) (d : dict V) : dict V :=
  match d with
  | [] => []
  | (k', v) :: d' => if String.eqb k k' then d' else (k', v) :: dict_del k d'
  end.

(** [d[k] = v]: an existing key keeps its place. *)
Fixpoint dict_set {V} (k : string) (v : V) (d : dict V) : dict V :=
  match d with
  | [] => [(k, v)]
  | (k', v') :: d' =>
    if String.eqb k k' then (k, v) :: d' else (k', v') :: dict_set k v d'
  end.

(** [v[k]] on a JSON value: only objects can be subscripted by a string. *)
Definition getitem (v : json) (k : string) : result json :=
  match v with
  | JObj fields => dict_getitem fields k
  | _ => Raise TypeError
  end.

(* ================================================================== *)
(** ** Bytes and strings *)

Definition bytes := list ascii.

Definition ord (c : ascii) : N := N_of_ascii c.
Definition chr (n : N) : ascii := ascii_of_N n.

Fixpoint bytes_eqb (a b : bytes) : bool :=
  match a, b with
  | [], [] => true
  | x :: a', y :: b' => Ascii.eqb x y && bytes_eqb a' b'
  | _, _ => false
  end.

(** [s.encode('utf-8')] on the UTF-8 representation of a [str]. *)
Definition encode_utf8 (s : string) : bytes := list_ascii_of_string s.

Definition in_range (lo hi : N) (c : ascii) : bool :=
  (N.leb lo (ord c) && N.leb (ord c) hi)%bool.

Definition continuation (c : ascii) : bool := in_range 128 191 c.

(** Well-formed UTF-8 byte sequences (Unicode, table 3-7), which is what the
    strict decoder of [bytes.decode('utf-8')] accepts. *)
Fixpoint utf8_valid (b : bytes) : bool :=
  match b with
  | [] => true
  | c0 :: t0 =>
    if in_range 0 127 c0 then utf8_valid t0
    else match t0 with
    | [] => false
    | c1 :: t1 =>
      if in_range 194 223 c0 then continuation c1 && utf8_valid t1
      else match t1 with
      | [] => false
      | c2 :: t2 =>
        if in_range 224 239 c0 then
          (if N.eqb (ord c0) 224 then in_range 160 191 c1
           else if N.eqb (ord c0) 237 then in_range 128 159 c1
           else continuation c1)
          && continuation c2 && utf8_valid t2
        else match t2 with
        | [] => false
        | c3 :: t3 =>
          if in_range 240 244 c0 then
            (if N.eqb (ord c0) 240 then in_range 144 191 c1
             else if N.eqb (ord c0) 244 then in_range 128 143 c1
             else continuation c1)
            && continuation c2 && continuation c3 && utf8_valid t3
          else false
        end
      end
    end
  end%bool.

(** [b.decode('utf-8')] *)
Definition decode_utf8 (b : bytes) : result string :=
  if utf8_valid b then Ok (string_of_list_ascii b) else Raise UnicodeDecodeError.

(** [len(s)] of a [str]: the number of code points, that is of bytes that
    are not continuation bytes. *)
Definition str_len (s : string) : nat :=
  List.length (filter (fun c => negb (continuation c)) (encode_utf8 s)).

(** [s.strip(chars)] for a set [chars] of ASCII characters. *)
Fixpoint lstrip (chars : list ascii) (b : bytes) : bytes :=
  match b with
  | c :: t => if existsb (Ascii.eqb c) chars then lstrip chars t else b
  | [] => []
  end.

Definition strip (chars : string) (s : string) : string :=
  let cs := list_ascii_of_string chars in
  string_of_list_ascii
    (rev (lstrip cs (rev (lstrip cs (list_ascii_of_string s))))).

(* ------------------------------------------------------------------ *)
(** *** base64 (CPython's [binascii]) *)

Definition table_b2a_base64 : bytes :=
  list_ascii_of_string
    "ABCDEFGHIJKLMNOPQRSTUVWXYZabcdefghijklmnopqrstuvwxyz0123456789+/".

Definition BASE64_PAD : ascii := "="%char.

Definition b2a (n : N) : ascii := nth (N.to_nat n) table_b2a_base64 BASE64_PAD.

Fixpoint index_of (c : ascii) (l : bytes) (i : N) : option N :=
  match l with
  | [] => None
  | x :: t => if Ascii.eqb c x then Some i else index_of c t (N.succ i)
  end.

(** [table_a2b_base64[c]]; [None] where the C table holds a value [>= 64]. *)
Definition a2b (c : ascii) : option N := index_of c table_b2a_base64 0%N.

(** [base64.b64encode(data)]: three bytes become four characters, the last
    group is padded with [=]. *)
Fixpoint b64encode (data : bytes) : bytes :=
  match data with
  | [] => []
  | [x] =>
    [ b2a (N.shiftr (ord x) 2);
      b2a (N.shiftl (N.land (ord x) 3) 4);
      BASE64_PAD; BASE64_PAD ]
  | [x; y] =>
    [ b2a (N.shiftr (ord x) 2);
      b2a (N.lor (N.shiftl (N.land (ord x) 3) 4) (N.shiftr (ord y) 4));
      b2a (N.shiftl (N.land (ord y) 15) 2);
      BASE64_PAD ]
  | x :: y :: z :: rest =>
    b2a (N.shiftr (ord x) 2)
    :: b2a (N.lor (N.shiftl (N.land (ord x) 3) 4) (N.shiftr (ord y) 4))
    :: b2a (N.lor (N.shiftl (N.land (ord y) 15) 2) (N.shiftr (ord z) 6))
    :: b2a (N.land (ord z) 63)
    :: b64encode rest
  end.

Definition emit (c : ascii) (r : result bytes) : result bytes :=
  match r with
  | Ok l => Ok (c :: l)
  | Raise e => Raise e
  end.

(** The loop of [binascii.a2b_base64] in its default, non-strict mode:
    characters outside the alphabet are skipped, a pad sequence that
    completes a quad ends the parse, a dangling quad is an error.
    [quad_pos], [leftchar] and [pads] are the C locals of that name. *)
Fixpoint a2b_base64_loop (input : bytes) (quad_pos : nat) (leftchar : N) (pads : nat)
  : result bytes :=
  match input with
  | [] =>
    match quad_pos with
    | 0 => Ok []
    | 1 => Raise (BinasciiError "Invalid base64-encoded string")
    | _ => Raise (BinasciiError "Incorrect padding")
    end
  | this_ch :: rest =>
    if Ascii.eqb this_ch BASE64_PAD then
      if (2 <=? quad_pos)%nat then
        if (4 <=? quad_pos + S pads)%nat then Ok []
        else a2b_base64_loop rest quad_pos leftchar (S pads)
      else a2b_base64_loop rest quad_pos leftchar pads
    else
      match a2b this_ch with
      | None => a2b_base64_loop rest quad_pos leftchar pads
      | Some v =>
        match quad_pos with
        | 0 => a2b_base64_loop rest 1 v 0
        | 1 => emit (chr (N.lor (N.shiftl leftchar 2) (N.shiftr v 4)))
                    (a2b_base64_loop rest 2 (N.land v 15) 0)
        | 2 => emit (chr (N.lor (N.shiftl leftchar 4) (N.shiftr v 2)))
                    (a2b_base64_loop rest 3 (N.land v 3) 0)
        | _ => emit (chr (N.lor (N.shiftl leftchar 6) v))
                    (a2b_base64_loop rest 0 0%N 0)
        end
      end
  end.

(** [base64.b64decode(s)] for a [bytes] argument. *)
Definition b64decode (s : bytes) : result bytes := a2b_base64_loop s 0 0%N 0.

(* ------------------------------------------------------------------ *)
(** *** [bytes.fromhex] *)

Definition hex_digits : bytes := list_ascii_of_string "0123456789abcdef".

Definition hex_value (c : ascii) : option N :=
  match index_of c hex_digits 0%N with
  | Some v => Some v
  | None =>
    match index_of c (list_ascii_of_string "ABCDEF") 10%N with
    | Some v => Some v
    | None => None
    end
  end.

(** [Py_ISSPACE]: space, \t, \n, \v, \f, \r. *)
Definition is_space (c : ascii) : bool :=
  (N.eqb (ord c) 32 || in_range 9 13 c)%bool.

(** [bytes.fromhex(s)]: white space is skipped between bytes, every byte is
    two hexadecimal digits. *)
Fixpoint fromhex (s : bytes) : result bytes :=
  match s with
  | [] => Ok []
  | c :: t =>
    if is_space c then fromhex t
    else match hex_value c, t with
    | Some top, d :: t' =>
      match hex_value d with
      | Some bot => emit (chr (N.shiftl top 4 + bot)) (fromhex t')
      | None => Raise (ValueError "non-hexadecimal number found in fromhex() arg")
      end
    | _, _ => Raise (ValueError "non-hexadecimal number found in fromhex() arg")
    end
  end.

(** Lower-case hexadecimal text of a byte string ([bytes.hex]). *)
Definition hex (b : bytes) : bytes :=
  flat_map (fun c => [ nth (N.to_nat (N.shiftr (ord c) 4)) hex_digits "0"%char;
                       nth (N.to_nat (N.land (ord c) 15)) hex_digits "0"%char ]) b.

(* ------------------------------------------------------------------ *)
(** *** PKCS#7 padding ([Crypto.Util.Padding]) *)

Definition block_size : nat := 16.   (* AES.block_size *)

(** [pad(data, block_size)], style pkcs7. *)
Definition pad (data : bytes) (bs : nat) : bytes :=
  let padding_len := bs - List.length data mod bs in
  data ++ repeat (chr (N.of_nat padding_len)) padding_len.

(** [unpad(padded_data, block_size)], style pkcs7. *)
Definition unpad (padded_data : bytes) (bs : nat) : result bytes :=
  let pdata_len := List.length padded_data in
  if (pdata_len =? 0)%nat then Raise (ValueError "Zero-length input cannot be unpadded")
  else if negb (pdata_len mod bs =? 0)%nat then Raise (ValueError "Input data is not padded")
  else
    let padding_len := N.to_nat (ord (last padded_data zero)) in
    if ((padding_len <? 1) || (Nat.min bs pdata_len <? padding_len))%nat%bool
    then Raise (ValueError "Padding is incorrect.")
    else if negb (bytes_eqb (skipn (pdata_len - padding_len) padded_data)
                           (repeat (chr (N.of_nat padding_len)) padding_len))
    then Raise (ValueError "PKCS#7 padding is incorrect.")
    else Ok (firstn (pdata_len - padding_len) padded_data).

(* ------------------------------------------------------------------ *)
(** *** AES in CBC mode ([Crypto.Cipher.AES]) *)

(** The block permutation of AES and its inverse, as functions of the key
    and of one block.  The chaining around them is written out below. *)
Record block_cipher : Type := {
  encrypt_block : bytes -> bytes -> bytes;
  decrypt_block : bytes -> bytes -> bytes
}.

Definition xor_bytes (a b : bytes) : bytes :=
  map (fun p => chr (N.lxor (ord (fst p)) (ord (snd p)))) (combine a b).

(** The object returned by [AES.new(key, AES.MODE_CBC, iv)]. *)
Record cbc_cipher : Type := { cbc_key : bytes; cbc_iv : bytes }.

Definition AES_new (key iv : bytes) : result cbc_cipher :=
  let n := List.length key in
  if negb ((n =? 16) || (n =? 24) || (n =? 32))%nat
  then Raise (ValueError "Incorrect AES key length")
  else if negb (List.length iv =? block_size)%nat
  then Raise (ValueError "Incorrect IV length (it must be 16 bytes long)")
  else Ok {| cbc_key := key; cbc_iv := iv |}.

(** Block [i] of the plaintext is [D(c_i) xor c_(i-1)], with [c_0] the IV. *)
Fixpoint cbc_decrypt_blocks (C : block_cipher) (key : bytes) (fuel : nat)
    (prev ct : bytes) : bytes :=
  match fuel, ct with
  | S fuel', _ :: _ =>
    let c := firstn block_size ct in
    xor_bytes (decrypt_block C key c) prev
      ++ cbc_decrypt_blocks C key fuel' c (skipn block_size ct)
  | _, _ => []
  end.

(** [cipher.decrypt(ciphertext)] *)
Definition decrypt (C : block_cipher) (cipher : cbc_cipher) (ciphertext : bytes)
  : result bytes :=
  if negb (List.length ciphertext mod block_size =? 0)%nat
  then Raise (ValueError "Data must be padded to 16 byte boundary in CBC mode")
  else Ok (cbc_decrypt_blocks C (cbc_key cipher) (List.length ciphertext)
                              (cbc_iv cipher) ciphertext).

(** Modelled from the spec: the writer's side of the at-rest format, for
    which the repository has no routine.  Block [i] of the ciphertext is
    [E(p_i xor c_(i-1))], with [c_0] the IV. *)
Fixpoint cbc_encrypt_blocks (C : block_cipher) (key : bytes) (fuel : nat)
    (prev pt : bytes) : bytes :=
  match fuel, pt with
  | S fuel', _ :: _ =>
    let c := encrypt_block C key (xor_bytes (firstn block_size pt) prev) in
    c ++ cbc_encrypt_blocks C key fuel' c (skipn block_size pt)
  | _, _ => []
  end.

(** Modelled from the spec: the at-rest secret, for which the repository
    has no routine: base64 of [IV || ciphertext], the ciphertext being the
    CBC encryption of the plaintext under standard block padding. *)
Definition encrypt_secret (C : block_cipher) (key iv : bytes) (plaintext : string)
  : string :=
  let padded := pad (encode_utf8 plaintext) block_size in
  string_of_list_ascii
    (b64encode (iv ++ cbc_encrypt_blocks C key (List.length padded) iv padded)).

(* ================================================================== *)
(** ** The signing identity: [GMGNSolClient.__init__] *)

(** What the constructor reads from its host. *)
Record host : Type := {
  read_file : string -> result string;    (* open(path, 'r').read() *)
  getpass : string -> result string       (* getpass.getpass(prompt) *)
}.

(** The operations of the [solders] package the client uses. *)
Record solders : Type := {
  Keypair : Type;
  VersionedTransaction : Type;
  Message : Type;
  from_base58_string : string -> result Keypair;   (* Keypair.from_base58_string *)
  pubkey_str : Keypair -> string;                  (* str(keypair.pubkey()) *)
  from_bytes : bytes -> result VersionedTransaction;
  message : VersionedTransaction -> Message;
  new_tx : Message -> list Keypair -> result VersionedTransaction;
  to_bytes : VersionedTransaction -> bytes
}.

(** The attributes [__init__] sets on [self]. *)
Record GMGNSolClient (S : solders) : Type := {
  _pvk : string;
  signer : Keypair S;
  signer_address : string
}.

Definition getpass_prompt : string :=
  "Please input decrypt aes_256_key for gmgn client solana encrypted private key (if not encrypted, please input empty): ".

(** The characters of ['\t\n\r '] *)
Definition strip_chars : string :=
  String (ascii_of_nat 9) (String (ascii_of_nat 10) (String (ascii_of_nat 13) " ")).

(** Truth value of an optional [str] argument: [None] and [''] are false. *)
Definition str_truthy (s : option string) : bool :=
  match s with
  | Some (String _ _) => true
  | _ => false
  end.

Definition str_or_empty (s : option string) : string :=
  match s with Some x => x | None => EmptyString end.

(** Lines 122-130: the branch taken when a symmetric key is present. *)
Definition decrypt_pvk (C : block_cipher) (aes_256_hex_key : string)
    (pvk_base58 : option string) : result string :=
  (if negb (str_len aes_256_hex_key =? 64)%nat then Raise HexPasswordLength
   else
     secret <- match pvk_base58 with
               | Some s => Ok s
               | None => Raise AttributeError   (* None has no attribute encode *)
               end ;;
     encrypted_bytes <- b64decode (encode_utf8 secret) ;;
     let iv := firstn block_size encrypted_bytes in
     let ciphertext := skipn block_size encrypted_bytes in
     key <- fromhex (encode_utf8 aes_256_hex_key) ;;
     cipher <- AES_new key iv ;;
     padded <- decrypt C cipher ciphertext ;;
     decrypted_bytes <- unpad padded block_size ;;
     decode_utf8 decrypted_bytes)%result.

Definition __init__ (H : host) (C : block_cipher) (S : solders)
    (pvk_base58 sol_pvk_file_path aes_256_hex_key : option string)
  : result (GMGNSolClient S) :=
  (pvk_base58 <- (if str_truthy sol_pvk_file_path
                  then text <- read_file H (str_or_empty sol_pvk_file_path) ;;
                       Ok (Some (strip strip_chars text))
                  else Ok pvk_base58) ;;
   aes_256_hex_key <- (if negb (str_truthy aes_256_hex_key)
                       then getpass H getpass_prompt
                       else Ok (str_or_empty aes_256_hex_key)) ;;
   pvk_base58 <- (if str_truthy (Some aes_256_hex_key)
                  then plain <- decrypt_pvk C aes_256_hex_key pvk_base58 ;;
                       Ok (Some plain)
                  else Ok pvk_base58) ;;
   pvk <- match pvk_base58 with
          | Some s => Ok s
          | None => Raise TypeError   (* from_base58_string(None) *)
          end ;;
   kp <- from_base58_string S pvk ;;
   Ok {| _pvk := pvk; signer := kp; signer_address := pubkey_str S kp |})%result.

(* ================================================================== *)
(** ** The world: network, clock, log *)

Inductive SwapMode : Type :=
| EXACT_IN     (* "ExactIn" *)
| EXACT_OUT.   (* "ExactOut" *)

(** A value bound in [locals()] or sent as a query parameter. *)
Inductive pyval : Type :=
| PJ (j : json)
| PMode (m : SwapMode)
| PSelf.

(** What the client does to its surroundings, in the order it does it. *)
Inductive event : Type :=
| GET (url : string) (params : dict pyval)      (* requests.get(url, params) *)
| POST (url : string) (body : dict json)        (* requests.post(url, json=body) *)
| SLEEP (seconds : Q)                           (* asyncio.sleep(seconds) *)
| LOG_ERROR (e : exn).                          (* logger.error(...) *)

(** An HTTP response: [resp.status_code], and what
    [ResponseData(resp.json())] evaluates to (a dict, or an exception when
    the body is not JSON or not a mapping).  A dict built that way always
    passes the [isinstance(data, dict)] test of [get] and [post]. *)
Record reply : Type := {
  status_code : Z;
  body : result (dict json)
}.

(** The routing service and the timing of the host.  [respond n ev] is the
    outcome of the [n]-th request the client sends, which is [ev]
    ([Raise] when [requests] itself raises); that request takes
    [latency n] seconds; the [n]-th sleep lasts [oversleep n] seconds longer
    than asked. *)
Record remote : Type := {
  respond : nat -> event -> result reply;
  latency : nat -> Q;
  oversleep : nat -> Q
}.

Record world : Type := {
  clock : Q;                 (* what time.time() returns now *)
  requests_sent : nat;
  sleeps_done : nat;
  trace : list (Q * event)   (* every event with the time it started at *)
}.

(** A computation of the client: it ends with a value or an exception, or
    does not end within the fuel it was given ([None]); in each case it
    leaves the world it reached. *)
Definition prog (A : Type) : Type := world -> option (result A) * world.

Definition ret {A} (a : A) : prog A := fun w => (Some (Ok a), w).

Definition raise {A} (e : exn) : prog A := fun w => (Some (Raise e), w).

Definition lift {A} (r : result A) : prog A := fun w => (Some r, w).

Definition out_of_fuel {A} : prog A := fun w => (None, w).

Definition bind {A B} (m : prog A) (k : A -> prog B) : prog B :=
  fun w =>
    match m w with
    | (Some (Ok a), w') => k a w'
    | (Some (Raise e), w') => (Some (Raise e), w')
    | (None, w') => (None, w')
    end.

(** [try: m except Exception as e: ...]: an [Exception] becomes a value;
    what is raised and is no [Exception] goes on to the caller. *)
Definition try {A} (m : prog A) : prog (result A) :=
  fun w =>
    match m w with
    | (Some (Ok a), w') => (Some (Ok (Ok a)), w')
    | (Some (Raise e), w') =>
      if is_exception e then (Some (Ok (Raise e)), w') else (Some (Raise e), w')
    | (None, w') => (None, w')
    end.

Declare Scope prog_scope.
Delimit Scope prog_scope with prog.
Notation "x <- m ;; k" := (bind m (fun x => k))
  (at level 61, m at next level, right associativity) : prog_scope.
Notation "m ;;; k" := (bind m (fun _ => k))
  (at level 61, right associativity) : prog_scope.

Definition record_event (ev : event) (w : world) : list (Q * event) :=
  trace w ++ [(clock w, ev)].

(** The world once the [n]-th request, [ev], has been answered. *)
Definition after_request (R : remote) (ev : event) (w : world) : world :=
  {| clock := (clock w + latency R (requests_sent w))%Q;
     requests_sent := S (requests_sent w);
     sleeps_done := sleeps_done w;
     trace := record_event ev w |}.

(** [await asyncio.to_thread(requests.get, ...)] and its [post] twin. *)
Definition request (R : remote) (ev : event) : prog reply :=
  fun w => (Some (respond R (requests_sent w) ev), after_request R ev w).

(** [time.time()] *)
Definition time_time : prog Q := fun w => (Some (Ok (clock w)), w).

(** The time [asyncio.sleep(seconds)] suspends for, at least: a delay that
    is not positive returns at once. *)
Definition delay (seconds : Q) : Q := if Qltb 0 seconds then seconds else 0%Q.

Definition after_sleep (R : remote) (seconds : Q) (w : world) : world :=
  {| clock := (clock w + delay seconds + oversleep R (sleeps_done w))%Q;
     requests_sent := requests_sent w;
     sleeps_done := S (sleeps_done w);
     trace := record_event (SLEEP seconds) w |}.

(** [await asyncio.sleep(seconds)], for a task that is left to sleep: the
    sleep comes to its end and gives nothing back. *)
Definition sleep (R : remote) (seconds : Q) : prog unit :=
  fun w => (Some (Ok tt), after_sleep R seconds w).

Definition after_log (e : exn) (w : world) : world :=
  {| clock := clock w;
     requests_sent := requests_sent w;
     sleeps_done := sleeps_done w;
     trace := record_event (LOG_ERROR e) w |}.

Definition logger_error (e : exn) : prog unit :=
  fun w => (Some (Ok tt), after_log e w).

(* ================================================================== *)
(** ** The remote gateway: [get] and [post] *)

Definition tx_base_url : string := "https://gmgn.ai/defi/router/v1".

(** [f'{tx_base_url}/{other_path.strip("/")}'] *)
Definition url_of (other_path : string) : string :=
  (tx_base_url ++ "/" ++ strip "/" other_path)%string.

Definition get (R : remote) (other_path : string) (kwargs : dict pyval) : prog json :=
  (let url := url_of other_path in
   resp <- request R (GET url kwargs) ;;
   if negb (status_code resp =? 200)%Z
   then raise (GetHttpError (status_code resp) url)
   else
     data <- lift (body resp) ;;
     code <- lift (dict_getitem data "code") ;;
     if ne_zero code
     then msg <- lift (dict_getitem data "msg") ;;
          raise (GetCodeError code msg url)
     else lift (dict_getitem data "data"))%prog.

Definition post (R : remote) (other_path : string) (body_ : dict json) : prog json :=
  (let url := url_of other_path in
   resp <- request R (POST url body_) ;;
   if negb (status_code resp =? 200)%Z
   then raise (PostHttpError (status_code resp) url)
   else
     data <- lift (body resp) ;;
     code <- lift (dict_getitem data "code") ;;
     if ne_zero code
     then msg <- lift (dict_getitem data "msg") ;;
          raise (PostCodeError code msg url)
     else lift (dict_getitem data "data"))%prog.

(* ================================================================== *)
(** ** The client's methods *)

(** The keyword arguments shared by [get_swap_route] and [swap]. *)
Record swap_args : Type := {
  token_in_address : string;
  token_out_address : string;
  in_amount : string;
  slippage : pyfloat;
  swap_mode : SwapMode;
  fee : pyfloat;
  from_address : option string;
  is_anti_mev : bool;
  partner : option string
}.

Definition opt_str (s : option string) : pyval :=
  match s with
  | Some x => PJ (JStr x)
  | None => PJ JNull
  end.

(** [locals()] on entry to [get_swap_route]. *)
Definition locals (a : swap_args) : dict pyval :=
  [ ("self", PSelf);
    ("token_in_address", PJ (JStr (token_in_address a)));
    ("token_out_address", PJ (JStr (token_out_address a)));
    ("in_amount", PJ (JStr (in_amount a)));
    ("slippage", PJ (JFloat (slippage a)));
    ("swap_mode", PMode (swap_mode a));
    ("fee", PJ (JFloat (fee a)));
    ("from_address", opt_str (from_address a));
    ("is_anti_mev", PJ (JBool (is_anti_mev a)));
    ("partner", opt_str (partner a)) ]%string.

(** The query parameters [get_swap_route] builds from its arguments. *)
Definition swap_route_params (signer_address_ : string) (a : swap_args) : dict pyval :=
  let params := locals a in
  let params := dict_del "self" params in
  let params := if negb (is_anti_mev a) then dict_del "is_anti_mev" params else params in
  let params := if negb (str_truthy (partner a)) then dict_del "partner" params else params in
  if negb (str_truthy (from_address a))
  then dict_set "from_address" (PJ (JStr signer_address_)) params
  else params.

Definition get_swap_route (R : remote) {S : solders} (self : GMGNSolClient S)
    (a : swap_args) : prog json :=
  if float_lt (Fin 5) (fee a)
  then raise FeeTooLarge
  else get R "sol/tx/get_swap_route" (swap_route_params (signer_address self) a).

(** [base64.b64decode] of an argument that may be any object: a [str] must
    be ASCII, anything but text is a [TypeError]. *)
Definition b64decode_obj (o : json) : result bytes :=
  match o with
  | JStr s =>
    if forallb (in_range 0 127) (encode_utf8 s)
    then b64decode (encode_utf8 s)
    else Raise (ValueError "string argument should contain only ASCII characters")
  | _ => Raise TypeError
  end.

Definition sign_raw_tx {S : solders} (self : GMGNSolClient S) (base64_tx : json)
  : result string :=
  (tx_bytes <- b64decode_obj base64_tx ;;
   tx <- from_bytes S tx_bytes ;;
   signed_tx <- new_tx S (message S tx) [signer self] ;;
   decode_utf8 (b64encode (to_bytes S signed_tx)))%result.

Definition submit_tx (R : remote) (signed_tx : string) : prog json :=
  post R "sol/tx/submit_signed_transaction" [("signed_tx", JStr signed_tx)]%string.

Definition submit_anti_mev_tx (R : remote) {S : solders} (self : GMGNSolClient S)
    (signed_tx : string) (from_address_ : option string) : prog json :=
  let from_address_ :=
    if negb (str_truthy from_address_) then signer_address self
    else str_or_empty from_address_ in
  post R "sol/tx/submit_tx_anti_mev_mode"
       [("signed_tx", JStr signed_tx); ("from_address", JStr from_address_)]%string.

Definition get_tx_status (R : remote) (hash last_valid_height : json) : prog json :=
  get R "sol/tx/get_transaction_status"
      [("hash", PJ hash); ("last_valid_height", PJ last_valid_height)]%string.

(** [status['success'] or status['failed'] or status['expired']], as the
    truth value the [if] sees; the later subscripts are evaluated only when
    the earlier flags are false. *)
Definition is_terminal (status : json) : result bool :=
  (s <- getitem status "success" ;;
   if truthy s then Ok true
   else f <- getitem status "failed" ;;
        if truthy f then Ok true
        else e <- getitem status "expired" ;;
             Ok (truthy e))%result.

(** The body of the [try] block: [Some status] stands for [return status]. *)
Definition poll_once (R : remote) (hash last_valid_height : json) : prog (option json) :=
  (status <- get_tx_status R hash last_valid_height ;;
   t <- lift (is_terminal status) ;;
   ret (if t then Some status else None))%prog.

(** The [while] loop of [wait_tx_status]; [fuel] bounds its iterations. *)
Fixpoint wait_loop (R : remote) (fuel : nat) (start_time : Q)
    (hash last_valid_height : json)
    (fetch_interval_seconds : Q) (timeout_seconds : pyfloat) : prog json :=
  match fuel with
  | O => out_of_fuel
  | S fuel' =>
    (now <- time_time ;;
     if float_lt (Fin (now - start_time)) timeout_seconds
     then
       attempt <- try (poll_once R hash last_valid_height) ;;
       match attempt with
       | Ok (Some status) => ret status
       | Ok None =>
         sleep R fetch_interval_seconds ;;;
         wait_loop R fuel' start_time hash last_valid_height
                   fetch_interval_seconds timeout_seconds
       | Raise e =>
         logger_error e ;;;
         sleep R fetch_interval_seconds ;;;
         wait_loop R fuel' start_time hash last_valid_height
                   fetch_interval_seconds timeout_seconds
       end
     else raise (StatusNotFound hash timeout_seconds))%prog
  end.

Definition wait_tx_status (R : remote) (fuel : nat) (hash last_valid_height : json)
    (fetch_interval_seconds : Q) (timeout_seconds : pyfloat) : prog json :=
  (start_time <- time_time ;;
   wait_loop R fuel start_time hash last_valid_height
             fetch_interval_seconds timeout_seconds)%prog.

(** The submission step of [swap] (the [if not is_anti_mev] statement):
    the receipt and the hash read from it. *)
Definition submit (R : remote) {S : solders} (self : GMGNSolClient S)
    (is_anti_mev_ : bool) (signed_tx : string) : prog (json * json) :=
  (if negb is_anti_mev_
   then sub_resp <- submit_tx R signed_tx ;;
        tx_hash <- lift (getitem sub_resp "hash") ;;
        ret (sub_resp, tx_hash)
   else sub_resp <- submit_anti_mev_tx R self signed_tx None ;;
        tx_hash <- lift (getitem sub_resp "tx_hash") ;;
        ret (sub_resp, tx_hash))%prog.

(** The quote and signing steps of [swap] (lines 297-300). *)
Definition prepare (R : remote) {S : solders} (self : GMGNSolClient S)
    (a : swap_args) : prog (json * string * json) :=
  (quote <- get_swap_route R self a ;;
   raw_tx <- lift (getitem quote "raw_tx") ;;
   unsigned_tx <- lift (getitem raw_tx "swapTransaction") ;;
   signed_tx <- lift (sign_raw_tx self unsigned_tx) ;;
   raw_tx' <- lift (getitem quote "raw_tx") ;;
   last_valid_height <- lift (getitem raw_tx' "lastValidBlockHeight") ;;
   ret (quote, signed_tx, last_valid_height))%prog.

Definition swap (R : remote) {S : solders} (self : GMGNSolClient S) (fuel : nat)
    (a : swap_args)
    (wait_tx_fetch_interval_seconds : Q) (wait_tx_timeout_seconds : pyfloat)
  : prog (json * json * json) :=
  (p <- prepare R self a ;;
   let '(quote, signed_tx, last_valid_height) := p in
   s <- submit R self (is_anti_mev a) signed_tx ;;
   let '(sub_resp, tx_hash) := s in
   status_resp <- wait_tx_status R fuel tx_hash last_valid_height
                    wait_tx_fetch_interval_seconds wait_tx_timeout_seconds ;;
   ret (quote, sub_resp, status_resp))%prog.

(** The world a call starts from. *)
Definition boot (t0 : Q) : world :=
  {| clock := t0; requests_sent := 0; sleeps_done := 0; trace := [] |}.

(* ================================================================== *)
(** ** Observations on a trace *)

Definition route_url : string := url_of "sol/tx/get_swap_route".
Definition direct_url : string := url_of "sol/tx/submit_signed_transaction".
Definition relay_url : string := url_of "sol/tx/submit_tx_anti_mev_mode".
Definition status_url : string := url_of "sol/tx/get_transaction_status".

Definition is_post_to (url : string) (te : Q * event) : bool :=
  match snd te with
  | POST u _ => String.eqb u url
  | _ => false
  end.

(** How many submissions went to [url]. *)
Definition posts_to (url : string) (tr : list (Q * event)) : nat :=
  List.length (filter (is_post_to url) tr).

(** The events that happened between the world [w] and the later [w']. *)
Definition events_since (w w' : world) : list (Q * event) :=
  skipn (List.length (trace w)) (trace w').

(** The three flags of a transaction status. *)
Definition flags : list string := ["success"; "failed"; "expired"]%string.

Definition no_post (tr : list (Q * event)) : Prop :=
  Forall (fun te => match snd te with POST _ _ => False | _ => True end) tr.

(** The later world has the trace of the earlier one, and after it events
    that are not submissions. *)
Definition quiet_step (w w' : world) : Prop :=
  exists new, trace w' = trace w ++ new /\ no_post new.

(** The request a submission consists of, on the relay path and on the
    direct one. *)
Definition submission {S : solders} (self : GMGNSolClient S) (relay : bool)
    (signed_tx : string) : event :=
  if relay
  then POST relay_url [("signed_tx", JStr signed_tx);
                       ("from_address", JStr (signer_address self))]%string
  else POST direct_url [("signed_tx", JStr signed_tx)]%string.

(** The status query [wait_tx_status] repeats. *)
Definition status_query (hash last_valid_height : json) : event :=
  GET status_url [("hash", PJ hash); ("last_valid_height", PJ last_valid_height)]%string.

(** The reply [rp] is a success envelope carrying [data]: HTTP 200, a code
    equal to zero, and [data] under the key [data]. *)
Definition delivers (rp : result reply) (data : json) : Prop :=
  exists r d c,
    rp = Ok r /\ status_code r = 200%Z /\ body r = Ok d /\
    dict_get "code" d = Some c /\ ne_zero c = false /\
    dict_get "data" d = Some data.

(** The world in which [n] requests have been sent and nothing else is
    known. *)
Definition at_request (n : nat) : world :=
  {| clock := 0%Q; requests_sent := n; sleeps_done := 0; trace := [] |}.

(** What one pass through the [try] block of [wait_tx_status] comes to when
    its query is the [n]-th request: [Ok (Some status)] is a return,
    [Ok None] a status that is still pending, [Raise e] what the query or
    the test of the status raised: the [except] clause takes it when it is
    an [Exception]. *)
Definition attempt (R : remote) (hash last_valid_height : json) (n : nat)
  : result (option json) :=
  match fst (poll_once R hash last_valid_height (at_request n)) with
  | Some r => r
  | None => Ok None
  end.

(** The world one turn of the loop leads to: the query, the log entry when
    the query raised an [Exception], and the sleep (no sleep when the turn
    returns, none either when what was raised is no [Exception] and leaves
    the loop). *)
Definition after_turn (R : remote) (hash last_valid_height : json)
    (fetch_interval_seconds : Q) (w : world) : world :=
  let w1 := after_request R (status_query hash last_valid_height) w in
  match attempt R hash last_valid_height (requests_sent w) with
  | Ok (Some _) => w1
  | Ok None => after_sleep R fetch_interval_seconds w1
  | Raise e =>
    if is_exception e
    then after_sleep R fetch_interval_seconds (after_log e w1)
    else w1
  end.

Fixpoint after_turns (R : remote) (hash last_valid_height : json)
    (fetch_interval_seconds : Q) (k : nat) (w : world) : world :=
  match k with
  | O => w
  | S k' =>
    after_turns R hash last_valid_height fetch_interval_seconds k'
                (after_turn R hash last_valid_height fetch_interval_seconds w)
  end.

(** A turn after which the loop goes round again: the status is pending,
    or the query raised an [Exception], which the [except] clause logs. *)
Definition goes_on (r : result (option json)) : Prop :=
  match r with
  | Ok (Some _) => False
  | Ok None => True
  | Raise e => is_exception e = true
  end.

(** Seconds since [start_time]. *)
Definition elapsed (start_time : Q) (w : world) : Q := (clock w - start_time)%Q.

(** Latencies and oversleeps are durations. *)
Definition sane_timing (R : remote) : Prop :=
  forall n, (0 <= latency R n)%Q /\ (0 <= oversleep R n)%Q.

(* ================================================================== *)
(** ** Vocabulary of the byte-level proofs *)

(** Every byte, and every six-bit value. *)
Definition all_ascii : list ascii := map ascii_of_nat (seq 0 256).
Definition sextets : list N := map N.of_nat (seq 0 64).

(** The four sextets [b64encode] cuts three bytes into. *)
Definition sextet1 (x : ascii) : N := N.shiftr (ord x) 2.
Definition sextet2 (x y : ascii) : N :=
  N.lor (N.shiftl (N.land (ord x) 3) 4) (N.shiftr (ord y) 4).
Definition sextet3 (y z : ascii) : N :=
  N.lor (N.shiftl (N.land (ord y) 15) 2) (N.shiftr (ord z) 6).
Definition sextet4 (z : ascii) : N := N.land (ord z) 63.

(** The two digits [hex] writes for a byte. *)
Definition hex_hi (c : ascii) : ascii :=
  nth (N.to_nat (N.shiftr (ord c) 4)) hex_digits "0"%char.
Definition hex_lo (c : ascii) : ascii :=
  nth (N.to_nat (N.land (ord c) 15)) hex_digits "0"%char.

(** What is assumed of the block cipher under the key [key]: on blocks,
    decryption undoes encryption, and the image of a block is a block. *)
Definition permutes (C : block_cipher) (key : bytes) : Prop :=
  forall b, List.length b = block_size ->
    decrypt_block C key (encrypt_block C key b) = b /\
    List.length (encrypt_block C key b) = block_size.

(* ================================================================== *)
(** ** Example instances *)

(** The usual success envelope around [data]. *)
Definition envelope (data : json) : result reply :=
  Ok {| status_code := 200;
        body := Ok [("code", JInt 0); ("msg", JStr "success"); ("data", data)]%string |}.

Definition connection_refused : result reply := Raise (LibraryError "ConnectionError").

(** A service that answers the [n]-th request with the [n]-th reply of a
    script, each after [lat] seconds, on a host whose sleeps are exact. *)
Definition scripted (replies : list (result reply)) (lat : Q) : remote :=
  {| respond := fun n _ => nth n replies connection_refused;
     latency := fun _ => lat;
     oversleep := fun _ => 0%Q |}.

(** A service that gives the same answer to every request. *)
Definition steady (rp : result reply) (lat : Q) : remote :=
  {| respond := fun _ _ => rp;
     latency := fun _ => lat;
     oversleep := fun _ => 0%Q |}.

(** An answer with an HTTP status other than 200. *)
Definition unavailable : result reply :=
  Ok {| status_code := 503; body := Raise (LibraryError "JSONDecodeError") |}.

(** A stand-in for solders: a key is its own text, a transaction its own
    bytes, signing appends the signer's key. *)
Definition plain_solders : solders :=
  {| Keypair := string;
     VersionedTransaction := bytes;
     Message := bytes;
     from_base58_string := fun s =>
       match s with
       | EmptyString => Raise (ValueError "invalid base58 string")
       | _ => Ok s
       end;
     pubkey_str := fun k => ("pub:" ++ k)%string;
     from_bytes := fun b => Ok b;
     message := fun t => t;
     new_tx := fun m ks => Ok (m ++ flat_map list_ascii_of_string ks);
     to_bytes := fun t => t |}.

(** A stand-in for the AES block permutation: xor with the head of the key. *)
Definition xor_cipher : block_cipher :=
  {| encrypt_block := fun key b => xor_bytes b (firstn block_size key);
     decrypt_block := fun key b => xor_bytes b (firstn block_size key) |}.

Definition no_host : host :=
  {| read_file := fun _ => Raise (LibraryError "FileNotFoundError");
     getpass := fun _ => Ok EmptyString |}.

Definition alice : GMGNSolClient plain_solders :=
  @Build_GMGNSolClient plain_solders "k1"%string "k1"%string "pub:k1"%string.

Definition sample_args (fee_ : Q) (relay : bool) (sender : option string) : swap_args :=
  {| token_in_address := "So11111111111111111111111111111111111111112";
     token_out_address := "HeLp6NuQkmYB4pYWo2zYs22mESHXPQYzXbB8n4V98jwC";
     in_amount := "10000000";
     slippage := Fin 10;
     swap_mode := EXACT_IN;
     fee := Fin fee_;
     from_address := sender;
     is_anti_mev := relay;
     partner := None |}.

Definition sample_key : bytes := list_ascii_of_string "0123456789abcdef0123456789ABCDEF".
Definition sample_iv : bytes := list_ascii_of_string "fedcba9876543210".

Definition direct_script : list (result reply) :=
  [ envelope (JObj [("quote", JObj []);
                    ("raw_tx", JObj [("swapTransaction", JStr "TWFu");
                                     ("lastValidBlockHeight", JInt 1000)])]);
    envelope (JObj [("hash", JStr "H")]);
    envelope (JObj [("success", JBool false); ("failed", JBool false);
                    ("expired", JBool false)]);
    envelope (JObj [("success", JBool true); ("failed", JBool false);
                    ("expired", JBool false)]) ]%string.

Definition relay_script : list (result reply) :=
  [ envelope (JObj [("quote", JObj []);
                    ("raw_tx", JObj [("swapTransaction", JStr "TWFu");
                                     ("lastValidBlockHeight", JInt 1000)])]);
    envelope (JObj [("bundle_id", JStr "B"); ("last_valid_block_number", JInt 1001);
                    ("tx_hash", JStr "H")]);
    envelope (JObj [("success", JBool false); ("failed", JBool true);
                    ("expired", JBool false)]) ]%string.

Definition pending : json :=
  JObj [("success", JBool false); ("failed", JBool false); ("expired", JBool false);
        ("err", JNull); ("err_code", JStr "")]%string.

Definition succeeded : json :=
  JObj [("success", JBool true); ("failed", JBool false); ("expired", JBool false);
        ("err", JNull); ("err_code", JStr "")]%string.

Definition sample_quote : json :=
  JObj [("quote", JObj []);
        ("raw_tx", JObj [("swapTransaction", JStr "TWFu");
                         ("lastValidBlockHeight", JInt 1000)])]%string.

(* ================================================================== *)
(** ** Observations on the polling loop *)

(** The later world has the trace of the earlier one, and after it events
    that all satisfy [P]. *)
Definition steps_with (P : Q * event -> Prop) (w w' : world) : Prop :=
  exists new, trace w' = trace w ++ new /\ Forall P new.

(** What [wait_tx_status] may do while it waits for the transaction
    [hash]: ask for its status before the deadline, sleep for the interval,
    log an exception. *)
Definition poll_event (start_time : Q) (hash last_valid_height : json)
    (fetch_interval_seconds : Q) (timeout_seconds : pyfloat) (te : Q * event) : Prop :=
  (snd te = status_query hash last_valid_height /\
   float_lt (Fin (fst te - start_time)) timeout_seconds = true) \/
  snd te = SLEEP fetch_interval_seconds \/
  exists e, snd te = LOG_ERROR e.

(* ================================================================== *)
(** ** The open API: [get_klines] of [open_apis.py] *)

Inductive Network : Type :=
| SOLANA      (* 'sol' *)
| ETHEREUM.   (* 'eth' *)

Inductive Period : Type :=
| ONE_HOUR.   (* '1h' *)

Definition network_value (n : Network) : string :=
  match n with
  | SOLANA => "sol"
  | ETHEREUM => "eth"
  end.

Definition period_value (p : Period) : string :=
  match p with
  | ONE_HOUR => "1h"
  end.

Definition base_url : string := "https://www.gmgn.cc".

(** [f'{n}'] for an [int]. *)
Definition int_str (z : Z) : string := NilZero.string_of_int (Z.to_int z).

(** The URL [get_klines] asks; the token is pasted in as it is. *)
Definition klines_url (network : Network) (token : string) (period : Period)
    (from_seconds to_seconds : Z) : string :=
  (base_url ++ "/defi/quotation/v1/tokens/kline/" ++ network_value network
   ++ "/" ++ token ++ "?resolution=" ++ period_value period
   ++ "&from=" ++ int_str from_seconds ++ "&to=" ++ int_str to_seconds)%string.

(** The exceptions of [get_klines]: its own two, whose messages name no
    URL, and whatever a library or a subscript raises. *)
Inductive open_api_exn : Type :=
| OpenApiHttpError (status : Z)
    (* Exception(f'GMGN Open API Error: {status_code}') *)
| OpenApiCodeError (code msg : json)
    (* Exception(f'GMGN Open API Error: {code} - {data["msg"]}') *)
| Propagated (e : exn).

Definition get_klines (R : remote) (network : Network) (token : string)
    (period : Period) (from_seconds to_seconds : Z) (w : world)
  : (json + open_api_exn) * world :=
  let url := klines_url network token period from_seconds to_seconds in
  let w' := after_request R (GET url []) w in
  match respond R (requests_sent w) (GET url []) with
  | Raise e => (inr (Propagated e), w')
  | Ok resp =>
    if negb (status_code resp =? 200)%Z
    then (inr (OpenApiHttpError (status_code resp)), w')
    else
      match body resp with
      | Raise e => (inr (Propagated e), w')
      | Ok data =>
        match dict_getitem data "code" with
        | Raise e => (inr (Propagated e), w')
        | Ok code =>
          if ne_zero code
          then match dict_getitem data "msg" with
               | Ok msg => (inr (OpenApiCodeError code msg), w')
               | Raise e => (inr (Propagated e), w')
               end
          else match dict_getitem data "data" with
               | Ok klines => (inl klines, w')
               | Raise e => (inr (Propagated e), w')
               end
        end
      end
  end.

(* ================================================================== *)
(** ** More example instances *)

(** An envelope whose code is not zero. *)
Definition refusal : result reply :=
  Ok {| status_code := 200;
        body := Ok [("code", JInt 40001); ("msg", JStr "invalid argument")]%string |}.

(** The task is cancelled while the request is awaited. *)
Definition cancelled : result reply := Raise (Interrupt "CancelledError").

(** Base58 as Solana writes keys and addresses: the digits of the number
    the bytes spell, most significant first, in the alphabet without
    [0], [O], [I] and [l]; every leading zero byte is a leading [1]. *)
Definition base58_alphabet : string :=
  "123456789ABCDEFGHJKLMNPQRSTUVWXYZabcdefghijkmnopqrstuvwxyz".

Fixpoint b58_index (c : ascii) (alphabet : string) : option N :=
  match alphabet with
  | EmptyString => None
  | String a rest =>
    if Ascii.eqb c a then Some 0%N
    else match b58_index c rest with
         | Some i => Some (i + 1)%N
         | None => None
         end
  end.

Fixpoint b58_value (s : string) (acc : N) : option N :=
  match s with
  | EmptyString => Some acc
  | String c rest =>
    match b58_index c base58_alphabet with
    | Some d => b58_value rest (acc * 58 + d)%N
    | None => None
    end
  end.

Fixpoint leading (c : ascii) (l : list ascii) : nat :=
  match l with
  | x :: rest => if Ascii.eqb x c then S (leading c rest) else 0
  | [] => 0
  end.

(** The digits of [n] in base [base], most significant first, written with
    [digit]; [fuel] bounds their number. *)
Fixpoint digits_of (base : N) (digit : N -> ascii) (fuel : nat) (n : N)
    (acc : list ascii) : list ascii :=
  match fuel with
  | O => acc
  | S fuel' =>
    if (n =? 0)%N then acc
    else digits_of base digit fuel' (n / base)%N (digit (n mod base)%N :: acc)
  end.

Definition b58decode (s : string) : option bytes :=
  match b58_value s 0%N with
  | Some n =>
    Some (repeat (chr 0) (leading "1" (list_ascii_of_string s))
          ++ digits_of 256 chr (String.length s) n [])
  | None => None
  end.

Definition b58encode (b : bytes) : string :=
  let n := fold_left (fun acc c => (acc * 256 + ord c)%N) b 0%N in
  string_of_list_ascii
    (repeat "1"%char (leading (chr 0) b)
     ++ digits_of 58 (fun d => nth (N.to_nat d) (list_ascii_of_string base58_alphabet)
                                   "1"%char)
                  (2 * List.length b) n []).

(** A stand-in for solders that reads a key the way solders does: a keypair
    is the 64 bytes its base58 text spells, the 32 bytes of the secret seed
    followed by the 32 bytes of the public key, and the address is the
    base58 text of the public key.  Text that is not base58, or does not
    spell 64 bytes, is refused.  (That the public key is the one of the
    seed is a matter of Ed25519 and is not checked here; it holds of the
    example key below.) *)
Definition base58_solders : solders :=
  {| Keypair := bytes;
     VersionedTransaction := bytes;
     Message := bytes;
     from_base58_string := fun s =>
       match b58decode s with
       | Some b =>
         if (List.length b =? 64)%nat then Ok b
         else Raise (ValueError "a keypair is 64 bytes long")
       | None => Raise (ValueError "invalid base58 string")
       end;
     pubkey_str := fun k => b58encode (skipn 32 k);
     from_bytes := fun b => Ok b;
     message := fun t => t;
     new_tx := fun m ks => Ok (m ++ flat_map (skipn 32) ks);
     to_bytes := fun t => t |}.

(** The key pair of RFC 8032, section 7.1, test 1: the seed [9d61b19d...7f60]
    and its public key [d75a9801...511a]. *)
Definition rfc8032_keypair : bytes :=
  map ascii_of_nat
    [157; 97; 177; 157; 239; 253; 90; 96; 186; 132; 74; 244; 146; 236; 44; 196;
     68; 73; 197; 105; 123; 50; 105; 25; 112; 59; 172; 3; 28; 174; 127; 96;
     215; 90; 152; 1; 130; 177; 10; 183; 213; 75; 254; 211; 201; 100; 7; 58;
     14; 225; 114; 243; 218; 166; 35; 37; 175; 2; 26; 104; 247; 7; 81; 26].

(** That key pair as a wallet exports it, and its address. *)
Definition rfc8032_secret : string :=
  "49W385L4rePHy6PAaQUovbD2aacgN4HsKXSMeUzRg4fmwXszN91JuMFrQRj3vMDpZuRF3ZknQBuRBoWQJEfXstMw".

Definition rfc8032_address : string := "FVen3X669xLzsi6N2V91DoiyzHzg1uAgqiT8jZ9nS96Z".

(** The client built from that secret. *)
Definition bob : GMGNSolClient base58_solders :=
  @Build_GMGNSolClient base58_solders rfc8032_secret rfc8032_keypair rfc8032_address.

(** A status with a false [success] flag and nothing else. *)
Definition half_status : json := JObj [("success", JBool false)]%string.

(** A status whose only true flag is [expired], and one that has no
    [expired] flag. *)
Definition lapsed : json :=
  JObj [("success", JBool false); ("failed", JBool false); ("expired", JBool true)]%string.

Definition two_flags : json :=
  JObj [("success", JBool false); ("failed", JBool false)]%string.

(** A quote without [lastValidBlockHeight]. *)
Definition quote_without_height : json :=
  JObj [("quote", JObj []);
        ("raw_tx", JObj [("swapTransaction", JStr "TWFu")])]%string.

(** A host with one wallet file, and a prompt at which a short key is
    typed. *)
Definition wallet_host : host :=
  {| read_file := fun path =>
       if String.eqb path "wallet" then Ok (String (ascii_of_nat 32) "k1"
                                              ++ String (ascii_of_nat 10) "")%string
       else Raise (LibraryError "FileNotFoundError");
     getpass := fun _ => Ok "tooshort"%string |}.

(** The same files, another prompt. *)
Definition silent_host : host :=
  {| read_file := read_file wallet_host;
     getpass := fun _ => Raise (LibraryError "EOFError") |}.

(* ================================================================== *)
(** ** Traces of the gateway and of the methods *)

Ltac destruct_match :=
  match goal with
  | |- context [match ?x with _ => _ end] =>
    lazymatch x with
    | context [match _ with _ => _ end] => fail
    | _ => destruct x eqn:?
    end
  end.

Ltac run := repeat (simpl; try destruct_match); simpl; try reflexivity.

Lemma posts_to_app url a b : posts_to url (a ++ b) = posts_to url a + posts_to url b.
Proof. unfold posts_to. rewrite filter_app, length_app. reflexivity. Qed.

Lemma no_post_posts_to url tr : no_post tr -> posts_to url tr = 0.
Proof.
  unfold no_post, posts_to. induction 1 as [|te tr H _ IH]; [reflexivity|].
  simpl. unfold is_post_to at 1. destruct (snd te); try contradiction; exact IH.
Qed.

Lemma no_post_app a b : no_post a -> no_post b -> no_post (a ++ b).
Proof. unfold no_post. intros. apply Forall_app. split; assumption. Qed.

Lemma no_post_nil : no_post [].
Proof. constructor. Qed.

Lemma no_post_one t ev :
  match ev with POST _ _ => False | _ => True end -> no_post [(t, ev)].
Proof. intro H. constructor; [exact H | constructor]. Qed.

Section Gateway.
Variable R : remote.

Lemma get_world path kw w :
  snd (get R path kw w) = after_request R (GET (url_of path) kw) w.
Proof. unfold get, bind, request, raise, lift. run. Qed.

Lemma post_world path b w :
  snd (post R path b w) = after_request R (POST (url_of path) b) w.
Proof. unfold post, bind, request, raise, lift. run. Qed.
End Gateway.

Lemma Qltb_lt x y : Qltb x y = true <-> (x < y)%Q.
Proof.
  unfold Qltb. rewrite negb_true_iff. split; intro H.
  - apply Qnot_le_lt. intro Hle. apply Qle_bool_iff in Hle. congruence.
  - destruct (Qle_bool y x) eqn:E; [|reflexivity].
    apply Qle_bool_iff in E. apply Qle_not_lt in E. contradiction.
Qed.

Lemma Qltb_ge x y : Qltb x y = false <-> (y <= x)%Q.
Proof.
  unfold Qltb. rewrite negb_false_iff. apply Qle_bool_iff.
Qed.

Lemma float_lt_mono a b t :
  (b <= a)%Q -> float_lt (Fin a) t = true -> float_lt (Fin b) t = true.
Proof.
  intros Hle. destruct t as [q| | |]; simpl; try easy.
  rewrite !Qltb_lt. intro. eapply Qle_lt_trans; eassumption.
Qed.

Lemma delay_nonneg i : (0 <= delay i)%Q.
Proof.
  unfold delay. destruct (Qltb 0 i) eqn:E.
  - apply Qltb_lt in E. apply Qlt_le_weak. exact E.
  - apply Qle_refl.
Qed.

Section Poller.
Variable R : remote.
Variables hash last_valid_height : json.
Variable fetch_interval_seconds : Q.
Variable timeout_seconds : pyfloat.

Lemma poll_once_world w :
  snd (poll_once R hash last_valid_height w) = after_request R (status_query hash last_valid_height) w.
Proof.
  unfold poll_once, get_tx_status, get, bind, request, raise, lift, ret. run.
Qed.

Lemma poll_once_result w :
  fst (poll_once R hash last_valid_height w)
  = Some (attempt R hash last_valid_height (requests_sent w)).
Proof.
  unfold attempt, poll_once, get_tx_status, get, bind, request, raise, lift, ret.
  simpl. run.
Qed.

Lemma poll_once_run w :
  poll_once R hash last_valid_height w
  = (Some (attempt R hash last_valid_height (requests_sent w)),
     after_request R (status_query hash last_valid_height) w).
Proof.
  rewrite (surjective_pairing (poll_once R hash last_valid_height w)).
  rewrite poll_once_result, poll_once_world. reflexivity.
Qed.

(** One turn of the loop. *)
Lemma wait_loop_step fuel start_time w :
  wait_loop R (S fuel) start_time hash last_valid_height
            fetch_interval_seconds timeout_seconds w
  = if float_lt (Fin (elapsed start_time w)) timeout_seconds then
      match attempt R hash last_valid_height (requests_sent w) with
      | Ok (Some status) => (Some (Ok status), after_request R (status_query hash last_valid_height) w)
      | Ok None =>
        wait_loop R fuel start_time hash last_valid_height
                  fetch_interval_seconds timeout_seconds
                  (after_sleep R fetch_interval_seconds (after_request R (status_query hash last_valid_height) w))
      | Raise e =>
        if is_exception e then
          wait_loop R fuel start_time hash last_valid_height
                    fetch_interval_seconds timeout_seconds
                    (after_sleep R fetch_interval_seconds
                       (after_log e (after_request R (status_query hash last_valid_height) w)))
        else (Some (Raise e), after_request R (status_query hash last_valid_height) w)
      end
    else (Some (Raise (StatusNotFound hash timeout_seconds)), w).
Proof.
  cbn [wait_loop]. unfold bind at 1. unfold time_time at 1. cbn beta iota.
  unfold elapsed.
  destruct (float_lt (Fin (clock w - start_time)) timeout_seconds); [|reflexivity].
  unfold bind at 1. unfold try. rewrite poll_once_run.
  destruct (attempt R hash last_valid_height (requests_sent w)) as [[status|]|e];
    try reflexivity.
  destruct (is_exception e); reflexivity.
Qed.

Lemma wait_loop_turn fuel start_time w :
  float_lt (Fin (elapsed start_time w)) timeout_seconds = true ->
  goes_on (attempt R hash last_valid_height (requests_sent w)) ->
  wait_loop R (S fuel) start_time hash last_valid_height
            fetch_interval_seconds timeout_seconds w
  = wait_loop R fuel start_time hash last_valid_height
              fetch_interval_seconds timeout_seconds
              (after_turn R hash last_valid_height fetch_interval_seconds w).
Proof.
  intros Ht Hg. rewrite wait_loop_step, Ht. unfold after_turn.
  destruct (attempt R hash last_valid_height (requests_sent w)) as [[status|]|e];
    [contradiction | reflexivity | ].
  simpl in Hg. rewrite Hg. reflexivity.
Qed.

Lemma wait_loop_return fuel start_time w status :
  float_lt (Fin (elapsed start_time w)) timeout_seconds = true ->
  attempt R hash last_valid_height (requests_sent w) = Ok (Some status) ->
  wait_loop R (S fuel) start_time hash last_valid_height
            fetch_interval_seconds timeout_seconds w
  = (Some (Ok status), after_request R (status_query hash last_valid_height) w).
Proof. intros Ht Ha. rewrite wait_loop_step, Ht, Ha. reflexivity. Qed.

Lemma wait_loop_deadline fuel start_time w :
  float_lt (Fin (elapsed start_time w)) timeout_seconds = false ->
  wait_loop R (S fuel) start_time hash last_valid_height
            fetch_interval_seconds timeout_seconds w
  = (Some (Raise (StatusNotFound hash timeout_seconds)), w).
Proof. intros Ht. rewrite wait_loop_step, Ht. reflexivity. Qed.

Lemma requests_sent_after_turn w :
  requests_sent (after_turn R hash last_valid_height fetch_interval_seconds w)
  = S (requests_sent w).
Proof.
  unfold after_turn.
  destruct (attempt R hash last_valid_height (requests_sent w)) as [[status|]|e];
    try reflexivity.
  destruct (is_exception e); reflexivity.
Qed.

Lemma requests_sent_after_turns k : forall w,
  requests_sent (after_turns R hash last_valid_height fetch_interval_seconds k w)
  = requests_sent w + k.
Proof.
  induction k as [|k IH]; intros w; simpl.
  - lia.
  - rewrite IH, requests_sent_after_turn. lia.
Qed.

Lemma clock_after_turn w :
  goes_on (attempt R hash last_valid_height (requests_sent w)) ->
  clock (after_turn R hash last_valid_height fetch_interval_seconds w)
  = (clock w + latency R (requests_sent w) + delay fetch_interval_seconds
     + oversleep R (sleeps_done w))%Q.
Proof.
  unfold after_turn.
  destruct (attempt R hash last_valid_height (requests_sent w)) as [[status|]|e];
    [contradiction | reflexivity | ].
  simpl. intros ->. reflexivity.
Qed.

Lemma sleeps_done_after_turn w :
  goes_on (attempt R hash last_valid_height (requests_sent w)) ->
  sleeps_done (after_turn R hash last_valid_height fetch_interval_seconds w)
  = S (sleeps_done w).
Proof.
  unfold after_turn.
  destruct (attempt R hash last_valid_height (requests_sent w)) as [[status|]|e];
    [contradiction | reflexivity | ].
  simpl. intros ->. reflexivity.
Qed.

Lemma clock_after_turn_le w :
  sane_timing R ->
  (clock w <= clock (after_turn R hash last_valid_height fetch_interval_seconds w))%Q.
Proof.
  intros Hs. unfold after_turn.
  pose proof (proj1 (Hs (requests_sent w))) as Hl.
  pose proof (proj2 (Hs (sleeps_done w))) as Ho.
  pose proof (delay_nonneg fetch_interval_seconds) as Hd.
  destruct (attempt R hash last_valid_height (requests_sent w)) as [[status|]|e];
    try destruct (is_exception e); simpl; lra.
Qed.

Lemma clock_after_turns_le k : forall w,
  sane_timing R ->
  (clock w <= clock (after_turns R hash last_valid_height fetch_interval_seconds k w))%Q.
Proof.
  induction k as [|k IH]; intros w Hs; simpl.
  - apply Qle_refl.
  - eapply Qle_trans; [apply clock_after_turn_le; exact Hs | apply IH; exact Hs].
Qed.

(** [k] turns that do not return, the last of them begun before the
    deadline, are [k] turns of the loop. *)
Lemma wait_loop_turns k : forall fuel start_time w,
  sane_timing R ->
  (forall j, j < k ->
     goes_on (attempt R hash last_valid_height (requests_sent w + j))) ->
  (forall k', k = S k' ->
     float_lt (Fin (elapsed start_time
        (after_turns R hash last_valid_height fetch_interval_seconds k' w)))
        timeout_seconds = true) ->
  wait_loop R (k + fuel) start_time hash last_valid_height
            fetch_interval_seconds timeout_seconds w
  = wait_loop R fuel start_time hash last_valid_height
              fetch_interval_seconds timeout_seconds
              (after_turns R hash last_valid_height fetch_interval_seconds k w).
Proof.
  induction k as [|k IH]; intros fuel start_time w Hs Hgo Ht; [reflexivity|].
  change (S k + fuel) with (S (k + fuel)).
  rewrite wait_loop_turn.
  - simpl. apply IH; [exact Hs | |].
    + intros j Hj. rewrite requests_sent_after_turn.
      replace (S (requests_sent w) + j) with (requests_sent w + S j) by lia.
      apply Hgo. lia.
    + intros k' ->. apply (Ht (S k')). reflexivity.
  - eapply float_lt_mono; [|apply (Ht k eq_refl)].
    unfold elapsed.
    pose proof (clock_after_turns_le k w Hs). lra.
  - replace (requests_sent w) with (requests_sent w + 0) by lia. apply Hgo. lia.
Qed.

Lemma attempt_delivers n status :
  delivers (respond R n (status_query hash last_valid_height)) status ->
  attempt R hash last_valid_height n
  = rbind (is_terminal status) (fun t => Ok (if t then Some status else None)).
Proof.
  intros (r & d & c & Hr & Hc & Hb & Hcode & Hz & Hd).
  unfold attempt, poll_once, get_tx_status, get, bind, request, raise, lift, ret.
  cbn [fst requests_sent at_request].
  unfold status_query, status_url in Hr. rewrite Hr.
  rewrite Hc. cbn [Z.eqb Pos.eqb negb]. rewrite Hb.
  unfold dict_getitem. rewrite Hcode, Hz, Hd.
  destruct (is_terminal status) as [[|]|e]; reflexivity.
Qed.

Lemma attempt_pending n status :
  delivers (respond R n (status_query hash last_valid_height)) status -> is_terminal status = Ok false ->
  attempt R hash last_valid_height n = Ok None.
Proof. intros Hd Ht. erewrite attempt_delivers by exact Hd. rewrite Ht. reflexivity. Qed.

Lemma attempt_terminal n status :
  delivers (respond R n (status_query hash last_valid_height)) status -> is_terminal status = Ok true ->
  attempt R hash last_valid_height n = Ok (Some status).
Proof. intros Hd Ht. erewrite attempt_delivers by exact Hd. rewrite Ht. reflexivity. Qed.

(** Whatever a turn returns has passed the test of the [if]. *)
Lemma attempt_returns_terminal n status :
  attempt R hash last_valid_height n = Ok (Some status) ->
  is_terminal status = Ok true.
Proof.
  unfold attempt, poll_once, bind, lift, ret.
  destruct (get_tx_status R hash last_valid_height (at_request n)) as [[[st|e]|] w1];
    cbn [fst]; try discriminate.
  destruct (is_terminal st) as [[|]|e] eqn:Et; cbn [fst]; try discriminate.
  intros H. injection H as <-. exact Et.
Qed.
End Poller.

Lemma after_turns_succ_r R hash lvh interval k : forall w,
  after_turns R hash lvh interval (S k) w
  = after_turn R hash lvh interval (after_turns R hash lvh interval k w).
Proof.
  induction k as [|k IH]; intros w; [reflexivity|].
  change (after_turns R hash lvh interval (S (S k)) w)
    with (after_turns R hash lvh interval (S k) (after_turn R hash lvh interval w)).
  rewrite IH. reflexivity.
Qed.

Lemma wait_loop_returns_terminal R hash lvh interval timeout fuel :
  forall start_time w status w',
    wait_loop R fuel start_time hash lvh interval timeout w = (Some (Ok status), w') ->
    is_terminal status = Ok true.
Proof.
  induction fuel as [|fuel IH]; intros start_time w status w' H.
  - discriminate H.
  - rewrite wait_loop_step in H.
    destruct (float_lt (Fin (elapsed start_time w)) timeout); [|discriminate H].
    destruct (attempt R hash lvh (requests_sent w)) as [[st|]|e] eqn:Ea.
    + injection H as <- _. eapply attempt_returns_terminal. exact Ea.
    + eapply IH. exact H.
    + destruct (is_exception e); [eapply IH; exact H | discriminate H].
Qed.

Lemma is_terminal_flag status :
  is_terminal status = Ok true ->
  exists key v, In key flags /\ getitem status key = Ok v /\ truthy v = true.
Proof.
  unfold is_terminal, rbind, flags.
  destruct (getitem status "success") as [s|] eqn:Es; [|discriminate].
  destruct (truthy s) eqn:Ts.
  { intros _. exists "success"%string, s. simpl. auto. }
  destruct (getitem status "failed") as [f|] eqn:Ef; [|discriminate].
  destruct (truthy f) eqn:Tf.
  { intros _. exists "failed"%string, f. simpl. auto. }
  destruct (getitem status "expired") as [x|] eqn:Ex; [|discriminate].
  intros H. injection H as H. exists "expired"%string, x. simpl. auto.
Qed.

(** C10.  Every status [wait_tx_status] returns (rather than raises) has
    passed the test of the loop: one of its [success], [failed], [expired]
    entries is truthy; when the three are booleans, as [TxStatusResponse]
    declares them, one of them is [True]. *)
Theorem wait_tx_status_returns_only_terminal :
  forall (R : remote) (fuel : nat) (hash last_valid_height : json)
         (fetch_interval_seconds : Q) (timeout_seconds : pyfloat)
         (w w' : world) (status : json),
    wait_tx_status R fuel hash last_valid_height
                   fetch_interval_seconds timeout_seconds w
    = (Some (Ok status), w') ->
    is_terminal status = Ok true /\
    (exists key v, In key flags /\ getitem status key = Ok v /\ truthy v = true) /\
    ((forall key, In key flags -> exists b, getitem status key = Ok (JBool b)) ->
     exists key, In key flags /\ getitem status key = Ok (JBool true)).
Proof.
  intros R fuel hash lvh interval timeout w w' status H.
  unfold wait_tx_status, bind, time_time in H.
  apply wait_loop_returns_terminal in H.
  split; [exact H|]. destruct (is_terminal_flag _ H) as (key & v & Hin & Hg & Hv).
  split.
  - exists key, v. auto.
  - intros Hb. exists key. split; [exact Hin|].
    destruct (Hb key Hin) as [b Hgb]. rewrite Hg in Hgb. injection Hgb as ->.
    simpl in Hv. subst b. exact Hg.
Qed.

Lemma wait_tx_status_unfold R fuel hash lvh interval timeout w :
  wait_tx_status R fuel hash lvh interval timeout w
  = wait_loop R fuel (clock w) hash lvh interval timeout w.
Proof. reflexivity. Qed.

Lemma trace_after_request R ev w :
  map snd (trace (after_request R ev w)) = map snd (trace w) ++ [ev].
Proof. simpl. unfold record_event. rewrite map_app. reflexivity. Qed.

Lemma trace_after_sleep R s w :
  map snd (trace (after_sleep R s w)) = map snd (trace w) ++ [SLEEP s].
Proof. simpl. unfold record_event. rewrite map_app. reflexivity. Qed.

Lemma trace_after_log e w :
  map snd (trace (after_log e w)) = map snd (trace w) ++ [LOG_ERROR e].
Proof. simpl. unfold record_event. rewrite map_app. reflexivity. Qed.

Lemma after_turn_pending R hash lvh interval w :
  attempt R hash lvh (requests_sent w) = Ok None ->
  after_turn R hash lvh interval w
  = after_sleep R interval (after_request R (status_query hash lvh) w).
Proof. unfold after_turn. intros ->. reflexivity. Qed.

Lemma after_turn_raise R hash lvh interval w e :
  attempt R hash lvh (requests_sent w) = Raise e ->
  is_exception e = true ->
  after_turn R hash lvh interval w
  = after_sleep R interval (after_log e (after_request R (status_query hash lvh) w)).
Proof. unfold after_turn. intros -> ->. reflexivity. Qed.

Lemma after_turns_add R hash lvh interval a b : forall w,
  after_turns R hash lvh interval (a + b) w
  = after_turns R hash lvh interval b (after_turns R hash lvh interval a w).
Proof.
  induction a as [|a IH]; intros w; [reflexivity|].
  change (S a + b) with (S (a + b)). cbn [after_turns]. apply IH.
Qed.

(** Turns only add to the trace, and no turns add nothing. *)
Lemma trace_after_turns R hash lvh interval k : forall w,
  exists new,
    map snd (trace (after_turns R hash lvh interval k w)) = map snd (trace w) ++ new /\
    (k = 0 -> new = []).
Proof.
  induction k as [|k IH]; intros w.
  - exists []. rewrite app_nil_r. split; reflexivity.
  - cbn [after_turns].
    destruct (IH (after_turn R hash lvh interval w)) as (new & Hnew & _).
    assert (Hone : exists one,
               map snd (trace (after_turn R hash lvh interval w))
               = map snd (trace w) ++ one).
    { unfold after_turn.
      destruct (attempt R hash lvh (requests_sent w)) as [[st|]|e];
        [| |destruct (is_exception e)];
        rewrite ?trace_after_sleep, ?trace_after_log, ?trace_after_request,
          <- ?app_assoc; eexists; reflexivity. }
    destruct Hone as (one & Hone).
    exists (one ++ new). rewrite Hnew, Hone, app_assoc.
    split; [reflexivity | discriminate].
Qed.

(** C2.  [wait_tx_status] returns on the first terminal status it sees:
    when the service answers the next three status queries with pending,
    pending and a status whose [success] flag is true, and the third test of
    the loop still falls before the deadline, the call sends exactly three
    status queries (with a sleep after each of the first two and nothing
    after the third) and returns that third status, whose [success] flag is
    true. *)
Theorem wait_tx_status_third_status_wins :
  forall (R : remote) (hash last_valid_height : json)
         (fetch_interval_seconds : Q) (timeout_seconds : pyfloat)
         (w : world) (fuel : nat) (p1 p2 s : json),
    let query := status_query hash last_valid_height in
    let n := requests_sent w in
    let k := sleeps_done w in
    sane_timing R ->
    delivers (respond R n query) p1 -> is_terminal p1 = Ok false ->
    delivers (respond R (n + 1) query) p2 -> is_terminal p2 = Ok false ->
    delivers (respond R (n + 2) query) s ->
    getitem s "success" = Ok (JBool true) ->
    float_lt (Fin (latency R n + delay fetch_interval_seconds + oversleep R k
                   + (latency R (n + 1) + delay fetch_interval_seconds
                      + oversleep R (k + 1))))
             timeout_seconds = true ->
    3 <= fuel ->
    exists status w',
      wait_tx_status R fuel hash last_valid_height
                     fetch_interval_seconds timeout_seconds w
      = (Some (Ok status), w') /\
      status = s /\
      getitem status "success" = Ok (JBool true) /\
      requests_sent w' = n + 3 /\
      map snd (trace w')
      = map snd (trace w)
          ++ [query; SLEEP fetch_interval_seconds;
              query; SLEEP fetch_interval_seconds; query].
Proof.
  intros R hash lvh interval timeout w fuel p1 p2 s query n k
         Hs Hd1 Hp1 Hd2 Hp2 Hd3 Hsucc Ht Hfuel.
  assert (Ha1 : attempt R hash lvh (requests_sent w) = Ok None)
    by (eapply attempt_pending; eassumption).
  assert (Ha2 : attempt R hash lvh (requests_sent w + 1) = Ok None)
    by (eapply attempt_pending; eassumption).
  assert (Ha3 : attempt R hash lvh (requests_sent w + 2) = Ok (Some s)).
  { eapply attempt_terminal; [eassumption|].
    unfold is_terminal, rbind. rewrite Hsucc. reflexivity. }
  set (w1 := after_turn R hash lvh interval w).
  set (w2 := after_turns R hash lvh interval 2 w).
  assert (Hr1 : requests_sent w1 = requests_sent w + 1)
    by (unfold w1; rewrite requests_sent_after_turn; lia).
  assert (Hw1 : w1 = after_sleep R interval (after_request R query w))
    by (apply after_turn_pending; exact Ha1).
  assert (Hw2 : w2 = after_sleep R interval (after_request R query w1)).
  { unfold w2. simpl. fold w1. apply after_turn_pending. rewrite Hr1. exact Ha2. }
  assert (Hr2 : requests_sent w2 = requests_sent w + 2)
    by (unfold w2; apply requests_sent_after_turns).
  assert (Hc2 : (elapsed (clock w) w2
                 == latency R n + delay interval + oversleep R k
                    + (latency R (n + 1) + delay interval + oversleep R (k + 1)))%Q).
  { unfold elapsed. rewrite Hw2. cbn [clock after_sleep after_request sleeps_done].
    rewrite Hr1, Hw1. cbn [clock after_sleep after_request sleeps_done].
    fold n k. replace (S k) with (k + 1) by lia. ring. }
  exists s, (after_request R query w2).
  split; [|split; [reflexivity|split; [exact Hsucc|split]]].
  - rewrite wait_tx_status_unfold.
    destruct fuel as [|[|[|fuel]]]; try lia.
    change (S (S (S fuel))) with (2 + S fuel).
    rewrite wait_loop_turns.
    + fold w2. apply wait_loop_return.
      * eapply float_lt_mono; [|exact Ht]. rewrite Hc2. apply Qle_refl.
      * fold w2. rewrite Hr2. exact Ha3.
    + exact Hs.
    + intros j Hj. destruct j as [|[|j]]; try lia.
      * rewrite Nat.add_0_r, Ha1. exact I.
      * rewrite Ha2. exact I.
    + intros k' Hk'. injection Hk' as <-.
      eapply float_lt_mono; [|exact Ht].
      rewrite <- Hc2. unfold elapsed, w2. simpl. fold w1.
      pose proof (clock_after_turn_le hash lvh interval w1 Hs). lra.
  - cbn [requests_sent after_request]. rewrite Hr2. fold n. lia.
  - rewrite trace_after_request, Hw2, trace_after_sleep, trace_after_request,
      Hw1, trace_after_sleep, trace_after_request.
    rewrite <- !app_assoc. reflexivity.
Qed.

(** C4.  An exception raised by the status query of one turn of the loop
    (an [Exception], which is what the [except] clause catches; after any
    number of turns that did not return) is logged and not propagated; the
    loop sleeps and goes on, through any number of further turns, and when
    a later query delivers a terminal status before the deadline,
    [wait_tx_status] returns that status normally.  The trace shows the
    failed query, its log entry and the sleep, then what the turns in
    between did (nothing when the terminal status comes with the very next
    query), then the query that is answered with the status returned. *)
Theorem wait_tx_status_survives_query_error :
  forall (R : remote) (hash last_valid_height : json)
         (fetch_interval_seconds : Q) (timeout_seconds : pyfloat)
         (w : world) (fuel k m : nat) (e : exn) (status : json),
    let query := status_query hash last_valid_height in
    let n := requests_sent w in
    sane_timing R ->
    k < m ->
    (forall j, j < m -> goes_on (attempt R hash last_valid_height (n + j))) ->
    attempt R hash last_valid_height (n + k) = Raise e ->
    delivers (respond R (n + m) query) status ->
    is_terminal status = Ok true ->
    float_lt (Fin (elapsed (clock w)
                     (after_turns R hash last_valid_height
                                  fetch_interval_seconds m w)))
             timeout_seconds = true ->
    m + 1 <= fuel ->
    exists w' before between,
      wait_tx_status R fuel hash last_valid_height
                     fetch_interval_seconds timeout_seconds w
      = (Some (Ok status), w') /\
      requests_sent w' = n + m + 1 /\
      map snd (trace w')
      = before ++ [query; LOG_ERROR e; SLEEP fetch_interval_seconds]
               ++ between ++ [query] /\
      (m = k + 1 -> between = []).
Proof.
  intros R hash lvh interval timeout w fuel k m e status query n
         Hs Hkm Hgo He Hd Hterm Ht Hfuel.
  set (wk := after_turns R hash lvh interval k w).
  set (wk1 := after_turns R hash lvh interval (k + 1) w).
  set (wm := after_turns R hash lvh interval m w).
  assert (Hexc : is_exception e = true).
  { pose proof (Hgo k Hkm) as Hg. rewrite He in Hg. exact Hg. }
  assert (Hrk : requests_sent wk = n + k) by apply requests_sent_after_turns.
  assert (Hrm : requests_sent wm = n + m) by apply requests_sent_after_turns.
  assert (Hwk1 : wk1 = after_sleep R interval (after_log e (after_request R query wk))).
  { unfold wk1. replace (k + 1) with (S k) by lia. rewrite after_turns_succ_r.
    fold wk. apply after_turn_raise; [rewrite Hrk; exact He | exact Hexc]. }
  assert (Hwm : wm = after_turns R hash lvh interval (m - (k + 1)) wk1).
  { unfold wm, wk1. rewrite <- after_turns_add. f_equal. lia. }
  destruct (trace_after_turns R hash lvh interval (m - (k + 1)) wk1)
    as (between & Hbetween & Hnone).
  rewrite <- Hwm in Hbetween.
  exists (after_request R query wm), (map snd (trace wk)), between.
  split; [|split; [|split]].
  - rewrite wait_tx_status_unfold.
    replace fuel with (m + S (fuel - (m + 1))) by lia.
    rewrite wait_loop_turns.
    + fold wm. apply wait_loop_return; [exact Ht|].
      fold wm. rewrite Hrm.
      eapply attempt_terminal; [exact Hd | exact Hterm].
    + exact Hs.
    + exact Hgo.
    + intros k' Hk'.
      eapply float_lt_mono; [|exact Ht].
      unfold elapsed. fold wm. unfold wm. rewrite Hk', after_turns_succ_r.
      pose proof (clock_after_turn_le hash lvh interval
                    (after_turns R hash lvh interval k' w) Hs).
      lra.
  - cbn [requests_sent after_request]. rewrite Hrm. lia.
  - rewrite trace_after_request, Hbetween, Hwk1, trace_after_sleep, trace_after_log,
      trace_after_request.
    rewrite <- !app_assoc. reflexivity.
  - intros Hnext. apply Hnone. lia.
Qed.

Lemma float_lt_Fin_true a b : float_lt (Fin a) (Fin b) = true <-> (a < b)%Q.
Proof. apply Qltb_lt. Qed.

Lemma float_lt_Fin_false a b : float_lt (Fin a) (Fin b) = false <-> (b <= a)%Q.
Proof. apply Qltb_ge. Qed.

Lemma delay_positive i : (0 < i)%Q -> delay i = i.
Proof. intros H. unfold delay. apply Qltb_lt in H. rewrite H. reflexivity. Qed.

(** C3, as the code has it.  With [timeout_seconds = 1] and
    [fetch_interval_seconds = 0.4], and a service that answers every status
    query with an all-pending status, [wait_tx_status] raises the time-out
    exception, which carries the hash and the timeout; it does so after at
    least 1 and at most 3 queries, and after at least 2 exactly when the
    first query and the overshoot of the first sleep together take less
    than the 0.6 seconds the deadline leaves them; every turn of the loop
    starts while the elapsed time is below the timeout, and the loop is left
    only once the elapsed time has reached it. *)
Theorem wait_tx_status_times_out :
  forall (R : remote) (hash last_valid_height : json) (w : world) (fuel : nat),
    let query := status_query hash last_valid_height in
    let n := requests_sent w in
    let turns := after_turns R hash last_valid_height (4 # 10) in
    sane_timing R ->
    (forall m, exists status,
        delivers (respond R m query) status /\ is_terminal status = Ok false) ->
    4 <= fuel ->
    exists attempts w',
      wait_tx_status R fuel hash last_valid_height (4 # 10) (Fin 1) w
      = (Some (Raise (StatusNotFound hash (Fin 1))), w') /\
      w' = turns attempts w /\
      requests_sent w' = n + attempts /\
      1 <= attempts <= 3 /\
      (2 <= attempts <-> (latency R n + oversleep R (sleeps_done w) < 6 # 10)%Q) /\
      (1 <= elapsed (clock w) w')%Q /\
      (forall j, j < attempts -> (elapsed (clock w) (turns j w) < 1)%Q).
Proof.
  intros R hash lvh w fuel query n turns Hs Hpend Hfuel.
  subst n.
  assert (Ha : forall m, attempt R hash lvh m = Ok None).
  { intros m. destruct (Hpend m) as (st & Hd & Ht). eapply attempt_pending; eassumption. }
  assert (Hgo : forall m, goes_on (attempt R hash lvh m)) by (intros m; rewrite Ha; exact I).
  assert (Hd : delay (4 # 10) = (4 # 10)%Q) by reflexivity.
  set (w1 := after_turn R hash lvh (4 # 10) w).
  set (w2 := after_turn R hash lvh (4 # 10) w1).
  set (w3 := after_turn R hash lvh (4 # 10) w2).
  assert (Hc1 : (clock w1 == clock w + latency R (requests_sent w) + (4 # 10)
                             + oversleep R (sleeps_done w))%Q)
    by (unfold w1; rewrite clock_after_turn by apply Hgo; rewrite Hd; reflexivity).
  assert (Hc2 : (clock w2 == clock w1 + latency R (requests_sent w1) + (4 # 10)
                             + oversleep R (sleeps_done w1))%Q)
    by (unfold w2; rewrite clock_after_turn by apply Hgo; rewrite Hd; reflexivity).
  assert (Hc3 : (clock w3 == clock w2 + latency R (requests_sent w2) + (4 # 10)
                             + oversleep R (sleeps_done w2))%Q)
    by (unfold w3; rewrite clock_after_turn by apply Hgo; rewrite Hd; reflexivity).
  pose proof (proj1 (Hs (requests_sent w))) as Hl0.
  pose proof (proj2 (Hs (sleeps_done w))) as Ho0.
  pose proof (proj1 (Hs (requests_sent w1))) as Hl1.
  pose proof (proj2 (Hs (sleeps_done w1))) as Ho1.
  pose proof (proj1 (Hs (requests_sent w2))) as Hl2.
  pose proof (proj2 (Hs (sleeps_done w2))) as Ho2.
  assert (He0 : (elapsed (clock w) w < 1)%Q) by (unfold elapsed; lra).
  destruct (Qlt_le_dec (elapsed (clock w) w1) 1) as [He1|He1].
  - assert (Hfast : (latency R (requests_sent w) + oversleep R (sleeps_done w) < 6 # 10)%Q)
      by (unfold elapsed in He1; lra).
    destruct (Qlt_le_dec (elapsed (clock w) w2) 1) as [He2|He2].
    + (* the third turn starts in time, the fourth does not *)
      exists 3, w3.
      split; [|split; [reflexivity|split; [|split; [lia|split; [|split]]]]].
      * rewrite wait_tx_status_unfold.
        replace fuel with (3 + S (fuel - 4)) by lia.
        rewrite wait_loop_turns.
        -- apply wait_loop_deadline. apply float_lt_Fin_false.
           change (after_turns R hash lvh (4 # 10) 3 w) with w3.
           unfold elapsed in *. lra.
        -- exact Hs.
        -- intros j _. apply Hgo.
        -- intros k' Hk'. injection Hk' as <-. apply float_lt_Fin_true. exact He2.
      * apply (requests_sent_after_turns R hash lvh (4 # 10) 3 w).
      * split; [intros _; exact Hfast | lia].
      * change (turns 3 w) with w3. unfold elapsed in *. lra.
      * intros j Hj. destruct j as [|[|[|j]]]; try lia; assumption.
    + (* the third turn is already too late *)
      exists 2, w2.
      split; [|split; [reflexivity|split; [|split; [lia|split; [|split]]]]].
      * rewrite wait_tx_status_unfold.
        replace fuel with (2 + S (fuel - 3)) by lia.
        rewrite wait_loop_turns.
        -- apply wait_loop_deadline. apply float_lt_Fin_false. exact He2.
        -- exact Hs.
        -- intros j _. apply Hgo.
        -- intros k' Hk'. injection Hk' as <-. apply float_lt_Fin_true. exact He1.
      * apply (requests_sent_after_turns R hash lvh (4 # 10) 2 w).
      * split; [intros _; exact Hfast | lia].
      * exact He2.
      * intros j Hj. destruct j as [|[|j]]; try lia; assumption.
  - (* the second turn is already too late *)
    assert (Hslow : (6 # 10 <= latency R (requests_sent w) + oversleep R (sleeps_done w))%Q)
      by (unfold elapsed in He1; lra).
    exists 1, w1.
    split; [|split; [reflexivity|split; [|split; [lia|split; [|split]]]]].
    + rewrite wait_tx_status_unfold.
      replace fuel with (1 + S (fuel - 2)) by lia.
      rewrite wait_loop_turns.
      * apply wait_loop_deadline. apply float_lt_Fin_false. exact He1.
      * exact Hs.
      * intros j _. apply Hgo.
      * intros k' Hk'. injection Hk' as <-. apply float_lt_Fin_true. exact He0.
    + apply (requests_sent_after_turns R hash lvh (4 # 10) 1 w).
    + split; [lia | intros Hfast; exfalso; lra].
    + exact He1.
    + intros j Hj. destruct j as [|j]; try lia; assumption.
Qed.

Lemma quiet_refl w : quiet_step w w.
Proof. exists []. rewrite app_nil_r. split; [reflexivity | apply no_post_nil]. Qed.

Lemma quiet_trans w1 w2 w3 : quiet_step w1 w2 -> quiet_step w2 w3 -> quiet_step w1 w3.
Proof.
  intros (a & Ha & Hna) (b & Hb & Hnb). exists (a ++ b).
  rewrite Hb, Ha, app_assoc. split; [reflexivity | apply no_post_app; assumption].
Qed.

Lemma quiet_get R url kw w : quiet_step w (after_request R (GET url kw) w).
Proof. eexists. split; [reflexivity | apply no_post_one; exact I]. Qed.

Lemma quiet_sleep R s w : quiet_step w (after_sleep R s w).
Proof. eexists. split; [reflexivity | apply no_post_one; exact I]. Qed.

Lemma quiet_log e w : quiet_step w (after_log e w).
Proof. eexists. split; [reflexivity | apply no_post_one; exact I]. Qed.

Lemma quiet_wait_loop R hash lvh interval timeout fuel : forall start_time w,
  quiet_step w (snd (wait_loop R fuel start_time hash lvh interval timeout w)).
Proof.
  induction fuel as [|fuel IH]; intros start_time w.
  - apply quiet_refl.
  - rewrite wait_loop_step.
    destruct (float_lt (Fin (elapsed start_time w)) timeout); [|apply quiet_refl].
    destruct (attempt R hash lvh (requests_sent w)) as [[st|]|e].
    + apply quiet_get.
    + eapply quiet_trans; [|apply IH].
      eapply quiet_trans; [apply quiet_get | apply quiet_sleep].
    + destruct (is_exception e); [|apply quiet_get].
      eapply quiet_trans; [|apply IH].
      eapply quiet_trans; [apply quiet_get |].
      eapply quiet_trans; [apply quiet_log | apply quiet_sleep].
Qed.

Lemma quiet_wait_tx_status R hash lvh interval timeout fuel w :
  quiet_step w (snd (wait_tx_status R fuel hash lvh interval timeout w)).
Proof. rewrite wait_tx_status_unfold. apply quiet_wait_loop. Qed.

Lemma events_since_app w w' new :
  trace w' = trace w ++ new -> events_since w w' = new.
Proof.
  intros H. unfold events_since. rewrite H.
  rewrite skipn_app, skipn_all, Nat.sub_diag. reflexivity.
Qed.

Section Swap.
Variable R : remote.
Variable S : solders.
Variable self : GMGNSolClient S.

Lemma get_swap_route_world a w :
  snd (get_swap_route R self a w)
  = if float_lt (Fin 5) (fee a) then w
    else after_request R
           (GET route_url (swap_route_params (signer_address self) a)) w.
Proof.
  unfold get_swap_route. destruct (float_lt (Fin 5) (fee a)); [reflexivity|].
  apply get_world.
Qed.

Lemma prepare_world a w :
  snd (prepare R self a w) = snd (get_swap_route R self a w).
Proof.
  unfold prepare, bind, lift, ret.
  destruct (get_swap_route R self a w) as [[[quote|e]|] w1]; try reflexivity.
  cbn [snd]. repeat (destruct_match; try reflexivity).
Qed.

Lemma quiet_prepare a w : quiet_step w (snd (prepare R self a w)).
Proof.
  rewrite prepare_world, get_swap_route_world.
  destruct (float_lt (Fin 5) (fee a)); [apply quiet_refl | apply quiet_get].
Qed.

Lemma submit_world relay signed_tx w :
  snd (submit R self relay signed_tx w)
  = after_request R (submission self relay signed_tx) w.
Proof.
  unfold submit, bind, lift, ret. unfold submission. destruct relay; cbn [negb].
  - pose proof (post_world R "sol/tx/submit_tx_anti_mev_mode"
                  [("signed_tx", JStr signed_tx);
                   ("from_address", JStr (signer_address self))]%string w) as Hw.
    unfold submit_anti_mev_tx. cbn [str_truthy negb].
    destruct (post R _ _ w) as [[[sub|e]|] w1]; cbn [snd] in *; try exact Hw.
    destruct (getitem sub "tx_hash"); exact Hw.
  - pose proof (post_world R "sol/tx/submit_signed_transaction"
                  [("signed_tx", JStr signed_tx)]%string w) as Hw.
    unfold submit_tx.
    destruct (post R _ _ w) as [[[sub|e]|] w1]; cbn [snd] in *; try exact Hw.
    destruct (getitem sub "hash"); exact Hw.
Qed.

Lemma posts_to_submission relay signed_tx t :
  posts_to relay_url [(t, submission self relay signed_tx)] = (if relay then 1 else 0) /\
  posts_to direct_url [(t, submission self relay signed_tx)] = (if relay then 0 else 1).
Proof. destruct relay; split; reflexivity. Qed.

Lemma swap_unfold fuel a interval timeout w :
  swap R self fuel a interval timeout w
  = match prepare R self a w with
    | (Some (Ok (quote, signed_tx, last_valid_height)), w1) =>
      match submit R self (is_anti_mev a) signed_tx w1 with
      | (Some (Ok (sub_resp, tx_hash)), w2) =>
        match wait_tx_status R fuel tx_hash last_valid_height interval timeout w2 with
        | (Some (Ok status_resp), w3) => (Some (Ok (quote, sub_resp, status_resp)), w3)
        | (Some (Raise e), w3) => (Some (Raise e), w3)
        | (None, w3) => (None, w3)
        end
      | (Some (Raise e), w2) => (Some (Raise e), w2)
      | (None, w2) => (None, w2)
      end
    | (Some (Raise e), w1) => (Some (Raise e), w1)
    | (None, w1) => (None, w1)
    end.
Proof.
  unfold swap, bind, ret.
  destruct (prepare R self a w) as [[[[[quote signed] lvh]|e]|] w1]; try reflexivity.
  destruct (submit R self (is_anti_mev a) signed w1) as [[[[sub h]|e]|] w2];
    reflexivity.
Qed.

(** The events of one [swap]: those of the quote step, then at most one
    submission, then those of the polling. *)
Lemma swap_events fuel a interval timeout w :
  let new := events_since w (snd (swap R self fuel a interval timeout w)) in
  (no_post new /\
   forall quote signed lvh w1,
     prepare R self a w <> (Some (Ok (quote, signed, lvh)), w1)) \/
  (exists quote signed lvh w1 pre poll,
     prepare R self a w = (Some (Ok (quote, signed, lvh)), w1) /\
     new = pre ++ [(clock w1, submission self (is_anti_mev a) signed)] ++ poll /\
     no_post pre /\ no_post poll).
Proof.
  intros new. subst new. rewrite swap_unfold.
  pose proof (quiet_prepare a w) as Hq.
  destruct (prepare R self a w) as [[[[[quote signed] lvh]|e]|] w1] eqn:Hp;
    cbn [snd] in Hq; destruct Hq as (pre & Hpre & Hn).
  2,3: left; cbn [snd];
       rewrite (@events_since_app w w1 pre Hpre); split; [exact Hn | discriminate].
  right. exists quote, signed, lvh, w1, pre.
  pose proof (submit_world (is_anti_mev a) signed w1) as Hs.
  assert (Hw2 : trace (after_request R (submission self (is_anti_mev a) signed) w1)
                = trace w ++ pre ++ [(clock w1, submission self (is_anti_mev a) signed)]).
  { cbn [trace after_request]. unfold record_event.
    rewrite Hpre, <- app_assoc. reflexivity. }
  destruct (submit R self (is_anti_mev a) signed w1) as [[[[sub h]|e]|] w2];
    cbn [snd] in Hs; subst w2.
  2,3: exists []; split; [reflexivity|]; cbn [snd]; split;
       [ apply events_since_app; rewrite Hw2; reflexivity
       | split; [exact Hn | apply no_post_nil] ].
  pose proof (quiet_wait_tx_status R h lvh interval timeout fuel
                (after_request R (submission self (is_anti_mev a) signed) w1)) as Hw.
  destruct (wait_tx_status R fuel h lvh interval timeout _) as [[[st|e]|] w3];
    cbn [snd] in *; destruct Hw as (poll & Hpoll & Hnp); exists poll;
    (split; [reflexivity|]); (split; [|split; assumption]);
    apply events_since_app; rewrite Hpoll, Hw2, <- !app_assoc; reflexivity.
Qed.
End Swap.

Lemma In_no_post t url body tr : no_post tr -> ~ In (t, POST url body) tr.
Proof.
  unfold no_post. rewrite Forall_forall. intros H Hin. exact (H _ Hin).
Qed.

(** C1.  In every [swap] the two submission paths exclude each other and
    each is used at most once: the events of the call hold at most one
    submission POST, and none to the path of the other mode.  Once the quote
    and the signature are there (the steps before the submission did not
    raise), exactly one submission is sent: to the relay path
    ([submit_anti_mev_tx]) when [is_anti_mev] is true, to the direct path
    ([submit_tx]) when it is false; and the hash handed to
    [wait_tx_status] is the receipt's [tx_hash] field on the relay path and
    its [hash] field on the direct one. *)
Theorem swap_submits_once_on_one_path :
  forall (R : remote) (S : solders) (self : GMGNSolClient S) (fuel : nat)
         (a : swap_args) (interval : Q) (timeout : pyfloat) (w : world),
    let new := events_since w (snd (swap R self fuel a interval timeout w)) in
    posts_to direct_url new + posts_to relay_url new <= 1 /\
    posts_to (if is_anti_mev a then direct_url else relay_url) new = 0 /\
    forall quote signed_tx last_valid_height w1,
      prepare R self a w = (Some (Ok (quote, signed_tx, last_valid_height)), w1) ->
      posts_to (if is_anti_mev a then relay_url else direct_url) new = 1 /\
      forall sub_resp w2 tx_hash,
        (if is_anti_mev a
         then submit_anti_mev_tx R self signed_tx None
         else submit_tx R signed_tx) w1 = (Some (Ok sub_resp), w2) ->
        getitem sub_resp (if is_anti_mev a then "tx_hash" else "hash")%string
        = Ok tx_hash ->
        swap R self fuel a interval timeout w
        = bind (wait_tx_status R fuel tx_hash last_valid_height interval timeout)
               (fun status_resp => ret (quote, sub_resp, status_resp)) w2.
Proof.
  intros R S self fuel a interval timeout w new.
  destruct (swap_events R self fuel a interval timeout w)
    as [[Hn Hp] | (quote & signed & lvh & w1 & pre & poll & Hp & Hnew & Hpre & Hpoll)];
    fold new in Hn || fold new in Hnew.
  - rewrite !(no_post_posts_to _ Hn). split; [lia|]. split.
    + reflexivity.
    + intros q s l w1 H. exfalso. exact (Hp _ _ _ _ H).
  - destruct (posts_to_submission self (is_anti_mev a) signed (clock w1)) as [Hr Hd].
    assert (Hcr : posts_to relay_url new = if is_anti_mev a then 1 else 0).
    { rewrite Hnew, !posts_to_app, Hr, !(no_post_posts_to _ Hpre),
        !(no_post_posts_to _ Hpoll). lia. }
    assert (Hcd : posts_to direct_url new = if is_anti_mev a then 0 else 1).
    { rewrite Hnew, !posts_to_app, Hd, !(no_post_posts_to _ Hpre),
        !(no_post_posts_to _ Hpoll). lia. }
    split; [rewrite Hcr, Hcd; destruct (is_anti_mev a); lia|]. split.
    { destruct (is_anti_mev a); assumption. }
    intros q s l w1' H. rewrite Hp in H. injection H as -> -> -> ->. split.
    { destruct (is_anti_mev a); assumption. }
    intros sub w2 h Hsub Hh.
    rewrite swap_unfold, Hp. unfold submit, bind, lift, ret.
    destruct (is_anti_mev a); cbn [negb]; rewrite Hsub, Hh; reflexivity.
Qed.

(** C9.  A relay submission sent by [swap] never carries the caller's
    [from_address]: every POST to the relay path among the events of a
    [swap] has the body [{signed_tx, from_address}] with [from_address] the
    signer's own address, whatever [from_address] the caller passed. *)
Theorem swap_relay_submission_names_the_signer :
  forall (R : remote) (S : solders) (self : GMGNSolClient S) (fuel : nat)
         (a : swap_args) (interval : Q) (timeout : pyfloat) (w : world)
         (t : Q) (body : dict json),
    In (t, POST relay_url body)
       (events_since w (snd (swap R self fuel a interval timeout w))) ->
    is_anti_mev a = true /\
    dict_get "from_address" body = Some (JStr (signer_address self)) /\
    exists signed_tx,
      body = [("signed_tx", JStr signed_tx);
              ("from_address", JStr (signer_address self))]%string.
Proof.
  intros R S self fuel a interval timeout w t body Hin.
  destruct (swap_events R self fuel a interval timeout w)
    as [[Hn Hp] | (quote & signed & lvh & w1 & pre & poll & Hp & Hnew & Hpre & Hpoll)].
  - exfalso. eapply In_no_post; eassumption.
  - rewrite Hnew in Hin. apply in_app_or in Hin. destruct Hin as [Hin|Hin].
    { exfalso. eapply In_no_post; [exact Hpre | exact Hin]. }
    apply in_app_or in Hin. destruct Hin as [Hin|Hin].
    2: { exfalso. eapply In_no_post; [exact Hpoll | exact Hin]. }
    destruct Hin as [Heq|[]]. unfold submission in Heq.
    destruct (is_anti_mev a).
    + injection Heq as _ <-. split; [reflexivity|]. split; [reflexivity|].
      exists signed. reflexivity.
    + exfalso. injection Heq as _ Hurl _. vm_compute in Hurl. discriminate Hurl.
Qed.

(** C5.  For every fee strictly greater than 5 (infinity included)
    [get_swap_route] raises the fee exception (the specification's
    InvalidArgumentError) and leaves the world as it found it: no event, no
    request sent. *)
Theorem get_swap_route_rejects_fee_above_5 :
  forall (R : remote) (S : solders) (self : GMGNSolClient S) (a : swap_args)
         (w : world),
    (fee a = PosInf \/ exists q, fee a = Fin q /\ (5 < q)%Q) ->
    get_swap_route R self a w = (Some (Raise FeeTooLarge), w) /\
    events_since w (snd (get_swap_route R self a w)) = [] /\
    requests_sent (snd (get_swap_route R self a w)) = requests_sent w.
Proof.
  intros R S self a w Hfee.
  assert (Hgt : float_lt (Fin 5) (fee a) = true).
  { destruct Hfee as [-> | (q & -> & Hq)]; [reflexivity|].
    apply float_lt_Fin_true. exact Hq. }
  assert (Hrun : get_swap_route R self a w = (Some (Raise FeeTooLarge), w)).
  { unfold get_swap_route. rewrite Hgt. reflexivity. }
  rewrite Hrun. split; [reflexivity|]. split; [|reflexivity].
  apply events_since_app. cbn [snd]. rewrite app_nil_r. reflexivity.
Qed.

(** C6, as the code has it.  The client knows no relay-mode minimum: for
    every fee that is not above 5, with relay protection requested or not,
    [get_swap_route] rejects nothing and sends its one GET request, with the
    fee as the caller gave it (and with [is_anti_mev] among the parameters
    exactly when it is true); what it returns is what the gateway
    returns. *)
Theorem get_swap_route_enforces_no_fee_floor :
  forall (R : remote) (S : solders) (self : GMGNSolClient S) (a : swap_args)
         (w : world) (q : Q),
    fee a = Fin q -> (q <= 5)%Q ->
    let params := swap_route_params (signer_address self) a in
    events_since w (snd (get_swap_route R self a w))
    = [(clock w, GET route_url params)] /\
    dict_get "fee" params = Some (PJ (JFloat (Fin q))) /\
    dict_get "is_anti_mev" params
    = (if is_anti_mev a then Some (PJ (JBool true)) else None) /\
    get_swap_route R self a w = get R "sol/tx/get_swap_route" params w.
Proof.
  intros R S self a w q Hfee Hq params.
  assert (Hle : float_lt (Fin 5) (fee a) = false).
  { rewrite Hfee. apply float_lt_Fin_false. exact Hq. }
  split; [|split; [|split]].
  - apply events_since_app. rewrite get_swap_route_world, Hle. reflexivity.
  - unfold params, swap_route_params, locals. rewrite Hfee.
    destruct (is_anti_mev a), (str_truthy (partner a)), (str_truthy (from_address a));
      reflexivity.
  - unfold params, swap_route_params, locals.
    destruct (is_anti_mev a), (str_truthy (partner a)), (str_truthy (from_address a));
      reflexivity.
  - unfold get_swap_route. rewrite Hle. reflexivity.
Qed.

(* ================================================================== *)
(** ** Bytes *)

Lemma all_ascii_complete (c : ascii) : In c all_ascii.
Proof.
  unfold all_ascii. rewrite <- (ascii_nat_embedding c).
  apply in_map, in_seq. pose proof (nat_ascii_bounded c). lia.
Qed.

(** A property of bytes checked on all of them. *)
Lemma forall_ascii (P : ascii -> bool) :
  forallb P all_ascii = true -> forall c, P c = true.
Proof.
  intros H c. rewrite forallb_forall in H. apply H, all_ascii_complete.
Qed.

Lemma forall_ascii2 (P : ascii -> ascii -> bool) :
  forallb (fun a => forallb (P a) all_ascii) all_ascii = true ->
  forall a b, P a b = true.
Proof.
  intros H a b. apply forall_ascii. revert a. apply forall_ascii. exact H.
Qed.

Lemma bytes_eqb_refl (b : bytes) : bytes_eqb b b = true.
Proof.
  induction b as [|c b IH]; [reflexivity|]. simpl. rewrite Ascii.eqb_refl. exact IH.
Qed.

Lemma ord_chr (n : N) : (n < 256)%N -> ord (chr n) = n.
Proof. apply N_ascii_embedding. Qed.

Lemma chr_ord (c : ascii) : chr (ord c) = c.
Proof. apply ascii_N_embedding. Qed.

(* ------------------------------------------------------------------ *)
(** *** xor *)

Lemma xor_twice_byte (a b : ascii) :
  chr (N.lxor (ord (chr (N.lxor (ord a) (ord b)))) (ord b)) = a.
Proof.
  apply Ascii.eqb_eq. revert a b. apply forall_ascii2. vm_compute. reflexivity.
Qed.

Lemma xor_bytes_length (a b : bytes) :
  List.length (xor_bytes a b) = Nat.min (List.length a) (List.length b).
Proof. unfold xor_bytes. rewrite length_map, length_combine. reflexivity. Qed.

Lemma xor_bytes_twice : forall a b : bytes,
  List.length a <= List.length b -> xor_bytes (xor_bytes a b) b = a.
Proof.
  induction a as [|x a IH]; intros [|y b] Hlen; simpl in *; try reflexivity; try lia.
  unfold xor_bytes in *. simpl. rewrite xor_twice_byte. f_equal. apply IH. lia.
Qed.

(* ------------------------------------------------------------------ *)
(** *** base64 *)

Lemma sextets_complete (n : N) : (n < 64)%N -> In n sextets.
Proof.
  intros H. unfold sextets. rewrite <- (N2Nat.id n). apply in_map, in_seq. lia.
Qed.

Lemma a2b_b2a (n : N) : (n < 64)%N -> a2b (b2a n) = Some n.
Proof.
  intros H. apply sextets_complete in H.
  assert (Hall : forallb (fun m => match a2b (b2a m) with
                                   | Some k => N.eqb k m
                                   | None => false
                                   end) sextets = true) by (vm_compute; reflexivity).
  rewrite forallb_forall in Hall. specialize (Hall n H).
  destruct (a2b (b2a n)) as [k|]; [|discriminate].
  apply N.eqb_eq in Hall. subst k. reflexivity.
Qed.

Lemma b2a_not_pad (n : N) : (n < 64)%N -> Ascii.eqb (b2a n) BASE64_PAD = false.
Proof.
  intros H. apply sextets_complete in H.
  assert (Hall : forallb (fun m => negb (Ascii.eqb (b2a m) BASE64_PAD)) sextets = true)
    by (vm_compute; reflexivity).
  rewrite forallb_forall in Hall. specialize (Hall n H).
  apply negb_true_iff in Hall. exact Hall.
Qed.

(** One alphabet character through the decoder. *)
Lemma a2b_base64_loop_char n rest quad_pos leftchar pads :
  (n < 64)%N ->
  a2b_base64_loop (b2a n :: rest) quad_pos leftchar pads
  = match quad_pos with
    | 0 => a2b_base64_loop rest 1 n 0
    | 1 => emit (chr (N.lor (N.shiftl leftchar 2) (N.shiftr n 4)))
                (a2b_base64_loop rest 2 (N.land n 15) 0)
    | 2 => emit (chr (N.lor (N.shiftl leftchar 4) (N.shiftr n 2)))
                (a2b_base64_loop rest 3 (N.land n 3) 0)
    | _ => emit (chr (N.lor (N.shiftl leftchar 6) n))
                (a2b_base64_loop rest 0 0%N 0)
    end.
Proof.
  intros H. cbn [a2b_base64_loop]. rewrite (b2a_not_pad H), (a2b_b2a H). reflexivity.
Qed.

Lemma sextet1_lt x : (sextet1 x < 64)%N.
Proof.
  apply N.ltb_lt. revert x. apply forall_ascii. vm_compute. reflexivity.
Qed.

Lemma sextet2_lt x y : (sextet2 x y < 64)%N.
Proof.
  apply N.ltb_lt. revert x y. apply forall_ascii2. vm_compute. reflexivity.
Qed.

Lemma sextet3_lt y z : (sextet3 y z < 64)%N.
Proof.
  apply N.ltb_lt. revert y z. apply forall_ascii2. vm_compute. reflexivity.
Qed.

Lemma sextet4_lt z : (sextet4 z < 64)%N.
Proof.
  apply N.ltb_lt. revert z. apply forall_ascii. vm_compute. reflexivity.
Qed.

Lemma byte1_back x y :
  chr (N.lor (N.shiftl (sextet1 x) 2) (N.shiftr (sextet2 x y) 4)) = x.
Proof.
  apply Ascii.eqb_eq. revert x y. apply forall_ascii2. vm_compute. reflexivity.
Qed.

Lemma sextet2_low x y :
  N.shiftl (N.land (sextet2 x y) 15) 4 = N.land (ord y) 240.
Proof.
  apply N.eqb_eq. revert x y. apply forall_ascii2. vm_compute. reflexivity.
Qed.

Lemma sextet3_high y z : N.shiftr (sextet3 y z) 2 = N.land (ord y) 15.
Proof.
  apply N.eqb_eq. revert y z. apply forall_ascii2. vm_compute. reflexivity.
Qed.

Lemma nibbles_back y : chr (N.lor (N.land (ord y) 240) (N.land (ord y) 15)) = y.
Proof.
  apply Ascii.eqb_eq. revert y. apply forall_ascii. vm_compute. reflexivity.
Qed.

Lemma byte2_back x y z :
  chr (N.lor (N.shiftl (N.land (sextet2 x y) 15) 4) (N.shiftr (sextet3 y z) 2)) = y.
Proof. rewrite sextet2_low, sextet3_high. apply nibbles_back. Qed.

Lemma byte3_back y z :
  chr (N.lor (N.shiftl (N.land (sextet3 y z) 3) 6) (sextet4 z)) = z.
Proof.
  apply Ascii.eqb_eq. revert y z. apply forall_ascii2. vm_compute. reflexivity.
Qed.

(** The last byte of a group of one or two: only the high bits of the
    final sextet carry data. *)
Lemma byte1_back_short x :
  chr (N.lor (N.shiftl (sextet1 x) 2)
             (N.shiftr (N.shiftl (N.land (ord x) 3) 4) 4)) = x.
Proof.
  apply Ascii.eqb_eq. revert x. apply forall_ascii. vm_compute. reflexivity.
Qed.

Lemma byte2_back_short x y :
  chr (N.lor (N.shiftl (N.land (sextet2 x y) 15) 4)
             (N.shiftr (N.shiftl (N.land (ord y) 15) 2) 2)) = y.
Proof.
  apply Ascii.eqb_eq. revert x y. apply forall_ascii2. vm_compute. reflexivity.
Qed.

Lemma short_sextet2_lt x : (N.shiftl (N.land (ord x) 3) 4 < 64)%N.
Proof.
  apply N.ltb_lt. revert x. apply forall_ascii. vm_compute. reflexivity.
Qed.

Lemma short_sextet3_lt y : (N.shiftl (N.land (ord y) 15) 2 < 64)%N.
Proof.
  apply N.ltb_lt. revert y. apply forall_ascii. vm_compute. reflexivity.
Qed.

Lemma list_ind3 (A : Type) (P : list A -> Prop) :
  P [] -> (forall x, P [x]) -> (forall x y, P [x; y]) ->
  (forall x y z l, P l -> P (x :: y :: z :: l)) ->
  forall l, P l.
Proof.
  intros H0 H1 H2 H3 l.
  assert (H : P l /\ (forall x, P (x :: l)) /\ (forall x y, P (x :: y :: l))).
  { induction l as [|a l (IH0 & IH1 & IH2)].
    - auto.
    - split; [apply IH1|]. split; [intro x; apply IH2|].
      intros x y. apply H3. exact IH0. }
  exact (proj1 H).
Qed.

Lemma a2b_base64_loop_encoded : forall data leftchar pads,
  a2b_base64_loop (b64encode data) 0 leftchar pads = Ok data.
Proof.
  induction data as [|x|x y|x y z rest IH] using list_ind3; intros leftchar pads.
  - reflexivity.
  - cbn [b64encode].
    rewrite a2b_base64_loop_char by apply sextet1_lt.
    rewrite a2b_base64_loop_char by apply short_sextet2_lt.
    change (N.shiftr (ord x) 2) with (sextet1 x). rewrite byte1_back_short.
    reflexivity.
  - cbn [b64encode].
    rewrite a2b_base64_loop_char by apply sextet1_lt.
    rewrite a2b_base64_loop_char by apply sextet2_lt.
    rewrite a2b_base64_loop_char by apply short_sextet3_lt.
    change (N.shiftr (ord x) 2) with (sextet1 x).
    change (N.lor (N.shiftl (N.land (ord x) 3) 4) (N.shiftr (ord y) 4))
      with (sextet2 x y).
    rewrite byte1_back, byte2_back_short. reflexivity.
  - cbn [b64encode].
    rewrite a2b_base64_loop_char by apply sextet1_lt.
    rewrite a2b_base64_loop_char by apply sextet2_lt.
    rewrite a2b_base64_loop_char by apply sextet3_lt.
    rewrite a2b_base64_loop_char by apply sextet4_lt.
    change (N.shiftr (ord x) 2) with (sextet1 x).
    change (N.lor (N.shiftl (N.land (ord x) 3) 4) (N.shiftr (ord y) 4))
      with (sextet2 x y).
    change (N.lor (N.shiftl (N.land (ord y) 15) 2) (N.shiftr (ord z) 6))
      with (sextet3 y z).
    change (N.land (ord z) 63) with (sextet4 z).
    rewrite byte1_back, byte2_back, byte3_back, IH. reflexivity.
Qed.

Lemma b64decode_b64encode (data : bytes) : b64decode (b64encode data) = Ok data.
Proof. apply a2b_base64_loop_encoded. Qed.

(* ------------------------------------------------------------------ *)
(** *** hexadecimal text *)

Lemma hex_cons c b : hex (c :: b) = hex_hi c :: hex_lo c :: hex b.
Proof. reflexivity. Qed.

Lemma fromhex_pair c rest :
  fromhex (hex_hi c :: hex_lo c :: rest) = emit c (fromhex rest).
Proof.
  assert (H : (fun c =>
            negb (is_space (hex_hi c)) &&
            match hex_value (hex_hi c), hex_value (hex_lo c) with
            | Some top, Some bot => Ascii.eqb (chr (N.shiftl top 4 + bot)) c
            | _, _ => false
            end) c = true).
  { revert c. apply forall_ascii. vm_compute. reflexivity. }
  cbn beta in H. apply andb_true_iff in H. destruct H as [Hs Hv].
  apply negb_true_iff in Hs. cbn [fromhex]. rewrite Hs.
  destruct (hex_value (hex_hi c)) as [top|]; [|discriminate].
  destruct (hex_value (hex_lo c)) as [bot|]; [|discriminate].
  apply Ascii.eqb_eq in Hv. rewrite Hv. reflexivity.
Qed.

Lemma fromhex_hex (b : bytes) : fromhex (hex b) = Ok b.
Proof.
  induction b as [|c b IH]; [reflexivity|].
  rewrite hex_cons, fromhex_pair, IH. reflexivity.
Qed.

Lemma hex_digit_not_continuation c :
  continuation (hex_hi c) = false /\ continuation (hex_lo c) = false.
Proof.
  assert (H : (fun c => negb (continuation (hex_hi c)) && negb (continuation (hex_lo c))) c
              = true).
  { revert c. apply forall_ascii. vm_compute. reflexivity. }
  cbn beta in H. apply andb_true_iff in H.
  rewrite !negb_true_iff in H. exact H.
Qed.

Lemma str_len_hex (b : bytes) :
  str_len (string_of_list_ascii (hex b)) = 2 * List.length b.
Proof.
  unfold str_len, encode_utf8. rewrite list_ascii_of_string_of_list_ascii.
  induction b as [|c b IH]; [reflexivity|].
  rewrite hex_cons. cbn [filter].
  destruct (hex_digit_not_continuation c) as [-> ->]. cbn [negb List.length].
  rewrite IH. lia.
Qed.

(* ------------------------------------------------------------------ *)
(** *** padding *)

Lemma pad_length (data : bytes) (bs : nat) :
  0 < bs ->
  List.length (pad data bs) mod bs = 0 /\ List.length data < List.length (pad data bs).
Proof.
  intros Hbs. unfold pad. rewrite length_app, repeat_length.
  pose proof (Nat.mod_upper_bound (List.length data) bs ltac:(lia)) as Hm.
  pose proof (Nat.div_mod_eq (List.length data) bs) as Hd.
  split; [|lia].
  replace (List.length data + (bs - List.length data mod bs))
    with ((List.length data / bs + 1) * bs) by nia.
  apply Nat.Div0.mod_mul.
Qed.

Lemma last_app_repeat (A : Type) (l : list A) (x d : A) (n : nat) :
  0 < n -> last (l ++ repeat x n) d = x.
Proof.
  intros Hn. destruct n as [|n]; [lia|].
  replace (repeat x (S n)) with (repeat x n ++ [x]).
  - rewrite app_assoc. apply last_last.
  - change [x] with (repeat x 1). rewrite <- repeat_app. f_equal. lia.
Qed.

Lemma unpad_pad (data : bytes) : unpad (pad data block_size) block_size = Ok data.
Proof.
  destruct (pad_length data (bs := block_size)) as [Hmod Hlt]; [unfold block_size; lia|].
  unfold unpad. rewrite Hmod.
  destruct (List.length (pad data block_size) =? 0) eqn:E0;
    [apply Nat.eqb_eq in E0; lia|].
  cbn [Nat.eqb negb].
  set (p := block_size - List.length data mod block_size).
  assert (Hp : 1 <= p <= block_size).
  { unfold p. pose proof (Nat.mod_upper_bound (List.length data) block_size).
    unfold block_size in *. lia. }
  assert (Hlen : List.length (pad data block_size) = List.length data + p).
  { unfold pad. fold p. rewrite length_app, repeat_length. reflexivity. }
  assert (Hlast : N.to_nat (ord (last (pad data block_size) zero)) = p).
  { unfold pad. fold p. rewrite last_app_repeat by lia.
    rewrite ord_chr; [apply Nat2N.id|]. unfold block_size in Hp. lia. }
  rewrite Hlast, Hlen.
  destruct (p <? 1) eqn:E1; [apply Nat.ltb_lt in E1; lia|].
  destruct (Nat.min block_size (List.length data + p) <? p) eqn:E2;
    [apply Nat.ltb_lt in E2; lia|].
  cbn [orb].
  replace (List.length data + p - p) with (List.length data) by lia.
  unfold pad. fold p.
  rewrite skipn_app, skipn_all, Nat.sub_diag. cbn [skipn app].
  rewrite bytes_eqb_refl. cbn [negb].
  rewrite firstn_app, firstn_all, Nat.sub_diag. cbn [firstn]. rewrite app_nil_r.
  reflexivity.
Qed.

(* ------------------------------------------------------------------ *)
(** *** CBC *)

Section CBC.
Variable C : block_cipher.
Variable key : bytes.

Hypothesis block_ok : permutes C key.

Lemma cbc_encrypt_nil fuel prev : cbc_encrypt_blocks C key fuel prev [] = [].
Proof. destruct fuel; reflexivity. Qed.

Lemma cbc_round_trip : forall m pt prev fuel fuel',
  List.length pt = m * block_size -> List.length prev = block_size ->
  m <= fuel -> m <= fuel' ->
  List.length (cbc_encrypt_blocks C key fuel prev pt) = m * block_size /\
  cbc_decrypt_blocks C key fuel' prev (cbc_encrypt_blocks C key fuel prev pt) = pt.
Proof.
  induction m as [|m IH]; intros pt prev fuel fuel' Hpt Hprev Hf Hf'.
  - destruct pt; [|discriminate Hpt]. rewrite cbc_encrypt_nil.
    split; [reflexivity|]. destruct fuel'; reflexivity.
  - destruct fuel as [|fuel]; [lia|]. destruct fuel' as [|fuel']; [lia|].
    destruct pt as [|p0 pt0] eqn:Ept; [discriminate Hpt|]. rewrite <- Ept in *.
    assert (Hne : cbc_encrypt_blocks C key (S fuel) prev pt
                  = encrypt_block C key (xor_bytes (firstn block_size pt) prev)
                    ++ cbc_encrypt_blocks C key fuel
                         (encrypt_block C key (xor_bytes (firstn block_size pt) prev))
                         (skipn block_size pt)).
    { rewrite Ept. reflexivity. }
    rewrite Hne. clear Hne.
    set (head := firstn block_size pt).
    assert (Hhead : List.length head = block_size).
    { unfold head. rewrite length_firstn, Hpt. unfold block_size. lia. }
    assert (Hx : List.length (xor_bytes head prev) = block_size).
    { rewrite xor_bytes_length, Hhead, Hprev. apply Nat.min_id. }
    destruct (block_ok _ Hx) as [Hdec Hlen].
    set (c := encrypt_block C key (xor_bytes head prev)) in *.
    assert (Htail : List.length (skipn block_size pt) = m * block_size).
    { rewrite length_skipn, Hpt. unfold block_size. lia. }
    destruct (IH (skipn block_size pt) c fuel fuel' Htail Hlen
                 ltac:(lia) ltac:(lia)) as [IHlen IHdec].
    split.
    + rewrite length_app, Hlen, IHlen. simpl. reflexivity.
    + destruct c as [|c0 c'] eqn:Ec; [discriminate Hlen|]. rewrite <- Ec in *.
      assert (Hd : forall rest,
                cbc_decrypt_blocks C key (S fuel') prev (c ++ rest)
                = xor_bytes (decrypt_block C key (firstn block_size (c ++ rest))) prev
                  ++ cbc_decrypt_blocks C key fuel' (firstn block_size (c ++ rest))
                       (skipn block_size (c ++ rest))).
      { intros rest. rewrite Ec. reflexivity. }
      rewrite Hd. clear Hd.
      rewrite firstn_app, skipn_app, Hlen, Nat.sub_diag.
      rewrite (@firstn_all2 _ block_size c) by lia.
      rewrite (@skipn_all2 _ block_size c) by lia.
      cbn [firstn skipn app]. rewrite app_nil_r.
      rewrite Hdec, xor_bytes_twice by lia.
      rewrite IHdec. apply firstn_skipn.
Qed.
End CBC.

Lemma hex_nonempty (key : bytes) :
  List.length key = 32 ->
  str_truthy (Some (string_of_list_ascii (hex key))) = true.
Proof. destruct key as [|c key]; [discriminate|]. reflexivity. Qed.

Lemma decode_encode_utf8 (s : string) :
  utf8_valid (encode_utf8 s) = true -> decode_utf8 (encode_utf8 s) = Ok s.
Proof.
  intros H. unfold decode_utf8. rewrite H. unfold encode_utf8.
  rewrite string_of_list_ascii_of_string. reflexivity.
Qed.

(** C8.  Round trip of the at-rest format: for every plaintext key
    material (a [str]), every 32-byte key and every 16-byte IV, encrypting
    the padded plaintext in CBC mode and encoding base64(IV || ciphertext)
    gives a secret from which the decryption path of [__init__]
    (base64-decode, split at the block size, CBC-decrypt, unpad, decode)
    recovers exactly the plaintext; the block cipher is any pair of
    functions that are inverse to each other on blocks under that key. *)
Theorem decrypt_pvk_recovers_encrypted_secret :
  forall (C : block_cipher) (key iv : bytes) (plaintext : string),
    permutes C key ->
    List.length key = 32 ->
    List.length iv = block_size ->
    utf8_valid (encode_utf8 plaintext) = true ->
    let aes_256_hex_key := string_of_list_ascii (hex key) in
    let secret := encrypt_secret C key iv plaintext in
    decrypt_pvk C aes_256_hex_key (Some secret) = Ok plaintext /\
    forall (H : host) (S : solders),
      __init__ H C S (Some secret) None (Some aes_256_hex_key)
      = rbind (from_base58_string S plaintext)
              (fun kp => Ok {| _pvk := plaintext; signer := kp;
                               signer_address := pubkey_str S kp |}).
Proof.
  intros C key iv plaintext Hperm Hkey Hiv Hutf hexkey secret.
  assert (Hdec : decrypt_pvk C hexkey (Some secret) = Ok plaintext).
  { unfold decrypt_pvk, hexkey, secret, encrypt_secret.
    rewrite str_len_hex, Hkey. cbn [Nat.mul Nat.add Nat.eqb negb rbind].
    unfold encode_utf8 at 1. rewrite list_ascii_of_string_of_list_ascii.
    rewrite b64decode_b64encode. cbn [rbind].
    unfold encode_utf8 at 1. rewrite list_ascii_of_string_of_list_ascii.
    rewrite fromhex_hex. cbn [rbind].
    set (padded := pad (encode_utf8 plaintext) block_size).
    destruct (@pad_length (encode_utf8 plaintext) block_size ltac:(unfold block_size; lia))
      as [Hmod _]. fold padded in Hmod.
    apply Nat.Div0.mod_divides in Hmod. destruct Hmod as [m Hm].
    rewrite Nat.mul_comm in Hm.
    assert (Hfuel : m <= List.length padded) by (rewrite Hm; unfold block_size; lia).
    destruct (@cbc_round_trip C key Hperm m padded iv (List.length padded) m
                Hm Hiv Hfuel (le_n m)) as [Hlen _].
    set (ct := cbc_encrypt_blocks C key (List.length padded) iv padded) in *.
    assert (Hfuel' : m <= List.length ct) by (rewrite Hlen; unfold block_size; lia).
    destruct (@cbc_round_trip C key Hperm m padded iv (List.length padded)
                (List.length ct) Hm Hiv Hfuel Hfuel') as [_ Hrt].
    fold ct in Hrt.
    rewrite firstn_app, skipn_app, Hiv, Nat.sub_diag.
    rewrite (@firstn_all2 _ block_size iv) by lia.
    rewrite (@skipn_all2 _ block_size iv) by lia.
    cbn [firstn skipn app]. rewrite app_nil_r.
    unfold AES_new. rewrite Hkey, Hiv. cbn [Nat.eqb orb negb block_size rbind].
    unfold decrypt. cbn [cbc_key cbc_iv].
    replace (List.length ct mod block_size) with 0
      by (rewrite Hlen; symmetry; apply Nat.Div0.mod_mul).
    cbn [Nat.eqb negb rbind]. rewrite Hrt.
    unfold padded. rewrite unpad_pad. cbn [rbind].
    apply decode_encode_utf8. exact Hutf. }
  split; [exact Hdec|].
  intros H S. unfold __init__.
  change (str_truthy None) with false. cbn match. cbn [rbind].
  pose proof (hex_nonempty key Hkey) as Hne. fold hexkey in Hne.
  rewrite Hne. cbn [negb str_or_empty rbind]. rewrite Hne, Hdec. reflexivity.
Qed.

(* ================================================================== *)
(** ** The theorems on example runs *)

Lemma scripted_sane replies : sane_timing (scripted replies 0%Q).
Proof. intros n. split; apply Qle_refl. Defined.

Lemma steady_sane rp : sane_timing (steady rp 0%Q).
Proof. intros n. split; apply Qle_refl. Defined.

Lemma envelope_delivers data : delivers (envelope data) data.
Proof.
  eexists. eexists. exists (JInt 0). repeat split; reflexivity.
Defined.

Lemma xor_cipher_permutes key : block_size <= List.length key -> permutes xor_cipher key.
Proof.
  intros Hk b Hb. cbn [xor_cipher encrypt_block decrypt_block].
  assert (Hf : List.length (firstn block_size key) = block_size)
    by (rewrite length_firstn; lia).
  split.
  - apply xor_bytes_twice. rewrite Hb, Hf. apply le_n.
  - rewrite xor_bytes_length, Hb, Hf. apply Nat.min_id.
Defined.

(** A direct swap: one POST, to the direct path, polled under its hash. *)
Lemma swap_submits_once_on_one_path_witness :
  let R := scripted direct_script 0%Q in
  let a := sample_args (1 # 10000) false None in
  let new := events_since (boot 0%Q) (snd (swap R alice 5 a (4 # 10)%Q (Fin 60) (boot 0%Q))) in
  posts_to direct_url new = 1 /\ posts_to relay_url new = 0 /\
  swap R alice 5 a (4 # 10)%Q (Fin 60) (boot 0%Q)
  = bind (wait_tx_status R 5 (JStr "H") (JInt 1000) (4 # 10)%Q (Fin 60))
         (fun status_resp =>
            ret (sample_quote, JObj [("hash", JStr "H")]%string, status_resp))
         (after_request R (submission alice false "TWFuazE=")
            (after_request R
               (GET route_url (swap_route_params "pub:k1" a)) (boot 0%Q))).
Proof.
  intros R a new.
  destruct (swap_submits_once_on_one_path R alice 5 a (4 # 10)%Q (Fin 60) (boot 0%Q))
    as (_ & Hother & Hrun).
  destruct (Hrun sample_quote "TWFuazE="%string (JInt 1000) _ eq_refl) as [Hone Hhash].
  split; [exact Hone|]. split; [exact Hother|].
  apply (Hhash (JObj [("hash", JStr "H")]%string) _ (JStr "H")); reflexivity.
Defined.

Lemma wait_tx_status_third_status_wins_witness :
  let R := scripted [envelope pending; envelope pending; envelope succeeded] 0%Q in
  exists status w',
    wait_tx_status R 3 (JStr "H") (JInt 1000) (4 # 10)%Q (Fin 60) (boot 0%Q)
    = (Some (Ok status), w') /\
    status = succeeded /\
    getitem status "success" = Ok (JBool true) /\
    requests_sent w' = 3 /\
    map snd (trace w')
    = [status_query (JStr "H") (JInt 1000); SLEEP (4 # 10)%Q;
       status_query (JStr "H") (JInt 1000); SLEEP (4 # 10)%Q;
       status_query (JStr "H") (JInt 1000)].
Proof.
  intros R.
  apply (@wait_tx_status_third_status_wins R (JStr "H") (JInt 1000) (4 # 10)%Q (Fin 60)
           (boot 0%Q) 3 pending pending succeeded).
  - apply scripted_sane.
  - apply envelope_delivers.
  - reflexivity.
  - apply envelope_delivers.
  - reflexivity.
  - apply envelope_delivers.
  - reflexivity.
  - vm_compute. reflexivity.
  - lia.
Defined.

Lemma wait_tx_status_times_out_witness :
  let R := steady (envelope pending) 0%Q in
  exists attempts w',
    wait_tx_status R 4 (JStr "H") (JInt 1000) (4 # 10)%Q (Fin 1) (boot 0%Q)
    = (Some (Raise (StatusNotFound (JStr "H") (Fin 1))), w') /\
    w' = after_turns R (JStr "H") (JInt 1000) (4 # 10)%Q attempts (boot 0%Q) /\
    requests_sent w' = 0 + attempts /\
    1 <= attempts <= 3 /\
    (2 <= attempts <-> (0 + 0 < 6 # 10)%Q) /\
    (1 <= elapsed 0%Q w')%Q /\
    (forall j, j < attempts ->
       (elapsed 0%Q (after_turns R (JStr "H") (JInt 1000) (4 # 10)%Q j (boot 0%Q)) < 1)%Q).
Proof.
  intros R.
  apply (@wait_tx_status_times_out R (JStr "H") (JInt 1000) (boot 0%Q) 4).
  - apply steady_sane.
  - intros m. exists pending. split; [apply envelope_delivers | reflexivity].
  - lia.
Defined.

(** A service that answers every status query with an all-pending status
    and takes a second for each answer: the first query is the only one
    before the time-out. *)
Lemma wait_tx_status_times_out_after_one_query :
  let R := steady (envelope pending) 1%Q in
  sane_timing R /\
  (forall m, exists status,
      delivers (respond R m (status_query (JStr "H") (JInt 1000))) status /\
      is_terminal status = Ok false) /\
  exists w',
    wait_tx_status R 4 (JStr "H") (JInt 1000) (4 # 10)%Q (Fin 1) (boot 0%Q)
    = (Some (Raise (StatusNotFound (JStr "H") (Fin 1))), w') /\
    requests_sent w' = 1 /\
    map snd (trace w') = [status_query (JStr "H") (JInt 1000); SLEEP (4 # 10)%Q] /\
    ~ 2 <= requests_sent w'.
Proof.
  intros R. split; [intros m; split; simpl; lra|]. split.
  - intros m. exists pending. split; [apply envelope_delivers | reflexivity].
  - eexists. split; [vm_compute; reflexivity|].
    split; [reflexivity|]. split; [reflexivity|]. simpl. lia.
Qed.

Lemma wait_tx_status_survives_query_error_witness :
  let R := scripted [envelope pending; unavailable; envelope pending;
                     envelope succeeded] 0%Q in
  exists w' before between,
    wait_tx_status R 4 (JStr "H") (JInt 1000) (4 # 10)%Q (Fin 60) (boot 0%Q)
    = (Some (Ok succeeded), w') /\
    requests_sent w' = 0 + 3 + 1 /\
    map snd (trace w')
    = before ++ [status_query (JStr "H") (JInt 1000);
                 LOG_ERROR (GetHttpError 503 status_url);
                 SLEEP (4 # 10)%Q]
             ++ between ++ [status_query (JStr "H") (JInt 1000)] /\
    (3 = 1 + 1 -> between = []).
Proof.
  intros R.
  apply (@wait_tx_status_survives_query_error R (JStr "H") (JInt 1000) (4 # 10)%Q (Fin 60)
           (boot 0%Q) 4 1 3 (GetHttpError 503 status_url) succeeded).
  - apply scripted_sane.
  - lia.
  - intros j Hj. destruct j as [|[|[|j]]]; [exact I | reflexivity | exact I | lia].
  - reflexivity.
  - apply envelope_delivers.
  - reflexivity.
  - vm_compute. reflexivity.
  - lia.
Defined.

Lemma get_swap_route_rejects_fee_above_5_witness :
  let R := scripted direct_script 0%Q in
  let a := sample_args 6 false None in
  get_swap_route R alice a (boot 0%Q) = (Some (Raise FeeTooLarge), boot 0%Q) /\
  events_since (boot 0%Q) (snd (get_swap_route R alice a (boot 0%Q))) = [] /\
  requests_sent (snd (get_swap_route R alice a (boot 0%Q))) = 0.
Proof.
  intros R a.
  apply (@get_swap_route_rejects_fee_above_5 R plain_solders alice a (boot 0%Q)).
  right. exists 6%Q. split; [reflexivity | vm_compute; reflexivity].
Defined.

(** Relay protection asked for with a fee of 0.001: the request goes out,
    and the quote comes back. *)
Lemma relay_fee_below_minimum_is_sent :
  let R := scripted relay_script 0%Q in
  let a := sample_args (1 # 1000) true None in
  is_anti_mev a = true /\ (1 # 1000 < 2 # 1000)%Q /\
  fst (get_swap_route R alice a (boot 0%Q)) = Some (Ok sample_quote) /\
  requests_sent (snd (get_swap_route R alice a (boot 0%Q))) = 1 /\
  ~ (exists e, get_swap_route R alice a (boot 0%Q) = (Some (Raise e), boot 0%Q)).
Proof.
  intros R a. split; [reflexivity|]. split; [vm_compute; reflexivity|].
  split; [vm_compute; reflexivity|]. split; [vm_compute; reflexivity|].
  intros [e He]. vm_compute in He. discriminate He.
Qed.

Lemma get_swap_route_enforces_no_fee_floor_witness :
  let R := scripted relay_script 0%Q in
  let a := sample_args (1 # 1000) true None in
  let params := swap_route_params "pub:k1" a in
  events_since (boot 0%Q) (snd (get_swap_route R alice a (boot 0%Q)))
  = [(0%Q, GET route_url params)] /\
  dict_get "fee" params = Some (PJ (JFloat (Fin (1 # 1000)))) /\
  dict_get "is_anti_mev" params = Some (PJ (JBool true)) /\
  get_swap_route R alice a (boot 0%Q) = get R "sol/tx/get_swap_route" params (boot 0%Q).
Proof.
  intros R a params.
  apply (@get_swap_route_enforces_no_fee_floor R plain_solders alice a (boot 0%Q) (1 # 1000)).
  - reflexivity.
  - vm_compute. discriminate.
Defined.

Lemma swap_relay_submission_names_the_signer_witness :
  let R := scripted relay_script 0%Q in
  let a := sample_args (2 # 1000) true (Some "someone-else"%string) in
  from_address a = Some "someone-else"%string /\
  is_anti_mev a = true /\
  dict_get "from_address"
    [("signed_tx", JStr "TWFuazE="); ("from_address", JStr "pub:k1")]%string
  = Some (JStr (signer_address alice)) /\
  exists signed_tx,
    [("signed_tx", JStr "TWFuazE="); ("from_address", JStr "pub:k1")]%string
    = [("signed_tx", JStr signed_tx); ("from_address", JStr (signer_address alice))]%string.
Proof.
  intros R a. split; [reflexivity|].
  apply (@swap_relay_submission_names_the_signer R plain_solders alice 5 a
           (4 # 10)%Q (Fin 60) (boot 0%Q) 0%Q).
  vm_compute. right. left. reflexivity.
Defined.

Lemma wait_tx_status_returns_only_terminal_witness :
  let R := scripted [envelope pending; envelope succeeded] 0%Q in
  is_terminal succeeded = Ok true /\
  (exists key v, In key flags /\ getitem succeeded key = Ok v /\ truthy v = true) /\
  ((forall key, In key flags -> exists b, getitem succeeded key = Ok (JBool b)) ->
   exists key, In key flags /\ getitem succeeded key = Ok (JBool true)).
Proof.
  intros R.
  apply (@wait_tx_status_returns_only_terminal R 2 (JStr "H") (JInt 1000)
           (4 # 10)%Q (Fin 60) (boot 0%Q)
           (snd (wait_tx_status R 2 (JStr "H") (JInt 1000) (4 # 10)%Q (Fin 60) (boot 0%Q)))
           succeeded).
  vm_compute. reflexivity.
Defined.

Lemma decrypt_pvk_recovers_encrypted_secret_witness :
  let aes_256_hex_key := string_of_list_ascii (hex sample_key) in
  let secret := encrypt_secret xor_cipher sample_key sample_iv "k1" in
  decrypt_pvk xor_cipher aes_256_hex_key (Some secret) = Ok "k1"%string /\
  forall (H : host) (S : solders),
    __init__ H xor_cipher S (Some secret) None (Some aes_256_hex_key)
    = rbind (from_base58_string S "k1")
            (fun kp => Ok {| _pvk := "k1"; signer := kp;
                             signer_address := pubkey_str S kp |}).
Proof.
  apply (@decrypt_pvk_recovers_encrypted_secret xor_cipher sample_key sample_iv "k1"%string).
  - apply xor_cipher_permutes. vm_compute. lia.
  - reflexivity.
  - reflexivity.
  - reflexivity.
Defined.

(** C7, as the code has it.  A constructed client keeps the plaintext
    private key in [_pvk]: it is the very string the keypair was parsed
    from and the address derived from; it is the caller's secret itself
    when no symmetric key is in play, and the decrypted plaintext when one
    is given. *)
Theorem init_keeps_the_plaintext_key :
  forall (H : host) (C : block_cipher) (S : solders)
         (pvk_base58 sol_pvk_file_path aes_256_hex_key : option string)
         (self : GMGNSolClient S),
    __init__ H C S pvk_base58 sol_pvk_file_path aes_256_hex_key = Ok self ->
    from_base58_string S (_pvk self) = Ok (signer self) /\
    signer_address self = pubkey_str S (signer self) /\
    (str_truthy sol_pvk_file_path = false ->
     str_truthy aes_256_hex_key = false ->
     getpass H getpass_prompt = Ok EmptyString ->
     pvk_base58 = Some (_pvk self)) /\
    (str_truthy sol_pvk_file_path = false ->
     str_truthy aes_256_hex_key = true ->
     decrypt_pvk C (str_or_empty aes_256_hex_key) pvk_base58 = Ok (_pvk self)).
Proof.
  intros H C S pvk path key self Hinit. unfold __init__ in Hinit.
  destruct (str_truthy path) eqn:Epath.
  - (* the secret is read from a file *)
    destruct (read_file H (str_or_empty path)) as [text|e]; [|discriminate Hinit].
    cbn [rbind] in Hinit.
    destruct (if negb (str_truthy key) then getpass H getpass_prompt
              else Ok (str_or_empty key)) as [k|e]; [|discriminate Hinit].
    cbn [rbind] in Hinit.
    destruct (str_truthy (Some k)).
    + destruct (decrypt_pvk C k (Some (strip strip_chars text))) as [plain|e];
        [|discriminate Hinit].
      cbn [rbind] in Hinit.
      destruct (from_base58_string S plain) as [kp|e] eqn:Ekp; [|discriminate Hinit].
      injection Hinit as <-. cbn [_pvk signer signer_address].
      repeat split; try discriminate. exact Ekp.
    + cbn [rbind] in Hinit.
      destruct (from_base58_string S (strip strip_chars text)) as [kp|e] eqn:Ekp;
        [|discriminate Hinit].
      injection Hinit as <-. cbn [_pvk signer signer_address].
      repeat split; try discriminate. exact Ekp.
  - cbn [rbind] in Hinit.
    destruct (str_truthy key) eqn:Ekey; cbn [negb] in Hinit.
    + cbn [rbind] in Hinit.
      assert (Hk : str_truthy (Some (str_or_empty key)) = true)
        by (destruct key as [[|c k]|]; try discriminate Ekey; reflexivity).
      rewrite Hk in Hinit.
      destruct (decrypt_pvk C (str_or_empty key) pvk) as [plain|e] eqn:Edec;
        [|discriminate Hinit].
      cbn [rbind] in Hinit.
      destruct (from_base58_string S plain) as [kp|e] eqn:Ekp; [|discriminate Hinit].
      injection Hinit as <-. cbn [_pvk signer signer_address].
      repeat split; try discriminate. exact Ekp.
    + destruct (getpass H getpass_prompt) as [k|e] eqn:Eg; [|discriminate Hinit].
      cbn [rbind] in Hinit.
      destruct (str_truthy (Some k)) eqn:Ek.
      * destruct (decrypt_pvk C k pvk) as [plain|e]; [|discriminate Hinit].
        cbn [rbind] in Hinit.
        destruct (from_base58_string S plain) as [kp|e] eqn:Ekp; [|discriminate Hinit].
        injection Hinit as <-. cbn [_pvk signer signer_address].
        repeat split; try discriminate; [exact Ekp|].
        intros _ _ Hempty. injection Hempty as ->. discriminate Ek.
      * cbn [rbind] in Hinit. destruct pvk as [s|]; [|discriminate Hinit].
        cbn [rbind] in Hinit.
        destruct (from_base58_string S s) as [kp|e] eqn:Ekp; [|discriminate Hinit].
        injection Hinit as <-. cbn [_pvk signer signer_address].
        repeat split; try discriminate. exact Ekp.
Qed.

Lemma init_keeps_the_plaintext_key_witness :
  from_base58_string base58_solders (_pvk bob) = Ok (signer bob) /\
  signer_address bob = pubkey_str base58_solders (signer bob) /\
  (str_truthy None = false -> str_truthy None = false ->
   getpass no_host getpass_prompt = Ok EmptyString ->
   Some rfc8032_secret = Some (_pvk bob)) /\
  (str_truthy None = false -> str_truthy None = true ->
   decrypt_pvk xor_cipher (str_or_empty None) (Some rfc8032_secret) = Ok (_pvk bob)).
Proof.
  apply (@init_keeps_the_plaintext_key no_host xor_cipher base58_solders
           (Some rfc8032_secret) None None bob).
  vm_compute. reflexivity.
Defined.

(** A valid key, the base58 text of the key pair of RFC 8032 (section 7.1,
    test 1), given in plain text and with nothing typed at the prompt: the
    constructor succeeds, the object has the address of that key pair, and
    it carries the very text of the secret in [_pvk]. *)
Lemma init_retains_the_raw_secret :
  exists self : GMGNSolClient base58_solders,
    __init__ no_host xor_cipher base58_solders (Some rfc8032_secret) None None
    = Ok self /\
    signer self = rfc8032_keypair /\
    signer_address self = rfc8032_address /\
    _pvk self = rfc8032_secret.
Proof.
  exists bob. split; [vm_compute; reflexivity|]. repeat split.
Qed.

(* ================================================================== *)
(** ** The gateway, case by case *)

Lemma dict_getitem_ok (V : Type) (d : dict V) (k : string) (v : V) :
  dict_getitem d k = Ok v <-> dict_get k d = Some v.
Proof.
  unfold dict_getitem. destruct (dict_get k d) as [x|]; split; intro H;
    try discriminate; injection H as ->; reflexivity.
Qed.

Lemma Zneqb_200 (z : Z) : negb (z =? 200)%Z = false <-> z = 200%Z.
Proof. rewrite negb_false_iff. apply Z.eqb_eq. Qed.

(** X1.  [get] returns a value exactly when the reply to its request is a
    success envelope, and the value is the envelope's [data]. *)
Theorem get_returns_exactly_the_data_of_success_envelopes :
  forall (R : remote) (other_path : string) (kwargs : dict pyval) (w : world)
         (data : json),
    fst (get R other_path kwargs w) = Some (Ok data) <->
    delivers (respond R (requests_sent w) (GET (url_of other_path) kwargs)) data.
Proof.
  intros R path kw w data. unfold get, bind, request, raise, lift, delivers.
  cbn [fst snd].
  destruct (respond R (requests_sent w) (GET (url_of path) kw)) as [r|e].
  2: { split; [discriminate|]. intros (r & d & c & Hr & _). discriminate Hr. }
  destruct (negb (status_code r =? 200)%Z) eqn:Es.
  { split; [discriminate|]. intros (r' & d & c & Hr & Hs & _).
    injection Hr as <-. apply Zneqb_200 in Hs. congruence. }
  apply Zneqb_200 in Es.
  destruct (body r) as [d|e] eqn:Eb.
  2: { split; [discriminate|]. intros (r' & d & c & Hr & _ & Hb & _).
       injection Hr as <-. congruence. }
  destruct (dict_getitem d "code") as [c|e] eqn:Ec.
  2: { split; [discriminate|]. intros (r' & d' & c & Hr & _ & Hb & Hc & _).
       injection Hr as <-. rewrite Eb in Hb. injection Hb as <-.
       apply dict_getitem_ok in Hc. congruence. }
  apply dict_getitem_ok in Ec.
  destruct (ne_zero c) eqn:Ez.
  { split.
    - destruct (dict_getitem d "msg"); discriminate.
    - intros (r' & d' & c' & Hr & _ & Hb & Hc & Hz & _).
      injection Hr as <-. rewrite Eb in Hb. injection Hb as <-. congruence. }
  cbn [fst]. split.
  - intros H. injection H as H. apply dict_getitem_ok in H.
    exists r, d, c. repeat split; assumption.
  - intros (r' & d' & c' & Hr & _ & Hb & _ & _ & Hd).
    injection Hr as <-. rewrite Eb in Hb. injection Hb as <-.
    apply dict_getitem_ok in Hd. rewrite Hd. reflexivity.
Qed.

(** X2.  [post] returns a value exactly when the reply to its request is a
    success envelope, and the value is the envelope's [data]. *)
Theorem post_returns_exactly_the_data_of_success_envelopes :
  forall (R : remote) (other_path : string) (body_ : dict json) (w : world)
         (data : json),
    fst (post R other_path body_ w) = Some (Ok data) <->
    delivers (respond R (requests_sent w) (POST (url_of other_path) body_)) data.
Proof.
  intros R path b w data. unfold post, bind, request, raise, lift, delivers.
  cbn [fst snd].
  destruct (respond R (requests_sent w) (POST (url_of path) b)) as [r|e].
  2: { split; [discriminate|]. intros (r & d & c & Hr & _). discriminate Hr. }
  destruct (negb (status_code r =? 200)%Z) eqn:Es.
  { split; [discriminate|]. intros (r' & d & c & Hr & Hs & _).
    injection Hr as <-. apply Zneqb_200 in Hs. congruence. }
  apply Zneqb_200 in Es.
  destruct (body r) as [d|e] eqn:Eb.
  2: { split; [discriminate|]. intros (r' & d & c & Hr & _ & Hb & _).
       injection Hr as <-. congruence. }
  destruct (dict_getitem d "code") as [c|e] eqn:Ec.
  2: { split; [discriminate|]. intros (r' & d' & c & Hr & _ & Hb & Hc & _).
       injection Hr as <-. rewrite Eb in Hb. injection Hb as <-.
       apply dict_getitem_ok in Hc. congruence. }
  apply dict_getitem_ok in Ec.
  destruct (ne_zero c) eqn:Ez.
  { split.
    - destruct (dict_getitem d "msg"); discriminate.
    - intros (r' & d' & c' & Hr & _ & Hb & Hc & Hz & _).
      injection Hr as <-. rewrite Eb in Hb. injection Hb as <-. congruence. }
  cbn [fst]. split.
  - intros H. injection H as H. apply dict_getitem_ok in H.
    exists r, d, c. repeat split; assumption.
  - intros (r' & d' & c' & Hr & _ & Hb & _ & _ & Hd).
    injection Hr as <-. rewrite Eb in Hb. injection Hb as <-.
    apply dict_getitem_ok in Hd. rewrite Hd. reflexivity.
Qed.

(** X3.  A status other than 200 is an error that names the status and the URL,
    whatever the body is; the body is not looked at. *)
Theorem gateway_rejects_every_status_but_200 :
  forall (R : remote) (other_path : string) (kwargs : dict pyval)
         (body_ : dict json) (w : world) (status : Z) (b : result (dict json)),
    status <> 200%Z ->
    (respond R (requests_sent w) (GET (url_of other_path) kwargs)
     = Ok {| status_code := status; body := b |} ->
     fst (get R other_path kwargs w)
     = Some (Raise (GetHttpError status (url_of other_path)))) /\
    (respond R (requests_sent w) (POST (url_of other_path) body_)
     = Ok {| status_code := status; body := b |} ->
     fst (post R other_path body_ w)
     = Some (Raise (PostHttpError status (url_of other_path)))).
Proof.
  intros R path kw bd w status b Hs.
  assert (Hn : negb (status =? 200)%Z = true).
  { apply negb_true_iff. apply Z.eqb_neq. exact Hs. }
  split; intros Hr.
  - unfold get, bind, request, raise. cbn [fst snd]. rewrite Hr.
    cbn [status_code]. rewrite Hn. reflexivity.
  - unfold post, bind, request, raise. cbn [fst snd]. rewrite Hr.
    cbn [status_code]. rewrite Hn. reflexivity.
Qed.

(** X4.  With status 200 and a dict for a body: a code that is not zero is an
    error carrying the code and the message, unless the message is missing,
    which is a [KeyError]; a missing code and, under a zero code, a missing
    [data] are [KeyError]s too. *)
Theorem get_envelope_errors :
  forall (R : remote) (other_path : string) (kwargs : dict pyval) (w : world)
         (d : dict json),
    respond R (requests_sent w) (GET (url_of other_path) kwargs)
    = Ok {| status_code := 200; body := Ok d |} ->
    let outcome := fst (get R other_path kwargs w) in
    (dict_get "code" d = None -> outcome = Some (Raise (KeyError "code"))) /\
    (forall c, dict_get "code" d = Some c -> ne_zero c = true ->
       (forall m, dict_get "msg" d = Some m ->
          outcome = Some (Raise (GetCodeError c m (url_of other_path)))) /\
       (dict_get "msg" d = None -> outcome = Some (Raise (KeyError "msg")))) /\
    (forall c, dict_get "code" d = Some c -> ne_zero c = false ->
       dict_get "data" d = None -> outcome = Some (Raise (KeyError "data"))).
Proof.
  intros R path kw w d Hr outcome. subst outcome.
  unfold get, bind, request, raise, lift. cbn [fst snd]. rewrite Hr.
  cbn [status_code body Z.eqb Pos.eqb negb]. unfold dict_getitem.
  split; [intros ->; reflexivity|]. split.
  - intros c -> ->. split; [intros m ->; reflexivity | intros ->; reflexivity].
  - intros c -> -> ->. reflexivity.
Qed.

(** X5.  One call, one request: [get] and [post] send exactly one request
    each, to the base URL followed by the stripped path, whatever comes
    back; neither sends a second one. *)
Theorem gateway_sends_exactly_one_request :
  forall (R : remote) (other_path : string) (kwargs : dict pyval)
         (body_ : dict json) (w : world),
    events_since w (snd (get R other_path kwargs w))
    = [(clock w, GET (url_of other_path) kwargs)] /\
    events_since w (snd (post R other_path body_ w))
    = [(clock w, POST (url_of other_path) body_)] /\
    requests_sent (snd (get R other_path kwargs w)) = S (requests_sent w) /\
    requests_sent (snd (post R other_path body_ w)) = S (requests_sent w).
Proof.
  intros R path kw b w. rewrite get_world, post_world.
  repeat split; apply events_since_app; reflexivity.
Qed.

(* ================================================================== *)
(** ** [str.strip] and the URLs *)

Lemma list_ascii_of_string_app (s1 s2 : string) :
  list_ascii_of_string (s1 ++ s2) = list_ascii_of_string s1 ++ list_ascii_of_string s2.
Proof. induction s1 as [|c s1 IH]; [reflexivity|]. simpl. rewrite IH. reflexivity. Qed.

Lemma string_of_list_ascii_app (l1 l2 : list ascii) :
  string_of_list_ascii (l1 ++ l2)
  = (string_of_list_ascii l1 ++ string_of_list_ascii l2)%string.
Proof. induction l1 as [|c l1 IH]; [reflexivity|]. simpl. rewrite IH. reflexivity. Qed.

(** What [lstrip] leaves does not start with a stripped character. *)
Lemma lstrip_head (cs : list ascii) (b : bytes) :
  match lstrip cs b with
  | c :: _ => existsb (Ascii.eqb c) cs = false
  | [] => True
  end.
Proof.
  induction b as [|x b IH]; [exact I|]. simpl.
  destruct (existsb (Ascii.eqb x) cs) eqn:E; [exact IH | exact E].
Qed.

Lemma lstrip_suffix (cs : list ascii) (b : bytes) :
  exists pre, b = pre ++ lstrip cs b.
Proof.
  induction b as [|x b [pre IH]]; [exists []; reflexivity|]. simpl.
  destruct (existsb (Ascii.eqb x) cs).
  - exists (x :: pre). simpl. f_equal. exact IH.
  - exists []. reflexivity.
Qed.

Lemma lstrip_clean (cs : list ascii) (b : bytes) :
  match b with
  | c :: _ => existsb (Ascii.eqb c) cs = false
  | [] => True
  end ->
  lstrip cs b = b.
Proof. destruct b as [|c b]; [reflexivity|]. simpl. intros ->. reflexivity. Qed.

Lemma lstrip_app_last (cs : list ascii) (c : ascii) (b : bytes) :
  existsb (Ascii.eqb c) cs = true ->
  lstrip cs (b ++ [c])
  = match lstrip cs b with
    | [] => []
    | l => l ++ [c]
    end.
Proof.
  intros Hc. induction b as [|x b IH]; simpl.
  - rewrite Hc. reflexivity.
  - destruct (existsb (Ascii.eqb x) cs); [exact IH | reflexivity].
Qed.

Lemma strip_cons (chars : string) (c : ascii) (s : string) :
  existsb (Ascii.eqb c) (list_ascii_of_string chars) = true ->
  strip chars (String c s) = strip chars s.
Proof. intros Hc. unfold strip. simpl. rewrite Hc. reflexivity. Qed.

Lemma strip_app_last (chars : string) (c : ascii) (s : string) :
  existsb (Ascii.eqb c) (list_ascii_of_string chars) = true ->
  strip chars (s ++ String c EmptyString) = strip chars s.
Proof.
  intros Hc. unfold strip. rewrite list_ascii_of_string_app. simpl.
  rewrite lstrip_app_last by exact Hc.
  destruct (lstrip (list_ascii_of_string chars) (list_ascii_of_string s)) as [|x l];
    [reflexivity|].
  rewrite rev_app_distr. simpl. rewrite Hc. reflexivity.
Qed.

(** The two ends of a stripped string. *)
Lemma strip_ends (chars : string) (s : string) :
  let cs := list_ascii_of_string chars in
  let r := list_ascii_of_string (strip chars s) in
  match r with
  | c :: _ => existsb (Ascii.eqb c) cs = false
  | [] => True
  end /\
  match rev r with
  | c :: _ => existsb (Ascii.eqb c) cs = false
  | [] => True
  end.
Proof.
  intros cs r. subst r. unfold strip. fold cs.
  rewrite list_ascii_of_string_of_list_ascii.
  set (X := lstrip cs (list_ascii_of_string s)).
  pose proof (lstrip_head cs (list_ascii_of_string s)) as HX. fold X in HX.
  destruct (lstrip_suffix cs (rev X)) as [pre Hpre].
  set (T := lstrip cs (rev X)) in *.
  split.
  - assert (HXe : X = rev T ++ rev pre).
    { rewrite <- (rev_involutive X), Hpre, rev_app_distr. reflexivity. }
    destruct (rev T) as [|c t] eqn:E; [exact I|].
    rewrite HXe in HX. exact HX.
  - rewrite rev_involutive. apply lstrip_head.
Qed.

Lemma strip_idempotent (chars : string) (s : string) :
  strip chars (strip chars s) = strip chars s.
Proof.
  destruct (strip_ends chars s) as [Hhead Hlast]. cbn zeta in *.
  set (r := strip chars s) in *. unfold strip at 1.
  rewrite (@lstrip_clean _ (list_ascii_of_string r) Hhead).
  rewrite (@lstrip_clean _ (rev (list_ascii_of_string r)) Hlast), rev_involutive.
  apply string_of_list_ascii_of_string.
Qed.

(** X6.  The path of a URL is the given one without the slashes around it:
    slashes in front of it or behind it change nothing, and what follows
    the base URL and its slash neither begins nor ends with a slash. *)
Theorem url_of_ignores_slashes_around_the_path :
  forall other_path : string,
    url_of (String "/" other_path) = url_of other_path /\
    url_of (other_path ++ "/") = url_of other_path /\
    url_of (strip "/" other_path) = url_of other_path /\
    exists path,
      url_of other_path = (tx_base_url ++ "/" ++ path)%string /\
      (forall rest, path <> String "/" rest) /\
      (forall rest, path <> (rest ++ "/")%string).
Proof.
  intros p. unfold url_of.
  rewrite (@strip_cons "/" "/"%char p eq_refl).
  rewrite (@strip_app_last "/" "/"%char p eq_refl).
  rewrite strip_idempotent.
  repeat split; try reflexivity.
  exists (strip "/" p). split; [reflexivity|].
  destruct (strip_ends "/" p) as [Hhead Hlast]. cbn zeta in *.
  split; intros rest Heq; rewrite Heq in *.
  - simpl in Hhead. discriminate Hhead.
  - rewrite list_ascii_of_string_app, rev_app_distr in Hlast. simpl in Hlast.
    discriminate Hlast.
Qed.

(* ================================================================== *)
(** ** The quote request and the two submissions *)

(** X7.  The query [get_swap_route] sends, written out: the seven fields that are
    always there, in the order of the signature, with the caller's values
    and the signer's address where the caller gave no sender; then
    [is_anti_mev] when it is true, then [partner] when it is not empty.
    [self] is never among them. *)
Theorem swap_route_params_written_out :
  forall (signer_address_ : string) (a : swap_args),
    swap_route_params signer_address_ a
    = [ ("token_in_address", PJ (JStr (token_in_address a)));
        ("token_out_address", PJ (JStr (token_out_address a)));
        ("in_amount", PJ (JStr (in_amount a)));
        ("slippage", PJ (JFloat (slippage a)));
        ("swap_mode", PMode (swap_mode a));
        ("fee", PJ (JFloat (fee a)));
        ("from_address",
         PJ (JStr (if str_truthy (from_address a)
                   then str_or_empty (from_address a)
                   else signer_address_))) ]%string
      ++ (if is_anti_mev a then [("is_anti_mev", PJ (JBool true))]%string else [])
      ++ (if str_truthy (partner a)
          then [("partner", PJ (JStr (str_or_empty (partner a))))]%string
          else []).
Proof.
  intros addr a. unfold swap_route_params, locals.
  destruct (is_anti_mev a); destruct (partner a) as [[|c p]|];
    destruct (from_address a) as [[|c' f]|]; reflexivity.
Qed.

(** X8.  The fee is checked on one side only: [get_swap_route] sends no request
    exactly when the fee is above 5; a fee that is negative, minus infinity
    or not a number goes out like any other. *)
Theorem get_swap_route_sends_nothing_iff_fee_above_5 :
  forall (R : remote) (S : solders) (self : GMGNSolClient S) (a : swap_args)
         (w : world),
    events_since w (snd (get_swap_route R self a w)) = [] <->
    (fee a = PosInf \/ exists q, fee a = Fin q /\ (5 < q)%Q).
Proof.
  intros R S self a w. split.
  - intros Hev. rewrite get_swap_route_world in Hev.
    destruct (float_lt (Fin 5) (fee a)) eqn:E.
    + destruct (fee a) as [q| | |]; try discriminate E.
      * right. exists q. split; [reflexivity|]. apply float_lt_Fin_true. exact E.
      * left. reflexivity.
    + exfalso.
      erewrite events_since_app in Hev by reflexivity.
      discriminate Hev.
  - intros Hfee. rewrite get_swap_route_world.
    assert (Hgt : float_lt (Fin 5) (fee a) = true).
    { destruct Hfee as [-> | (q & -> & Hq)]; [reflexivity|].
      apply float_lt_Fin_true. exact Hq. }
    rewrite Hgt. apply events_since_app. rewrite app_nil_r. reflexivity.
Qed.

(* ================================================================== *)
(** ** More on the polling loop *)

Lemma steps_with_refl P w : steps_with P w w.
Proof. exists []. rewrite app_nil_r. split; [reflexivity | constructor]. Qed.

Lemma steps_with_trans P w1 w2 w3 :
  steps_with P w1 w2 -> steps_with P w2 w3 -> steps_with P w1 w3.
Proof.
  intros (a & Ha & Hpa) (b & Hb & Hpb). exists (a ++ b).
  rewrite Hb, Ha, app_assoc. split; [reflexivity | apply Forall_app; split; assumption].
Qed.

Lemma steps_with_one (P : Q * event -> Prop) w w' ev :
  trace w' = record_event ev w -> P (clock w, ev) -> steps_with P w w'.
Proof.
  intros Ht Hp. exists [(clock w, ev)]. split; [exact Ht|].
  constructor; [exact Hp | constructor].
Qed.

Lemma steps_with_events P w w' :
  steps_with P w w' -> Forall P (events_since w w').
Proof. intros (new & Hnew & Hp). rewrite (@events_since_app w w' new Hnew). exact Hp. Qed.

Section Polling.
Variable R : remote.
Variables hash last_valid_height : json.
Variable fetch_interval_seconds : Q.
Variable timeout_seconds : pyfloat.

Lemma wait_loop_raises_only_the_timeout fuel : forall start_time w e,
  fst (wait_loop R fuel start_time hash last_valid_height
                 fetch_interval_seconds timeout_seconds w) = Some (Raise e) ->
  e = StatusNotFound hash timeout_seconds \/ is_exception e = false.
Proof.
  induction fuel as [|fuel IH]; intros start_time w e H.
  - discriminate H.
  - rewrite wait_loop_step in H.
    destruct (float_lt (Fin (elapsed start_time w)) timeout_seconds).
    + destruct (attempt R hash last_valid_height (requests_sent w)) as [[st|]|x].
      * discriminate H.
      * eapply IH. exact H.
      * destruct (is_exception x) eqn:Ex; [eapply IH; exact H|].
        injection H as <-. right. exact Ex.
    + injection H as <-. left. reflexivity.
Qed.

Lemma wait_loop_events fuel : forall start_time w,
  steps_with (poll_event start_time hash last_valid_height
                         fetch_interval_seconds timeout_seconds)
             w
             (snd (wait_loop R fuel start_time hash last_valid_height
                             fetch_interval_seconds timeout_seconds w)).
Proof.
  induction fuel as [|fuel IH]; intros start_time w.
  - apply steps_with_refl.
  - rewrite wait_loop_step.
    destruct (float_lt (Fin (elapsed start_time w)) timeout_seconds) eqn:Et;
      [|apply steps_with_refl].
    assert (Hq : steps_with (poll_event start_time hash last_valid_height
                                        fetch_interval_seconds timeout_seconds)
                            w (after_request R (status_query hash last_valid_height) w)).
    { eapply steps_with_one; [reflexivity|]. left. split; [reflexivity | exact Et]. }
    destruct (attempt R hash last_valid_height (requests_sent w)) as [[st|]|e].
    + exact Hq.
    + eapply steps_with_trans; [|apply IH].
      eapply steps_with_trans; [exact Hq|].
      eapply steps_with_one; [reflexivity|]. right. left. reflexivity.
    + destruct (is_exception e); [|exact Hq].
      eapply steps_with_trans; [|apply IH].
      eapply steps_with_trans; [exact Hq|].
      apply steps_with_trans
        with (w2 := after_log e (after_request R (status_query hash last_valid_height) w)).
      * eapply steps_with_one; [reflexivity|]. right. right. exists e. reflexivity.
      * eapply steps_with_one; [reflexivity|]. right. left. reflexivity.
Qed.

Lemma wait_loop_counts fuel : forall start_time w,
  let run := wait_loop R fuel start_time hash last_valid_height
                       fetch_interval_seconds timeout_seconds w in
  requests_sent (snd run) + sleeps_done w
  = sleeps_done (snd run) + requests_sent w
    + match fst run with
      | Some (Ok _) => 1
      | Some (Raise e) => if is_exception e then 0 else 1
      | None => 0
      end.
Proof.
  induction fuel as [|fuel IH]; intros start_time w; cbn zeta.
  - simpl. lia.
  - rewrite wait_loop_step.
    destruct (float_lt (Fin (elapsed start_time w)) timeout_seconds);
      [|simpl; lia].
    destruct (attempt R hash last_valid_height (requests_sent w)) as [[st|]|e].
    + simpl. lia.
    + match goal with
      | |- context [wait_loop R fuel start_time _ _ _ _ ?w1] =>
        specialize (IH start_time w1); cbn zeta in IH; simpl in IH |- *; lia
      end.
    + destruct (is_exception e) eqn:Ex; [|simpl; rewrite Ex; lia].
      match goal with
      | |- context [wait_loop R fuel start_time _ _ _ _ ?w1] =>
        specialize (IH start_time w1); cbn zeta in IH; simpl in IH |- *; lia
      end.
Qed.
End Polling.

(** X9.  The only [Exception] [wait_tx_status] raises is its own time-out:
    an [Exception] of a status query never reaches the caller.  Whatever
    else leaves the call is no [Exception] (a cancellation, a keyboard
    interrupt), which [except Exception] lets through. *)
Theorem wait_tx_status_raises_only_the_timeout :
  forall (R : remote) (fuel : nat) (hash last_valid_height : json)
         (fetch_interval_seconds : Q) (timeout_seconds : pyfloat)
         (w : world) (e : exn),
    fst (wait_tx_status R fuel hash last_valid_height
                        fetch_interval_seconds timeout_seconds w)
    = Some (Raise e) ->
    e = StatusNotFound hash timeout_seconds \/ is_exception e = false.
Proof.
  intros R fuel hash lvh interval timeout w e H.
  rewrite wait_tx_status_unfold in H.
  eapply wait_loop_raises_only_the_timeout. exact H.
Qed.

(** X10.  Everything [wait_tx_status] does is: ask for the status of the given
    hash and height, at a moment before the deadline; sleep for the given
    interval; log an exception.  It sends no other request. *)
Theorem wait_tx_status_only_polls :
  forall (R : remote) (fuel : nat) (hash last_valid_height : json)
         (fetch_interval_seconds : Q) (timeout_seconds : pyfloat) (w : world),
    Forall (poll_event (clock w) hash last_valid_height
                       fetch_interval_seconds timeout_seconds)
           (events_since w
              (snd (wait_tx_status R fuel hash last_valid_height
                                   fetch_interval_seconds timeout_seconds w))).
Proof.
  intros R fuel hash lvh interval timeout w.
  rewrite wait_tx_status_unfold. apply steps_with_events, wait_loop_events.
Qed.

(** X11.  A sleep follows every query but the one that ends the call: a call
    that returns a status, or that is left by something a query raised
    that is no [Exception], has sent one query more than it has slept; a
    call that times out has sent as many. *)
Theorem wait_tx_status_sleeps_after_every_unfinished_query :
  forall (R : remote) (fuel : nat) (hash last_valid_height : json)
         (fetch_interval_seconds : Q) (timeout_seconds : pyfloat) (w : world),
    let run := wait_tx_status R fuel hash last_valid_height
                              fetch_interval_seconds timeout_seconds w in
    let queries := requests_sent (snd run) - requests_sent w in
    let naps := sleeps_done (snd run) - sleeps_done w in
    requests_sent w <= requests_sent (snd run) /\
    sleeps_done w <= sleeps_done (snd run) /\
    queries = naps + match fst run with
                     | Some (Ok _) => 1
                     | Some (Raise e) => if is_exception e then 0 else 1
                     | None => 0
                     end.
Proof.
  intros R fuel hash lvh interval timeout w run queries naps.
  subst queries naps run. rewrite wait_tx_status_unfold.
  pose proof (wait_loop_counts R hash lvh interval timeout fuel (clock w) w) as Hc.
  cbn zeta in Hc.
  assert (Hmono : forall f s w0,
            requests_sent w0
            <= requests_sent (snd (wait_loop R f s hash lvh interval timeout w0)) /\
            sleeps_done w0
            <= sleeps_done (snd (wait_loop R f s hash lvh interval timeout w0))).
  { induction f as [|f IH]; intros s w0; [simpl; lia|].
    rewrite wait_loop_step.
    destruct (float_lt (Fin (elapsed s w0)) timeout); [|simpl; lia].
    destruct (attempt R hash lvh (requests_sent w0)) as [[st|]|e].
    - simpl. lia.
    - match goal with
      | |- context [wait_loop R f s _ _ _ _ ?w1] =>
        specialize (IH s w1); simpl in IH |- *; lia
      end.
    - destruct (is_exception e); [|simpl; lia].
      match goal with
      | |- context [wait_loop R f s _ _ _ _ ?w1] =>
        specialize (IH s w1); simpl in IH |- *; lia
      end. }
  destruct (Hmono fuel (clock w) w) as [Hr Hs].
  split; [exact Hr|]. split; [exact Hs|]. lia.
Qed.

(* ================================================================== *)
(** ** Deadlines *)

Lemma float_lt_Fin_eq a b t : (a == b)%Q -> float_lt (Fin a) t = float_lt (Fin b) t.
Proof.
  intros Heq. destruct t as [q| | |]; try reflexivity. simpl. unfold Qltb.
  rewrite Heq. reflexivity.
Qed.

Lemma elapsed_at_start w : (elapsed (clock w) w == 0)%Q.
Proof. unfold elapsed. ring. Qed.

(** X12.  A timeout that is zero, negative, minus infinity or not a number leaves
    no time for a single query: [wait_tx_status] raises its time-out at
    once and the world is untouched. *)
Theorem wait_tx_status_without_time_asks_nothing :
  forall (R : remote) (fuel : nat) (hash last_valid_height : json)
         (fetch_interval_seconds : Q) (timeout_seconds : pyfloat) (w : world),
    (timeout_seconds = NaN \/ timeout_seconds = NegInf \/
     exists q, timeout_seconds = Fin q /\ (q <= 0)%Q) ->
    1 <= fuel ->
    wait_tx_status R fuel hash last_valid_height
                   fetch_interval_seconds timeout_seconds w
    = (Some (Raise (StatusNotFound hash timeout_seconds)), w).
Proof.
  intros R fuel hash lvh interval timeout w Ht Hfuel.
  destruct fuel as [|fuel]; [lia|].
  rewrite wait_tx_status_unfold. apply wait_loop_deadline.
  rewrite (float_lt_Fin_eq _ (elapsed_at_start w)).
  destruct Ht as [-> | [-> | (q & -> & Hq)]]; try reflexivity.
  apply float_lt_Fin_false. exact Hq.
Qed.

(** X13.  With an infinite timeout [wait_tx_status] raises no [Exception] at
    all, not even its own time-out: it returns a terminal status or keeps
    polling, and what leaves it otherwise is no [Exception] (a
    cancellation, a keyboard interrupt). *)
Theorem wait_tx_status_without_deadline_never_raises :
  forall (R : remote) (fuel : nat) (hash last_valid_height : json)
         (fetch_interval_seconds : Q) (w : world) (e : exn),
    fst (wait_tx_status R fuel hash last_valid_height
                        fetch_interval_seconds PosInf w)
    = Some (Raise e) ->
    is_exception e = false.
Proof.
  intros R fuel hash lvh interval w e. rewrite wait_tx_status_unfold.
  generalize (clock w) as start_time. revert w.
  induction fuel as [|fuel IH]; intros w start_time.
  - discriminate.
  - rewrite wait_loop_step. cbn [float_lt].
    destruct (attempt R hash lvh (requests_sent w)) as [[st|]|x].
    + discriminate.
    + apply IH.
    + destruct (is_exception x) eqn:Ex; [apply IH|].
      intros H. injection H as <-. exact Ex.
Qed.

Lemma inject_nat_succ (n : nat) (i : Q) :
  (inject_Z (Z.of_nat (S n)) * i == inject_Z (Z.of_nat n) * i + i)%Q.
Proof.
  rewrite Nat2Z.inj_succ. unfold Z.succ. rewrite inject_Z_plus. ring.
Qed.

Lemma wait_loop_ends_within (R : remote) (hash lvh : json) (interval T : Q) :
  sane_timing R -> (0 < interval)%Q ->
  forall (n fuel : nat) (start_time : Q) (w : world),
    (T - elapsed start_time w <= inject_Z (Z.of_nat n) * interval)%Q ->
    n < fuel ->
    exists r w',
      wait_loop R fuel start_time hash lvh interval (Fin T) w = (Some r, w') /\
      requests_sent w' <= requests_sent w + n.
Proof.
  intros Hs Hi. induction n as [|n IH]; intros fuel start_time w Hleft Hfuel;
    (destruct fuel as [|fuel]; [lia|]); rewrite wait_loop_step.
  - assert (Hlate : float_lt (Fin (elapsed start_time w)) (Fin T) = false).
    { apply float_lt_Fin_false. change (inject_Z (Z.of_nat 0)) with 0%Q in Hleft. lra. }
    rewrite Hlate. eexists. eexists. split; [reflexivity | lia].
  - destruct (float_lt (Fin (elapsed start_time w)) (Fin T)).
    2: { eexists. eexists. split; [reflexivity | lia]. }
    pose proof (proj1 (Hs (requests_sent w))) as Hl.
    pose proof (proj2 (Hs (sleeps_done w))) as Ho.
    pose proof (inject_nat_succ n interval) as Hsucc.
    destruct (attempt R hash lvh (requests_sent w)) as [[st|]|e].
    + eexists. eexists. split; [reflexivity|]. simpl. lia.
    + match goal with
      | |- context [wait_loop R fuel start_time _ _ _ _ ?w1] =>
        destruct (IH fuel start_time w1) as (r & w' & Hrun & Hreq)
      end.
      * unfold elapsed in *. cbn [clock after_sleep after_request sleeps_done].
        rewrite (delay_positive Hi). lra.
      * lia.
      * exists r, w'. split; [exact Hrun|]. simpl in Hreq. lia.
    + destruct (is_exception e).
      2: { eexists. eexists. split; [reflexivity|]. simpl. lia. }
      match goal with
      | |- context [wait_loop R fuel start_time _ _ _ _ ?w1] =>
        destruct (IH fuel start_time w1) as (r & w' & Hrun & Hreq)
      end.
      * unfold elapsed in *.
        cbn [clock after_sleep after_log after_request sleeps_done].
        rewrite (delay_positive Hi). lra.
      * lia.
      * exists r, w'. split; [exact Hrun|]. simpl in Hreq. lia.
Qed.

(** X14.  [wait_tx_status] comes to an end: with a positive interval and a finite
    timeout that [n] intervals cover, it returns or raises after at most
    [n] queries. *)
Theorem wait_tx_status_ends_within_the_timeout :
  forall (R : remote) (hash last_valid_height : json)
         (fetch_interval_seconds timeout_seconds : Q) (w : world) (n fuel : nat),
    sane_timing R ->
    (0 < fetch_interval_seconds)%Q ->
    (timeout_seconds <= inject_Z (Z.of_nat n) * fetch_interval_seconds)%Q ->
    n < fuel ->
    exists r w',
      wait_tx_status R fuel hash last_valid_height
                     fetch_interval_seconds (Fin timeout_seconds) w
      = (Some r, w') /\
      requests_sent w' <= requests_sent w + n.
Proof.
  intros R hash lvh interval T w n fuel Hs Hi Hcover Hfuel.
  rewrite wait_tx_status_unfold.
  apply wait_loop_ends_within; try assumption.
  pose proof (elapsed_at_start w). lra.
Qed.

(* ================================================================== *)
(** ** The status test *)

(** X15.  The test [status['success'] or status['failed'] or status['expired']]
    reads the flags from left to right and stops at the first true one: a
    true [success] makes the status terminal whatever follows it, even when
    later flags are missing; so does a true [failed] after a false
    [success]; after two false flags the test is what [expired] is.  A
    flag that is looked up and cannot be read raises what the lookup raises
    (a [KeyError] for a missing flag).  The status is pending exactly when
    all three flags are there and false. *)
Theorem is_terminal_reads_flags_left_to_right :
  forall status : json,
    (forall s, getitem status "success" = Ok s -> truthy s = true ->
       is_terminal status = Ok true) /\
    (forall s f, getitem status "success" = Ok s -> truthy s = false ->
       getitem status "failed" = Ok f -> truthy f = true ->
       is_terminal status = Ok true) /\
    (forall s f x, getitem status "success" = Ok s -> truthy s = false ->
       getitem status "failed" = Ok f -> truthy f = false ->
       getitem status "expired" = Ok x ->
       is_terminal status = Ok (truthy x)) /\
    (forall e, getitem status "success" = Raise e -> is_terminal status = Raise e) /\
    (forall s e, getitem status "success" = Ok s -> truthy s = false ->
       getitem status "failed" = Raise e -> is_terminal status = Raise e) /\
    (forall s f e, getitem status "success" = Ok s -> truthy s = false ->
       getitem status "failed" = Ok f -> truthy f = false ->
       getitem status "expired" = Raise e -> is_terminal status = Raise e) /\
    (forall key, getitem status key = Raise (KeyError key) \/
                 getitem status key = Raise TypeError \/
                 exists v, getitem status key = Ok v) /\
    (is_terminal status = Ok false <->
     exists s f x,
       getitem status "success" = Ok s /\ truthy s = false /\
       getitem status "failed" = Ok f /\ truthy f = false /\
       getitem status "expired" = Ok x /\ truthy x = false).
Proof.
  intros status. unfold is_terminal, rbind.
  split; [intros s -> ->; reflexivity|].
  split; [intros s f -> -> -> ->; reflexivity|].
  split; [intros s f x -> -> -> -> ->; reflexivity|].
  split; [intros e ->; reflexivity|].
  split; [intros s e -> -> ->; reflexivity|].
  split; [intros s f e -> -> -> -> ->; reflexivity|].
  split.
  { intros key. unfold getitem, dict_getitem.
    destruct status; auto.
    destruct (dict_get key fields) as [v|]; eauto. }
  split.
  - destruct (getitem status "success") as [s|e]; [|discriminate].
    destruct (truthy s) eqn:Ts; [discriminate|].
    destruct (getitem status "failed") as [f|e]; [|discriminate].
    destruct (truthy f) eqn:Tf; [discriminate|].
    destruct (getitem status "expired") as [x|e]; [|discriminate].
    intros H. injection H as Hx. exists s, f, x. repeat split; assumption.
  - intros (s & f & x & -> & -> & -> & -> & -> & ->). reflexivity.
Qed.

(** What subscripting raises is an [Exception]. *)
Lemma getitem_raises_exception v k e :
  getitem v k = Raise e -> is_exception e = true.
Proof.
  unfold getitem, dict_getitem.
  destruct v; try (intros H; injection H as <-; reflexivity).
  destruct (dict_get k fields); [discriminate|].
  intros H; injection H as <-; reflexivity.
Qed.

Lemma is_terminal_raises_exception status e :
  is_terminal status = Raise e -> is_exception e = true.
Proof.
  unfold is_terminal, rbind.
  destruct (getitem status "success") as [s|x] eqn:Es.
  2: { intros H. injection H as <-. eapply getitem_raises_exception. exact Es. }
  destruct (truthy s); [discriminate|].
  destruct (getitem status "failed") as [f|x] eqn:Ef.
  2: { intros H. injection H as <-. eapply getitem_raises_exception. exact Ef. }
  destruct (truthy f); [discriminate|].
  destruct (getitem status "expired") as [y|x] eqn:Ey; [discriminate|].
  intros H. injection H as <-. eapply getitem_raises_exception. exact Ey.
Qed.

(** X16.  A status that arrives in a success envelope but whose test raises (a
    flag is missing, the status is not an object) is treated like a failed
    query: the exception is logged, the loop sleeps and asks again. *)
Theorem wait_tx_status_logs_a_malformed_status :
  forall (R : remote) (fuel : nat) (hash last_valid_height : json)
         (fetch_interval_seconds : Q) (timeout_seconds : pyfloat)
         (w : world) (status : json) (e : exn),
    delivers (respond R (requests_sent w) (status_query hash last_valid_height))
             status ->
    is_terminal status = Raise e ->
    float_lt (Fin 0) timeout_seconds = true ->
    wait_tx_status R (S fuel) hash last_valid_height
                   fetch_interval_seconds timeout_seconds w
    = wait_loop R fuel (clock w) hash last_valid_height
                fetch_interval_seconds timeout_seconds
                (after_sleep R fetch_interval_seconds
                   (after_log e
                      (after_request R (status_query hash last_valid_height) w))).
Proof.
  intros R fuel hash lvh interval timeout w status e Hd He Ht.
  rewrite wait_tx_status_unfold, wait_loop_step.
  rewrite (float_lt_Fin_eq _ (elapsed_at_start w)), Ht.
  erewrite attempt_delivers by exact Hd. rewrite He. cbn [rbind].
  rewrite (is_terminal_raises_exception _ He). reflexivity.
Qed.

(* ================================================================== *)
(** ** The orchestrator, step by step *)

Lemma get_delivers_run (R : remote) path kw w data :
  delivers (respond R (requests_sent w) (GET (url_of path) kw)) data ->
  get R path kw w = (Some (Ok data), after_request R (GET (url_of path) kw) w).
Proof.
  intros (r & d & c & Hr & Hs & Hb & Hc & Hz & Hd).
  unfold get, bind, request, raise, lift. rewrite Hr, Hs.
  cbn [Z.eqb Pos.eqb negb]. rewrite Hb. unfold dict_getitem.
  rewrite Hc, Hz, Hd. reflexivity.
Qed.

Lemma wait_loop_monotone (R : remote) hash lvh interval timeout fuel :
  forall start_time w,
    requests_sent w
    <= requests_sent (snd (wait_loop R fuel start_time hash lvh interval timeout w)) /\
    sleeps_done w
    <= sleeps_done (snd (wait_loop R fuel start_time hash lvh interval timeout w)).
Proof.
  induction fuel as [|fuel IH]; intros s w; [simpl; lia|].
  rewrite wait_loop_step.
  destruct (float_lt (Fin (elapsed s w)) timeout); [|simpl; lia].
  destruct (attempt R hash lvh (requests_sent w)) as [[st|]|e].
  - simpl. lia.
  - match goal with
    | |- context [wait_loop R fuel s _ _ _ _ ?w1] =>
      specialize (IH s w1); simpl in IH |- *; lia
    end.
  - destruct (is_exception e); [|simpl; lia].
    match goal with
    | |- context [wait_loop R fuel s _ _ _ _ ?w1] =>
      specialize (IH s w1); simpl in IH |- *; lia
    end.
Qed.

Section Orchestrator.
Variable R : remote.
Variable S : solders.
Variable self : GMGNSolClient S.

Lemma prepare_ok a w quote signed_tx lvh w1 :
  prepare R self a w = (Some (Ok (quote, signed_tx, lvh)), w1) ->
  float_lt (Fin 5) (fee a) = false /\
  w1 = after_request R (GET route_url (swap_route_params (signer_address self) a)) w.
Proof.
  intros Hp. pose proof (prepare_world R self a w) as Hw.
  rewrite Hp, get_swap_route_world in Hw. cbn [snd] in Hw.
  destruct (float_lt (Fin 5) (fee a)) eqn:E; [|split; [reflexivity | exact Hw]].
  exfalso. unfold prepare, get_swap_route, bind, raise in Hp. rewrite E in Hp.
  discriminate Hp.
Qed.
End Orchestrator.

(** X17.  When [swap] returns, the status it returns is terminal, exactly one
    submission was sent, on the path of the requested mode, and at least
    three requests went out: the quote, the submission and a status
    query. *)
Theorem swap_returns_after_quote_submission_and_terminal_status :
  forall (R : remote) (S : solders) (self : GMGNSolClient S) (fuel : nat)
         (a : swap_args) (interval : Q) (timeout : pyfloat) (w w' : world)
         (quote sub_resp status : json),
    swap R self fuel a interval timeout w = (Some (Ok (quote, sub_resp, status)), w') ->
    is_terminal status = Ok true /\
    posts_to (if is_anti_mev a then relay_url else direct_url) (events_since w w') = 1 /\
    posts_to (if is_anti_mev a then direct_url else relay_url) (events_since w w') = 0 /\
    requests_sent w + 3 <= requests_sent w'.
Proof.
  intros R S self fuel a interval timeout w w' quote sub status Hswap.
  pose proof (swap_events R self fuel a interval timeout w) as Hev.
  cbn zeta in Hev. rewrite Hswap in Hev. cbn [snd] in Hev.
  rewrite swap_unfold in Hswap.
  destruct (prepare R self a w) as [[[[[q signed] lvh]|e]|] w1] eqn:Hp;
    try discriminate Hswap.
  destruct (@prepare_ok R S self a w q signed lvh w1 Hp) as [_ Hw1].
  pose proof (submit_world R self (is_anti_mev a) signed w1) as Hw2.
  destruct (submit R self (is_anti_mev a) signed w1) as [[[[sr h]|e]|] w2];
    try discriminate Hswap.
  cbn [snd] in Hw2.
  rewrite wait_tx_status_unfold in Hswap.
  pose proof (wait_loop_counts R h lvh interval timeout fuel (clock w2) w2) as Hc.
  pose proof (wait_loop_monotone R h lvh interval timeout fuel (clock w2) w2) as Hm.
  cbn zeta in Hc.
  destruct (wait_loop R fuel (clock w2) h lvh interval timeout w2)
    as [[[st|e]|] w3] eqn:Hwait; try discriminate Hswap.
  injection Hswap as <- <- <- <-. cbn [fst snd] in Hc, Hm.
  split; [eapply wait_loop_returns_terminal; exact Hwait|].
  assert (Hreq : requests_sent w + 3 <= requests_sent w3).
  { subst w2 w1. cbn [requests_sent after_request] in *. lia. }
  destruct Hev as [[_ Hno] | (q' & s' & l' & w1' & pre & poll & Hp' & Hnew & Hpre & Hpoll)].
  - exfalso. exact (Hno _ _ _ _ eq_refl).
  - injection Hp' as <- <- <- <-.
    destruct (posts_to_submission self (is_anti_mev a) signed (clock w1)) as [Hr Hd].
    rewrite Hnew, !posts_to_app, !(no_post_posts_to _ Hpre), !(no_post_posts_to _ Hpoll).
    destruct (is_anti_mev a); rewrite ?Hr, ?Hd; repeat split; try lia; exact Hreq.
Qed.

(** X18.  With a fee above 5, [swap] does nothing: it raises the fee exception
    and the world is as before; nothing is signed, submitted or polled. *)
Theorem swap_with_fee_above_5_does_nothing :
  forall (R : remote) (S : solders) (self : GMGNSolClient S) (fuel : nat)
         (a : swap_args) (interval : Q) (timeout : pyfloat) (w : world),
    (fee a = PosInf \/ exists q, fee a = Fin q /\ (5 < q)%Q) ->
    swap R self fuel a interval timeout w = (Some (Raise FeeTooLarge), w).
Proof.
  intros R S self fuel a interval timeout w Hfee.
  assert (Hgt : float_lt (Fin 5) (fee a) = true).
  { destruct Hfee as [-> | (q & -> & Hq)]; [reflexivity|].
    apply float_lt_Fin_true. exact Hq. }
  rewrite swap_unfold. unfold prepare, get_swap_route, bind, raise.
  rewrite Hgt. reflexivity.
Qed.

(** X19.  A quote that cannot be used stops [swap] before anything is submitted:
    when the quote lacks [raw_tx], or [raw_tx] lacks [swapTransaction], or
    the transaction cannot be signed, or [raw_tx] lacks
    [lastValidBlockHeight], [swap] raises that very exception and the quote
    request is the only request it has sent. *)
Theorem swap_stops_at_an_unusable_quote :
  forall (R : remote) (S : solders) (self : GMGNSolClient S) (fuel : nat)
         (a : swap_args) (interval : Q) (timeout : pyfloat) (w : world)
         (quote : json) (e : exn),
    let route := GET route_url (swap_route_params (signer_address self) a) in
    float_lt (Fin 5) (fee a) = false ->
    delivers (respond R (requests_sent w) route) quote ->
    (getitem quote "raw_tx" = Raise e \/
     exists raw_tx,
       getitem quote "raw_tx" = Ok raw_tx /\
       (getitem raw_tx "swapTransaction" = Raise e \/
        exists unsigned_tx,
          getitem raw_tx "swapTransaction" = Ok unsigned_tx /\
          (sign_raw_tx self unsigned_tx = Raise e \/
           exists signed_tx,
             sign_raw_tx self unsigned_tx = Ok signed_tx /\
             getitem raw_tx "lastValidBlockHeight" = Raise e))) ->
    swap R self fuel a interval timeout w = (Some (Raise e), after_request R route w) /\
    events_since w (snd (swap R self fuel a interval timeout w)) = [(clock w, route)].
Proof.
  intros R S self fuel a interval timeout w quote e route Hfee Hd Hbad.
  assert (Hrun : swap R self fuel a interval timeout w
                 = (Some (Raise e), after_request R route w)).
  { rewrite swap_unfold. unfold prepare, get_swap_route.
    rewrite Hfee. unfold bind at 1.
    change (url_of "sol/tx/get_swap_route") with route_url in Hd |- *.
    unfold route, route_url in Hd |- *. erewrite get_delivers_run by exact Hd.
    unfold bind, lift, ret.
    destruct Hbad as [-> | (raw & -> & [-> | (u & -> & [-> | (s & -> & ->)])])];
      reflexivity. }
  split; [exact Hrun|]. rewrite Hrun. apply events_since_app. reflexivity.
Qed.

(** X20.  The order of a [swap]: first the quote request, then the submission,
    then nothing but the polling of [wait_tx_status].  Nothing is submitted
    before the quote has been asked for, and no status is asked for before
    the submission. *)
Theorem swap_asks_then_submits_then_polls :
  forall (R : remote) (S : solders) (self : GMGNSolClient S) (fuel : nat)
         (a : swap_args) (interval : Q) (timeout : pyfloat) (w : world),
    let new := events_since w (snd (swap R self fuel a interval timeout w)) in
    let route := GET route_url (swap_route_params (signer_address self) a) in
    new = [] \/
    new = [(clock w, route)] \/
    exists signed_tx t tx_hash last_valid_height poll,
      new = (clock w, route)
              :: (t, submission self (is_anti_mev a) signed_tx) :: poll /\
      Forall (poll_event (t + latency R (requests_sent w + 1))%Q
                         tx_hash last_valid_height interval timeout) poll.
Proof.
  intros R S self fuel a interval timeout w new route. subst new.
  rewrite swap_unfold.
  pose proof (prepare_world R self a w) as Hw1.
  rewrite get_swap_route_world in Hw1.
  destruct (prepare R self a w) as [[[[[q signed] lvh]|e]|] w1] eqn:Hp;
    cbn [snd] in Hw1.
  2,3: destruct (float_lt (Fin 5) (fee a)); subst w1; cbn [snd];
       [ left; apply events_since_app; rewrite app_nil_r; reflexivity
       | right; left; apply events_since_app; reflexivity ].
  destruct (@prepare_ok R S self a w q signed lvh w1 Hp) as [Hfee _].
  rewrite Hfee in Hw1. fold route in Hw1.
  pose proof (submit_world R self (is_anti_mev a) signed w1) as Hw2.
  assert (Ht2 : trace (after_request R (submission self (is_anti_mev a) signed) w1)
                = trace w ++ [(clock w, route);
                              (clock w1, submission self (is_anti_mev a) signed)]).
  { rewrite Hw1. cbn [trace after_request]. unfold record_event.
    cbn [trace after_request]. unfold record_event.
    rewrite <- app_assoc. reflexivity. }
  right. right. exists signed, (clock w1).
  destruct (submit R self (is_anti_mev a) signed w1) as [[[[sr h]|e]|] w2];
    cbn [snd] in Hw2; subst w2.
  2,3: exists JNull, JNull, []; split; [|constructor]; cbn [snd];
       apply events_since_app; rewrite Ht2; reflexivity.
  exists h, lvh.
  rewrite wait_tx_status_unfold.
  set (w2 := after_request R (submission self (is_anti_mev a) signed) w1) in *.
  destruct (wait_loop_events R h lvh interval timeout fuel (clock w2) w2)
    as (poll & Hpoll & Hall).
  assert (Hclock : clock w2 = (clock w1 + latency R (requests_sent w + 1))%Q).
  { unfold w2. rewrite Hw1. cbn [clock after_request requests_sent].
    rewrite Nat.add_1_r. reflexivity. }
  rewrite Hclock in Hall.
  exists poll. split; [|exact Hall].
  destruct (wait_loop R fuel (clock w2) h lvh interval timeout w2) as [[[st|e]|] w3];
    cbn [snd] in *; apply events_since_app; rewrite Hpoll, Ht2, <- app_assoc;
    reflexivity.
Qed.

(* ================================================================== *)
(** ** Signing *)

Lemma b2a_ascii (n : N) : in_range 0 127 (b2a n) = true.
Proof.
  destruct (N.ltb n 64) eqn:E.
  - apply N.ltb_lt in E. apply sextets_complete in E.
    assert (Hall : forallb (fun m => in_range 0 127 (b2a m)) sextets = true)
      by (vm_compute; reflexivity).
    rewrite forallb_forall in Hall. apply Hall. exact E.
  - apply N.ltb_ge in E. unfold b2a. rewrite nth_overflow; [reflexivity|].
    change (List.length table_b2a_base64) with 64. lia.
Qed.

Lemma b64encode_ascii (data : bytes) :
  forallb (in_range 0 127) (b64encode data) = true.
Proof.
  induction data as [|x|x y|x y z rest IH] using list_ind3;
    cbn [b64encode forallb]; rewrite ?b2a_ascii, ?IH; reflexivity.
Qed.

Lemma utf8_valid_ascii (b : bytes) :
  forallb (in_range 0 127) b = true -> utf8_valid b = true.
Proof.
  induction b as [|c b IH]; [reflexivity|]. cbn [forallb utf8_valid].
  intros H. apply andb_true_iff in H. destruct H as [Hc Hb].
  rewrite Hc. apply IH. exact Hb.
Qed.

(** X21.  [sign_raw_tx] takes a base64 [str] and gives one back.  Given a JSON
    value that is not a string (the [None], boolean, number, list or object
    a quote can hold where the transaction should be) it raises
    [TypeError]; when decoding, parsing and signing succeed it succeeds
    (its own final decoding cannot fail), and its result decodes to the
    bytes of the signed transaction. *)
Theorem sign_raw_tx_returns_the_signed_bytes_in_base64 :
  forall (S : solders) (self : GMGNSolClient S) (base64_tx : json),
    match base64_tx with
    | JStr _ => True
    | _ => sign_raw_tx self base64_tx = Raise TypeError
    end /\
    (forall tx_bytes tx signed_tx,
       b64decode_obj base64_tx = Ok tx_bytes ->
       from_bytes S tx_bytes = Ok tx ->
       new_tx S (message S tx) [signer self] = Ok signed_tx ->
       exists out,
         sign_raw_tx self base64_tx = Ok out /\
         b64decode_obj (JStr out) = Ok (to_bytes S signed_tx)) /\
    (forall out,
       sign_raw_tx self base64_tx = Ok out ->
       exists tx_bytes tx signed_tx,
         b64decode_obj base64_tx = Ok tx_bytes /\
         from_bytes S tx_bytes = Ok tx /\
         new_tx S (message S tx) [signer self] = Ok signed_tx /\
         b64decode_obj (JStr out) = Ok (to_bytes S signed_tx)).
Proof.
  intros S self tx.
  assert (Hout : forall signed,
            decode_utf8 (b64encode (to_bytes S signed))
            = Ok (string_of_list_ascii (b64encode (to_bytes S signed))) /\
            b64decode_obj (JStr (string_of_list_ascii (b64encode (to_bytes S signed))))
            = Ok (to_bytes S signed)).
  { intros signed. split.
    - unfold decode_utf8.
      rewrite (utf8_valid_ascii _ (b64encode_ascii (to_bytes S signed))).
      reflexivity.
    - unfold b64decode_obj, encode_utf8.
      rewrite list_ascii_of_string_of_list_ascii, b64encode_ascii.
      apply b64decode_b64encode. }
  split; [destruct tx; try reflexivity; exact I|]. split.
  - intros tx_bytes t signed Hb Hf Hn.
    exists (string_of_list_ascii (b64encode (to_bytes S signed))).
    destruct (Hout signed) as [Hdec Hback]. split; [|exact Hback].
    unfold sign_raw_tx, rbind. rewrite Hb, Hf, Hn. exact Hdec.
  - intros out Hsign. unfold sign_raw_tx, rbind in Hsign.
    destruct (b64decode_obj tx) as [tx_bytes|e]; [|discriminate Hsign].
    destruct (from_bytes S tx_bytes) as [t|e] eqn:Ef; [|discriminate Hsign].
    destruct (new_tx S (message S t) [signer self]) as [signed|e] eqn:En;
      [|discriminate Hsign].
    destruct (Hout signed) as [Hdec Hback]. rewrite Hdec in Hsign.
    injection Hsign as <-. exists tx_bytes, t, signed.
    split; [reflexivity|]. split; [exact Ef|]. split; [exact En | exact Hback].
Qed.

(* ================================================================== *)
(** ** The constructor, case by case *)

(** X22.  The length of the symmetric key is checked before anything is done
    with the secret: once the wallet file, when one is named, has been
    read, a key that is not empty and not 64 characters long, given as an
    argument or typed at the prompt, makes [__init__] raise the
    password-length exception, whatever the secret is, even a missing
    one. *)
Theorem init_checks_the_key_length_first :
  forall (H : host) (C : block_cipher) (S : solders)
         (pvk_base58 sol_pvk_file_path aes_256_hex_key : option string)
         (key : string),
    (str_truthy sol_pvk_file_path = false \/
     exists text, read_file H (str_or_empty sol_pvk_file_path) = Ok text) ->
    (aes_256_hex_key = Some key \/
     (str_truthy aes_256_hex_key = false /\ getpass H getpass_prompt = Ok key)) ->
    key <> EmptyString ->
    str_len key <> 64 ->
    __init__ H C S pvk_base58 sol_pvk_file_path aes_256_hex_key
    = Raise HexPasswordLength.
Proof.
  intros H C S pvk path akey key Hfile Hkey Hne Hlen.
  assert (Htruthy : str_truthy (Some key) = true)
    by (destruct key; [contradiction Hne; reflexivity | reflexivity]).
  assert (Hn : negb (str_len key =? 64) = true)
    by (apply negb_true_iff, Nat.eqb_neq; exact Hlen).
  assert (Hlate : forall secret : option string,
            (aes_256_hex_key <- (if negb (str_truthy akey)
                                 then getpass H getpass_prompt
                                 else Ok (str_or_empty akey)) ;;
             pvk_base58 <- (if str_truthy (Some aes_256_hex_key)
                            then plain <- decrypt_pvk C aes_256_hex_key secret ;;
                                 Ok (Some plain)
                            else Ok secret) ;;
             pvk <- match pvk_base58 with
                    | Some s => Ok s
                    | None => Raise TypeError
                    end ;;
             kp <- from_base58_string S pvk ;;
             Ok {| _pvk := pvk; signer := kp; signer_address := pubkey_str S kp |})%result
            = Raise HexPasswordLength).
  { intros secret. destruct Hkey as [-> | [Hf Hg]].
    - rewrite Htruthy. cbn [negb str_or_empty rbind]. rewrite Htruthy.
      unfold decrypt_pvk. rewrite Hn. reflexivity.
    - rewrite Hf, Hg. cbn [negb rbind]. rewrite Htruthy.
      unfold decrypt_pvk. rewrite Hn. reflexivity. }
  unfold __init__.
  destruct (str_truthy path) eqn:Epath.
  - destruct Hfile as [Hnone | [text Htext]]; [discriminate Hnone|].
    rewrite Htext. cbn [rbind]. apply Hlate.
  - cbn [rbind]. apply Hlate.
Qed.

(** X23.  A file path takes the place of the [pvk_base58] argument: the secret is
    the text of the file without the white space around it, the argument is
    not looked at, and a file that cannot be read is the constructor's
    failure. *)
Theorem init_reads_the_secret_from_the_file :
  forall (H : host) (C : block_cipher) (S : solders)
         (pvk_base58 aes_256_hex_key : option string) (path : string),
    path <> EmptyString ->
    (forall text, read_file H path = Ok text ->
       __init__ H C S pvk_base58 (Some path) aes_256_hex_key
       = __init__ H C S (Some (strip strip_chars text)) None aes_256_hex_key) /\
    (forall e, read_file H path = Raise e ->
       __init__ H C S pvk_base58 (Some path) aes_256_hex_key = Raise e).
Proof.
  intros H C S pvk akey path Hne.
  assert (Ht : str_truthy (Some path) = true)
    by (destruct path; [contradiction Hne; reflexivity | reflexivity]).
  split.
  - intros text Hr. unfold __init__. rewrite Ht. cbn [str_or_empty].
    rewrite Hr. reflexivity.
  - intros e Hr. unfold __init__. rewrite Ht. cbn [str_or_empty].
    rewrite Hr. reflexivity.
Qed.

(** X24.  When a key is given as an argument the prompt is not used: two hosts
    that hold the same files give the same client, whatever would be typed
    at their prompts. *)
Theorem init_with_a_key_never_prompts :
  forall (H H' : host) (C : block_cipher) (S : solders)
         (pvk_base58 sol_pvk_file_path aes_256_hex_key : option string),
    str_truthy aes_256_hex_key = true ->
    (forall path, read_file H path = read_file H' path) ->
    __init__ H C S pvk_base58 sol_pvk_file_path aes_256_hex_key
    = __init__ H' C S pvk_base58 sol_pvk_file_path aes_256_hex_key.
Proof.
  intros H H' C S pvk path akey Hk Hfiles. unfold __init__.
  rewrite Hk, Hfiles. reflexivity.
Qed.

Lemma emit_raises c r e : emit c r = Raise e -> r = Raise e.
Proof. destruct r; [discriminate | intros H; exact H]. Qed.

Lemma fromhex_raises_only_ValueError : forall (s : bytes) (e : exn),
  fromhex s = Raise e -> exists what, e = ValueError what.
Proof.
  fix IH 1. intros [|c t] e H; [discriminate H|]. cbn [fromhex] in H.
  destruct (is_space c); [exact (IH t e H)|].
  destruct (hex_value c) as [top|].
  - destruct t as [|d t'].
    + injection H as <-. eexists. reflexivity.
    + destruct (hex_value d) as [bot|].
      * apply emit_raises in H. exact (IH t' e H).
      * injection H as <-. eexists. reflexivity.
  - destruct t; injection H as <-; eexists; reflexivity.
Qed.

(** X25.  A secret that decodes to fewer bytes than one block (an empty secret,
    for one) cannot hold an initialization vector: with a key of 64
    characters the decryption raises a [ValueError]. *)
Theorem decrypt_pvk_rejects_a_secret_shorter_than_a_block :
  forall (C : block_cipher) (aes_256_hex_key secret : string)
         (encrypted_bytes : bytes),
    str_len aes_256_hex_key = 64 ->
    b64decode (encode_utf8 secret) = Ok encrypted_bytes ->
    List.length encrypted_bytes < block_size ->
    exists what,
      decrypt_pvk C aes_256_hex_key (Some secret) = Raise (ValueError what).
Proof.
  intros C key secret eb Hlen Hdec Hshort.
  unfold decrypt_pvk. rewrite Hlen. cbn [Nat.eqb negb rbind].
  rewrite Hdec. cbn [rbind].
  destruct (fromhex (encode_utf8 key)) as [k|e] eqn:Ek.
  - cbn [rbind]. unfold AES_new.
    destruct (negb _); [eexists; reflexivity|].
    assert (Hiv : (List.length (firstn block_size eb) =? block_size) = false).
    { apply Nat.eqb_neq. rewrite length_firstn. lia. }
    rewrite Hiv. cbn [negb rbind]. eexists. reflexivity.
  - destruct (fromhex_raises_only_ValueError _ Ek) as [what ->].
    exists what. reflexivity.
Qed.

Lemma bytes_eqb_eq : forall a b : bytes, bytes_eqb a b = true -> a = b.
Proof.
  induction a as [|x a IH]; intros [|y b] H; try discriminate H; [reflexivity|].
  cbn [bytes_eqb] in H. apply andb_true_iff in H. destruct H as [Hxy Hab].
  apply Ascii.eqb_eq in Hxy. subst y. f_equal. apply IH. exact Hab.
Qed.

(** X26.  What [unpad] accepts is what [pad] makes: when [unpad] returns [data],
    padding [data] again gives the input back. *)
Theorem unpad_accepts_only_what_pad_makes :
  forall (padded_data data : bytes),
    unpad padded_data block_size = Ok data ->
    pad data block_size = padded_data.
Proof.
  intros d x H. unfold unpad in H.
  set (n := List.length d) in *.
  destruct (n =? 0) eqn:E0; [discriminate H|]. apply Nat.eqb_neq in E0.
  destruct (n mod block_size =? 0) eqn:Em; [|discriminate H].
  apply Nat.eqb_eq in Em. cbn [negb] in H.
  set (p := N.to_nat (ord (last d zero))) in *.
  destruct ((p <? 1) || (Nat.min block_size n <? p))%bool eqn:Ep; [discriminate H|].
  apply orb_false_iff in Ep. destruct Ep as [Ep1 Ep2].
  apply Nat.ltb_ge in Ep1, Ep2.
  destruct (bytes_eqb (skipn (n - p) d) (repeat (chr (N.of_nat p)) p)) eqn:Eq;
    [|discriminate H].
  cbn [negb] in H. injection H as <-. apply bytes_eqb_eq in Eq.
  assert (Hlen : List.length (firstn (n - p) d) = n - p)
    by (rewrite length_firstn; fold n; lia).
  unfold pad. rewrite Hlen.
  assert (Hp : block_size - (n - p) mod block_size = p).
  { apply Nat.Div0.mod_divides in Em. destruct Em as [m Hm].
    unfold block_size in *.
    destruct (Nat.eq_dec p 16) as [->|Hneq].
    - replace (n - 16) with ((m - 1) * 16) by lia.
      rewrite Nat.Div0.mod_mul. lia.
    - replace (n - p) with ((16 - p) + (m - 1) * 16) by lia.
      rewrite Nat.Div0.mod_add, Nat.mod_small by lia. lia. }
  rewrite Hp, <- Eq. apply firstn_skipn.
Qed.

(* ================================================================== *)
(** ** The open API *)

(** X27.  [get_klines] sends one GET request, to the kline URL and without
    parameters, and returns data exactly when the reply is a success
    envelope, the data being the envelope's: it accepts what the client's
    gateway accepts. *)
Theorem get_klines_returns_exactly_the_data_of_success_envelopes :
  forall (R : remote) (network : Network) (token : string) (period : Period)
         (from_seconds to_seconds : Z) (w : world) (klines : json),
    let url := klines_url network token period from_seconds to_seconds in
    let run := get_klines R network token period from_seconds to_seconds w in
    events_since w (snd run) = [(clock w, GET url [])] /\
    (fst run = inl klines <->
     delivers (respond R (requests_sent w) (GET url [])) klines).
Proof.
  intros R network token period from to w klines url run. subst run.
  unfold get_klines. fold url. unfold delivers.
  destruct (respond R (requests_sent w) (GET url [])) as [r|e].
  2: { split; [apply events_since_app; reflexivity|].
       split; [discriminate|]. intros (r & d & c & Hr & _). discriminate Hr. }
  destruct (negb (status_code r =? 200)%Z) eqn:Es.
  { split; [apply events_since_app; reflexivity|].
    split; [discriminate|]. intros (r' & d & c & Hr & Hs & _).
    injection Hr as <-. apply Zneqb_200 in Hs. congruence. }
  apply Zneqb_200 in Es.
  destruct (body r) as [d|e] eqn:Eb.
  2: { split; [apply events_since_app; reflexivity|].
       split; [discriminate|]. intros (r' & d & c & Hr & _ & Hb & _).
       injection Hr as <-. congruence. }
  destruct (dict_getitem d "code") as [c|e] eqn:Ec.
  2: { split; [apply events_since_app; reflexivity|].
       split; [discriminate|]. intros (r' & d' & c & Hr & _ & Hb & Hc & _).
       injection Hr as <-. rewrite Eb in Hb. injection Hb as <-.
       apply dict_getitem_ok in Hc. congruence. }
  apply dict_getitem_ok in Ec.
  destruct (ne_zero c) eqn:Ez.
  { split; [destruct (dict_getitem d "msg"); apply events_since_app; reflexivity|].
    split.
    - destruct (dict_getitem d "msg"); discriminate.
    - intros (r' & d' & c' & Hr & _ & Hb & Hc & Hz & _).
      injection Hr as <-. rewrite Eb in Hb. injection Hb as <-. congruence. }
  destruct (dict_getitem d "data") as [k|e] eqn:Ed.
  - split; [apply events_since_app; reflexivity|]. cbn [fst].
    apply dict_getitem_ok in Ed. split.
    + intros H. injection H as <-. exists r, d, c. repeat split; assumption.
    + intros (r' & d' & c' & Hr & _ & Hb & _ & _ & Hd).
      injection Hr as <-. rewrite Eb in Hb. injection Hb as <-.
      congruence.
  - split; [apply events_since_app; reflexivity|]. cbn [fst].
    split; [discriminate|].
    intros (r' & d' & c' & Hr & _ & Hb & _ & _ & Hd).
    injection Hr as <-. rewrite Eb in Hb. injection Hb as <-.
    apply dict_getitem_ok in Hd. congruence.
Qed.

(** X28.  The failures of [get_klines]: a status other than 200 is its HTTP error
    and the body is not looked at; with status 200 and a dict for a body, a
    missing code is a [KeyError], a code that is not zero is its code error
    with the message, or a [KeyError] when the message is missing, and a
    zero code without [data] is a [KeyError]. *)
Theorem get_klines_errors :
  forall (R : remote) (network : Network) (token : string) (period : Period)
         (from_seconds to_seconds : Z) (w : world) (resp : reply),
    let url := klines_url network token period from_seconds to_seconds in
    let outcome := fst (get_klines R network token period from_seconds to_seconds w) in
    respond R (requests_sent w) (GET url []) = Ok resp ->
    (status_code resp <> 200%Z ->
     outcome = inr (OpenApiHttpError (status_code resp))) /\
    (forall d, status_code resp = 200%Z -> body resp = Ok d ->
       (dict_get "code" d = None -> outcome = inr (Propagated (KeyError "code"))) /\
       (forall c, dict_get "code" d = Some c -> ne_zero c = true ->
          (forall m, dict_get "msg" d = Some m ->
             outcome = inr (OpenApiCodeError c m)) /\
          (dict_get "msg" d = None -> outcome = inr (Propagated (KeyError "msg")))) /\
       (forall c, dict_get "code" d = Some c -> ne_zero c = false ->
          dict_get "data" d = None ->
          outcome = inr (Propagated (KeyError "data")))).
Proof.
  intros R network token period from to w resp url outcome Hr. subst outcome.
  unfold get_klines. fold url. rewrite Hr. split.
  - intros Hs. apply Z.eqb_neq in Hs. rewrite Hs. reflexivity.
  - intros d Hs Hb. rewrite Hs, Hb. cbn [Z.eqb Pos.eqb negb]. unfold dict_getitem.
    split; [intros ->; reflexivity|]. split.
    + intros c -> ->. split; [intros m ->; reflexivity | intros ->; reflexivity].
    + intros c -> -> ->. reflexivity.
Qed.

(* ================================================================== *)
(** ** The further theorems on example runs *)

Lemma get_returns_exactly_the_data_of_success_envelopes_witness :
  fst (get (steady (envelope pending) 0%Q) "/sol/tx/get_transaction_status" [] (boot 0%Q))
  = Some (Ok pending).
Proof.
  apply (proj2 (get_returns_exactly_the_data_of_success_envelopes
                  (steady (envelope pending) 0%Q) "/sol/tx/get_transaction_status"
                  [] (boot 0%Q) pending)).
  apply envelope_delivers.
Defined.

Lemma post_returns_exactly_the_data_of_success_envelopes_witness :
  fst (post (steady (envelope succeeded) 0%Q) "sol/tx/submit_signed_transaction"
            [("signed_tx", JStr "TWFu")]%string (boot 0%Q))
  = Some (Ok succeeded).
Proof.
  apply (proj2 (post_returns_exactly_the_data_of_success_envelopes
                  (steady (envelope succeeded) 0%Q) "sol/tx/submit_signed_transaction"
                  [("signed_tx", JStr "TWFu")]%string (boot 0%Q) succeeded)).
  apply envelope_delivers.
Defined.

Lemma gateway_rejects_every_status_but_200_witness :
  fst (get (steady unavailable 0%Q) "a" [] (boot 0%Q))
  = Some (Raise (GetHttpError 503 (url_of "a"))) /\
  fst (post (steady unavailable 0%Q) "a" [] (boot 0%Q))
  = Some (Raise (PostHttpError 503 (url_of "a"))).
Proof.
  destruct (@gateway_rejects_every_status_but_200 (steady unavailable 0%Q) "a" [] []
              (boot 0%Q) 503%Z (Raise (LibraryError "JSONDecodeError")))
    as [Hget Hpost].
  - discriminate.
  - split; [apply Hget | apply Hpost]; reflexivity.
Defined.

Lemma get_envelope_errors_witness :
  fst (get (steady refusal 0%Q) "a" [] (boot 0%Q))
  = Some (Raise (GetCodeError (JInt 40001) (JStr "invalid argument") (url_of "a"))).
Proof.
  destruct (@get_envelope_errors (steady refusal 0%Q) "a" [] (boot 0%Q)
              [("code", JInt 40001); ("msg", JStr "invalid argument")]%string eq_refl)
    as (_ & Hcode & _).
  destruct (Hcode (JInt 40001) eq_refl eq_refl) as [Hmsg _].
  apply Hmsg. reflexivity.
Defined.

Lemma get_swap_route_sends_nothing_iff_fee_above_5_witness :
  events_since (boot 0%Q)
    (snd (get_swap_route (scripted direct_script 0%Q) alice
                         (sample_args 7 false None) (boot 0%Q))) = [].
Proof.
  apply (proj2 (@get_swap_route_sends_nothing_iff_fee_above_5
                  (scripted direct_script 0%Q) plain_solders alice
                  (sample_args 7 false None) (boot 0%Q))).
  right. exists 7%Q. split; [reflexivity | vm_compute; reflexivity].
Defined.

Lemma wait_tx_status_raises_only_the_timeout_witness :
  let run := wait_tx_status (steady unavailable 0%Q) 4 (JStr "H") (JInt 7)
                            (4 # 10)%Q (Fin 1) (boot 0%Q) in
  fst run = Some (Raise (StatusNotFound (JStr "H") (Fin 1))) /\
  In (LOG_ERROR (GetHttpError 503 status_url)) (map snd (trace (snd run))) /\
  (StatusNotFound (JStr "H") (Fin 1) = StatusNotFound (JStr "H") (Fin 1) \/
   is_exception (StatusNotFound (JStr "H") (Fin 1)) = false).
Proof.
  intros run. split; [vm_compute; reflexivity|].
  split; [vm_compute; right; left; reflexivity|].
  apply (@wait_tx_status_raises_only_the_timeout (steady unavailable 0%Q) 4
           (JStr "H") (JInt 7) (4 # 10)%Q (Fin 1) (boot 0%Q)).
  vm_compute. reflexivity.
Defined.

Lemma wait_tx_status_without_time_asks_nothing_witness :
  wait_tx_status (steady (envelope succeeded) 0%Q) 1 (JStr "H") (JInt 7)
                 (4 # 10)%Q (Fin 0) (boot 0%Q)
  = (Some (Raise (StatusNotFound (JStr "H") (Fin 0))), boot 0%Q).
Proof.
  apply wait_tx_status_without_time_asks_nothing.
  - right. right. exists 0%Q. split; [reflexivity | vm_compute; discriminate].
  - lia.
Defined.

Lemma wait_tx_status_without_deadline_never_raises_witness :
  let run := wait_tx_status (scripted [unavailable; envelope pending; cancelled] 0%Q) 4
                            (JStr "H") (JInt 7) (4 # 10)%Q PosInf (boot 0%Q) in
  fst run = Some (Raise (Interrupt "CancelledError")) /\
  map snd (trace (snd run))
  = [status_query (JStr "H") (JInt 7); LOG_ERROR (GetHttpError 503 status_url);
     SLEEP (4 # 10)%Q;
     status_query (JStr "H") (JInt 7); SLEEP (4 # 10)%Q;
     status_query (JStr "H") (JInt 7)] /\
  is_exception (Interrupt "CancelledError") = false.
Proof.
  intros run. split; [vm_compute; reflexivity|].
  split; [vm_compute; reflexivity|].
  apply (@wait_tx_status_without_deadline_never_raises
           (scripted [unavailable; envelope pending; cancelled] 0%Q) 4
           (JStr "H") (JInt 7) (4 # 10)%Q (boot 0%Q)).
  vm_compute. reflexivity.
Defined.

Lemma wait_tx_status_ends_within_the_timeout_witness :
  exists r w',
    wait_tx_status (steady (envelope pending) 0%Q) 152 (JStr "H") (JInt 7)
                   (4 # 10)%Q (Fin 60) (boot 0%Q) = (Some r, w') /\
    requests_sent w' <= 0 + 150.
Proof.
  apply (@wait_tx_status_ends_within_the_timeout (steady (envelope pending) 0%Q)
           (JStr "H") (JInt 7) (4 # 10)%Q 60%Q (boot 0%Q) 150 152).
  - apply steady_sane.
  - vm_compute. reflexivity.
  - vm_compute. discriminate.
  - lia.
Defined.

Lemma is_terminal_reads_flags_left_to_right_witness :
  is_terminal (JObj [("success", JBool true)]%string) = Ok true /\
  is_terminal half_status = Raise (KeyError "failed") /\
  is_terminal lapsed = Ok (truthy (JBool true)) /\
  is_terminal two_flags = Raise (KeyError "expired").
Proof.
  split; [|split; [|split]].
  - destruct (is_terminal_reads_flags_left_to_right (JObj [("success", JBool true)]%string))
      as (Hfirst & _).
    apply (Hfirst (JBool true)); reflexivity.
  - destruct (is_terminal_reads_flags_left_to_right half_status)
      as (_ & _ & _ & _ & Hmissing & _).
    apply (Hmissing (JBool false)); reflexivity.
  - destruct (is_terminal_reads_flags_left_to_right lapsed)
      as (_ & _ & Hthird & _).
    apply (Hthird (JBool false) (JBool false)); reflexivity.
  - destruct (is_terminal_reads_flags_left_to_right two_flags)
      as (_ & _ & _ & _ & _ & Hmissing & _).
    apply (Hmissing (JBool false) (JBool false)); reflexivity.
Defined.

Lemma wait_tx_status_logs_a_malformed_status_witness :
  let R := scripted [envelope half_status; envelope succeeded] 0%Q in
  wait_tx_status R 2 (JStr "H") (JInt 7) (4 # 10)%Q (Fin 60) (boot 0%Q)
  = wait_loop R 1 0%Q (JStr "H") (JInt 7) (4 # 10)%Q (Fin 60)
              (after_sleep R (4 # 10)%Q
                 (after_log (KeyError "failed")
                    (after_request R (status_query (JStr "H") (JInt 7)) (boot 0%Q)))).
Proof.
  intros R.
  apply (@wait_tx_status_logs_a_malformed_status R 1 (JStr "H") (JInt 7) (4 # 10)%Q
           (Fin 60) (boot 0%Q) half_status (KeyError "failed")).
  - apply envelope_delivers.
  - reflexivity.
  - reflexivity.
Defined.

Lemma swap_returns_after_quote_submission_and_terminal_status_witness :
  let R := scripted direct_script 0%Q in
  let run := swap R alice 5 (sample_args (1 # 10000) false None) (4 # 10)%Q (Fin 60)
                  (boot 0%Q) in
  is_terminal (JObj [("success", JBool true); ("failed", JBool false);
                     ("expired", JBool false)]%string) = Ok true /\
  posts_to direct_url (events_since (boot 0%Q) (snd run)) = 1 /\
  posts_to relay_url (events_since (boot 0%Q) (snd run)) = 0 /\
  0 + 3 <= requests_sent (snd run).
Proof.
  intros R run.
  apply (@swap_returns_after_quote_submission_and_terminal_status R plain_solders alice 5
           (sample_args (1 # 10000) false None) (4 # 10)%Q (Fin 60) (boot 0%Q) (snd run)
           sample_quote (JObj [("hash", JStr "H")]%string)).
  vm_compute. reflexivity.
Defined.

Lemma swap_with_fee_above_5_does_nothing_witness :
  swap (scripted direct_script 0%Q) alice 5 (sample_args 6 true None) (4 # 10)%Q
       (Fin 60) (boot 0%Q)
  = (Some (Raise FeeTooLarge), boot 0%Q).
Proof.
  apply swap_with_fee_above_5_does_nothing.
  right. exists 6%Q. split; [reflexivity | vm_compute; reflexivity].
Defined.

Lemma swap_stops_at_an_unusable_quote_witness :
  let R := steady (envelope quote_without_height) 0%Q in
  let a := sample_args (1 # 10000) false None in
  let route := GET route_url (swap_route_params "pub:k1" a) in
  swap R alice 5 a (4 # 10)%Q (Fin 60) (boot 0%Q)
  = (Some (Raise (KeyError "lastValidBlockHeight")), after_request R route (boot 0%Q)) /\
  events_since (boot 0%Q) (snd (swap R alice 5 a (4 # 10)%Q (Fin 60) (boot 0%Q)))
  = [(0%Q, route)].
Proof.
  intros R a route.
  apply (@swap_stops_at_an_unusable_quote R plain_solders alice 5 a (4 # 10)%Q (Fin 60)
           (boot 0%Q) quote_without_height (KeyError "lastValidBlockHeight")).
  - reflexivity.
  - apply envelope_delivers.
  - right. exists (JObj [("swapTransaction", JStr "TWFu")]%string).
    split; [reflexivity|]. right. exists (JStr "TWFu"). split; [reflexivity|].
    right. exists "TWFuazE="%string. split; reflexivity.
Defined.

Lemma sign_raw_tx_returns_the_signed_bytes_in_base64_witness :
  exists out,
    sign_raw_tx alice (JStr "TWFu") = Ok out /\
    b64decode_obj (JStr out) = Ok (list_ascii_of_string "Mank1").
Proof.
  destruct (sign_raw_tx_returns_the_signed_bytes_in_base64 alice (JStr "TWFu"))
    as (_ & Hsign & _).
  apply (Hsign (list_ascii_of_string "Man") (list_ascii_of_string "Man")
               (list_ascii_of_string "Mank1")); reflexivity.
Defined.

Lemma init_checks_the_key_length_first_witness :
  __init__ wallet_host xor_cipher plain_solders None (Some "wallet"%string) None
  = Raise HexPasswordLength.
Proof.
  apply (@init_checks_the_key_length_first wallet_host xor_cipher plain_solders
           None (Some "wallet"%string) None "tooshort"%string).
  - right. eexists. reflexivity.
  - right. split; reflexivity.
  - discriminate.
  - vm_compute. discriminate.
Defined.

Lemma init_reads_the_secret_from_the_file_witness :
  __init__ silent_host xor_cipher plain_solders (Some "ignored"%string)
           (Some "wallet"%string) (Some (string_of_list_ascii (hex sample_key)))
  = __init__ silent_host xor_cipher plain_solders (Some "k1"%string) None
             (Some (string_of_list_ascii (hex sample_key))).
Proof.
  destruct (@init_reads_the_secret_from_the_file silent_host xor_cipher plain_solders
              (Some "ignored"%string) (Some (string_of_list_ascii (hex sample_key)))
              "wallet"%string) as [Hread _].
  - discriminate.
  - apply (Hread (String (ascii_of_nat 32) "k1" ++ String (ascii_of_nat 10) "")%string).
    reflexivity.
Defined.

Lemma init_with_a_key_never_prompts_witness :
  __init__ wallet_host xor_cipher plain_solders None (Some "wallet"%string)
           (Some (string_of_list_ascii (hex sample_key)))
  = __init__ silent_host xor_cipher plain_solders None (Some "wallet"%string)
             (Some (string_of_list_ascii (hex sample_key))).
Proof.
  apply init_with_a_key_never_prompts.
  - reflexivity.
  - intros path. reflexivity.
Defined.

Lemma decrypt_pvk_rejects_a_secret_shorter_than_a_block_witness :
  exists what,
    decrypt_pvk xor_cipher (string_of_list_ascii (hex sample_key)) (Some "TWFu"%string)
    = Raise (ValueError what).
Proof.
  apply (@decrypt_pvk_rejects_a_secret_shorter_than_a_block xor_cipher
           (string_of_list_ascii (hex sample_key)) "TWFu"%string
           (list_ascii_of_string "Man")).
  - reflexivity.
  - reflexivity.
  - vm_compute. lia.
Defined.

Lemma unpad_accepts_only_what_pad_makes_witness :
  pad (list_ascii_of_string "k1") block_size
  = list_ascii_of_string "k1" ++ repeat (ascii_of_nat 14) 14.
Proof.
  apply unpad_accepts_only_what_pad_makes. reflexivity.
Defined.

Lemma get_klines_returns_exactly_the_data_of_success_envelopes_witness :
  fst (get_klines (steady (envelope (JArr [])) 0%Q) SOLANA "HeLp" ONE_HOUR
                  1715731200 1715734800 (boot 0%Q))
  = inl (JArr []).
Proof.
  destruct (get_klines_returns_exactly_the_data_of_success_envelopes
              (steady (envelope (JArr [])) 0%Q) SOLANA "HeLp" ONE_HOUR
              1715731200 1715734800 (boot 0%Q) (JArr [])) as [_ Hiff].
  apply (proj2 Hiff). apply envelope_delivers.
Defined.

Lemma get_klines_errors_witness :
  fst (get_klines (steady unavailable 0%Q) ETHEREUM "HeLp" ONE_HOUR 0 60 (boot 0%Q))
  = inr (OpenApiHttpError 503).
Proof.
  destruct (@get_klines_errors (steady unavailable 0%Q) ETHEREUM "HeLp" ONE_HOUR 0 60
              (boot 0%Q) {| status_code := 503;
                            body := Raise (LibraryError "JSONDecodeError") |} eq_refl)
    as [Hstatus _].
  apply Hstatus. discriminate.
Defined.
